(** * key-generate-py: wallet ledger, selection filter, amount formatter
      and batch balance query, embedded from [main.py]. *)

From Stdlib Require Import ZArith List String Ascii Bool Lia.
From Stdlib Require Import Floats.SpecFloat.
Import ListNotations.

Local Open Scope string_scope.
Local Open Scope Z_scope.

(** ** Python string helpers *)

Module PyStr.

(** [s.startswith(p)] *)
Definition startswith (s p : string) : bool := String.prefix p s.

(** [s.rstrip(c)] for a one-character strip set. *)
Fixpoint rstrip (c : ascii) (s : string) : string :=
  match s with
  | EmptyString => EmptyString
  | String a t =>
      match rstrip c t with
      | EmptyString => if Ascii.eqb a c then EmptyString else String a EmptyString
      | t' => String a t'
      end
  end.

(** ['c' * n]; a count that is zero or negative gives the empty string. *)
Definition repeat_char (c : ascii) (n : Z) : string :=
  string_of_list_ascii (List.repeat c (Z.to_nat n)).

(** [s.split(',')]: the fields between the separators, never empty. *)
Fixpoint split (sep : ascii) (s : string) : list string :=
  match s with
  | EmptyString => [EmptyString]
  | String a t =>
      if Ascii.eqb a sep then EmptyString :: split sep t
      else match split sep t with
           | [] => [String a EmptyString]
           | f :: fs => String a f :: fs
           end
  end.

Fixpoint all_chars (P : ascii -> bool) (s : string) : bool :=
  match s with
  | EmptyString => true
  | String a t => P a && all_chars P t
  end.

Fixpoint ends_with_char (c : ascii) (s : string) : bool :=
  match s with
  | EmptyString => false
  | String a EmptyString => Ascii.eqb a c
  | String _ t => ends_with_char c t
  end.

End PyStr.

(** ** WalletManager.update_wallet_with_address *)

Module WalletManager.

(** The loop body of [update_wallet_with_address]: what is appended to
    [updated_wallets] for one [wallet]. *)
Definition updated_record (private_key address wallet : string) : string :=
  if PyStr.startswith wallet private_key
  then private_key ++ "," ++ address
  else wallet.

(** [updated_wallets = []], then one [append] per wallet, in order. *)
Definition update_wallet_with_address
    (wallets : list string) (private_key address : string) : list string :=
  fold_left
    (fun updated_wallets wallet =>
       (updated_wallets ++ [updated_record private_key address wallet])%list)
    wallets [].

End WalletManager.

(** ** is_id_valid *)

(** [runeq] is a list of ids, or (the legacy shape the code still accepts)
    a single number. *)
Inductive runeq_t : Type :=
| EqList (ids : list Z)
| EqInt (n : Z).

Definition range_match (id rungt runlt : Z) : bool :=
  if negb (rungt =? 0) && negb (runlt =? 0) then (rungt <? id) && (id <? runlt)
  else if negb (rungt =? 0) then id >? rungt
  else if negb (runlt =? 0) then id <? runlt
  else true.

Definition equal_match (id : Z) (runeq : runeq_t) : bool :=
  match runeq with
  | EqList ids =>
      if (Z.of_nat (List.length ids) =? 0) then true
      else existsb (Z.eqb id) ids
  | EqInt n => if negb (n =? 0) then id =? n else true
  end.

Definition is_id_valid (id : Z) (runeq : runeq_t) (rungt runlt : Z) : bool :=
  let range := range_match id rungt runlt in
  let equal := equal_match id runeq in
  range && equal.

(** ** Python floats, as far as [format_token_amount] uses them *)

Module PyFloat.

(** A finite binary64 value [(-1)^f_neg * f_mant * 2^f_exp].  The true
    division of two ints either yields such a value or raises, so neither
    infinities nor NaN occur. *)
Record float : Type := mkFloat { f_neg : bool; f_mant : Z; f_exp : Z }.

Definition prec : Z := 53.
Definition emin : Z := -1074.
Definition emax : Z := 1024.

(** [num / den] rounded to the nearest integer, ties to even
    ([0 <= num], [0 < den]). *)
Definition round_half_even (num den : Z) : Z :=
  let q := num / den in
  let r := num mod den in
  match 2 * r ?= den with
  | Lt => q
  | Gt => q + 1
  | Eq => if Z.even q then q else q + 1
  end.

(** [a / (b * 2^e)] written as a quotient of integers. *)
Definition scale_num (a e : Z) : Z := a * 2 ^ Z.max 0 (- e).
Definition scale_den (b e : Z) : Z := b * 2 ^ Z.max 0 e.

(** Exponent of the last mantissa bit of [a / b] for [0 < a], [0 < b]:
    the binade of the quotient less 52 bits, not below the subnormal
    exponent. *)
Definition quotient_exponent (a b : Z) : Z :=
  let k := Z.log2 a - Z.log2 b in
  let binade := if scale_num a k <? scale_den b k then k - 1 else k in
  Z.max emin (binade - (prec - 1)).

(** [a / b] on Python ints: the correctly rounded quotient.  [None] is
    ZeroDivisionError or OverflowError. *)
Definition int_true_divide (a b : Z) : option float :=
  if b =? 0 then None
  else
    let neg := xorb (a <? 0) (b <? 0) in
    let a' := Z.abs a in
    let b' := Z.abs b in
    if a' =? 0 then Some (mkFloat neg 0 0)
    else
      let e := quotient_exponent a' b' in
      let m := round_half_even (scale_num a' e) (scale_den b' e) in
      if (0 <=? e) && (2 ^ emax <=? m * 2 ^ e) then None
      else Some (mkFloat neg m e).

(** [x != 0] *)
Definition nonzero (x : float) : bool := negb (f_mant x =? 0).

(** *** Fixed-point rendering, [f"{x:.{d}f}"] *)

Definition digit_char (n : Z) : ascii :=
  match n with
  | 0 => "0" | 1 => "1" | 2 => "2" | 3 => "3" | 4 => "4"
  | 5 => "5" | 6 => "6" | 7 => "7" | 8 => "8" | _ => "9"
  end%char.

Fixpoint dec_fuel (fuel : nat) (n : Z) : string :=
  match fuel with
  | O => ""
  | S f =>
      if n <? 10 then String (digit_char n) ""
      else dec_fuel f (n / 10) ++ String (digit_char (n mod 10)) ""
  end.

(** [str(n)] for [0 <= n]. *)
Definition str_of_nonneg (n : Z) : string :=
  dec_fuel (S (Z.to_nat (Z.log2 n))) n.

(** The last [d] decimal digits of [n], zero padded. *)
Fixpoint frac_digits (d : nat) (n : Z) : string :=
  match d with
  | O => ""
  | S k => frac_digits k (n / 10) ++ String (digit_char (n mod 10)) ""
  end.

(** [|x| * 10^d] rounded to an integer, ties to even, on the exact
    binary value of [x]. *)
Definition scaled_decimal (x : float) (d : Z) : Z :=
  round_half_even (f_mant x * 2 ^ Z.max 0 (f_exp x) * 10 ^ d)
                  (2 ^ Z.max 0 (- f_exp x)).

Definition format_f (x : float) (d : Z) : string :=
  let n := scaled_decimal x d in
  (if f_neg x then "-" else "")
  ++ str_of_nonneg (n / 10 ^ d)
  ++ (if d =? 0 then "" else "." ++ frac_digits (Z.to_nat d) (n mod 10 ^ d)).

(** *** [float(text)], on the alphabet [format_f] writes *)

Definition digit_value (c : ascii) : option Z :=
  let n := Z.of_nat (nat_of_ascii c) in
  if (48 <=? n) && (n <=? 57) then Some (n - 48) else None.

(** Reads digits with at most one point: [Some (n, k)] stands for
    [n / 10^k].  [None] is ValueError (no digit at all, a second point,
    another character). *)
Fixpoint parse_unsigned (s : string) (seen_dot : bool) (n k ndigits : Z)
  : option (Z * Z) :=
  match s with
  | EmptyString => if 0 <? ndigits then Some (n, k) else None
  | String c t =>
      if Ascii.eqb c "." then
        if seen_dot then None else parse_unsigned t true n k ndigits
      else
        match digit_value c with
        | Some v =>
            parse_unsigned t seen_dot (10 * n + v)
                           (if seen_dot then k + 1 else k) (ndigits + 1)
        | None => None
        end
  end.

Definition parse_decimal (s : string) : option (bool * (Z * Z)) :=
  match s with
  | String "-" t => option_map (pair true) (parse_unsigned t false 0 0 0)
  | _ => option_map (pair false) (parse_unsigned s false 0 0 0)
  end.

(** [float(s) == 0]: the decimal [n / 10^k] rounds to zero exactly when
    it is at most half the least subnormal, [2^-1075]. *)
Definition float_of_text_is_zero (s : string) : option bool :=
  match parse_decimal s with
  | Some (_, (n, k)) => Some (n * 2 ^ (1 - emin) <=? 10 ^ k)
  | None => None
  end.

End PyFloat.

(** ** format_token_amount *)

Definition near_zero_marker (decimals : Z) : string :=
  "< 0." ++ PyStr.repeat_char "0" (decimals - 1) ++ "1".

(** The text before the near-zero test:
    [f"{result:.{decimals}f}".rstrip('0').rstrip('.')]. *)
Definition stripped_rendering (result : PyFloat.float) (decimals : Z) : string :=
  PyStr.rstrip "." (PyStr.rstrip "0" (PyFloat.format_f result decimals)).

(** [None] is an exception: a negative [decimals] cannot pass both the
    division and the format specification, the quotient can overflow, and
    [float(formatted)] rejects an empty text. *)
Definition format_token_amount (amount decimals : Z) : option string :=
  if decimals <? 0 then None
  else
    match PyFloat.int_true_divide amount (10 ^ decimals) with
    | None => None
    | Some result =>
        let formatted := stripped_rendering result decimals in
        match PyFloat.float_of_text_is_zero formatted with
        | None => None
        | Some is_zero =>
            if is_zero && PyFloat.nonzero result
            then Some (near_zero_marker decimals)
            else Some formatted
        end
    end.

(** ** Effects: the calls the program makes and the lines it logs *)

Inductive level : Type := INFO | WARNING | ERROR | SUCCESS.

(** One constructor per log line of the modelled functions, carrying the
    values the line interpolates. *)
Inductive message : Type :=
| MsgConnected (url : string)
| MsgAttemptFailed (attempt_no : Z) (url : string)
| MsgAttemptRaised (attempt_no : Z)
| MsgCannotConnect (url : string) (max_retries : Z)
| MsgNoWallets
| MsgUnsupportedNetwork (network : string)
| MsgNetworkUnreachable (network url : string)
| MsgTokenInfoFailed
| MsgFromKeyFailed
| MsgNoAddress (idx : Z) (private_key : string)
| MsgBalance (idx : Z) (address balance_native native_symbol
                        balance_token token_symbol : string)
| MsgQueryFailed (idx : Z)
| MsgSummary (calc_count : Z) (native_name network : string).

Inductive event : Type :=
| EvConnect (url : string) (attempt : Z)
    (* Web3(Web3.HTTPProvider(url)) and is_connected() *)
| EvSleep (seconds : Z)                   (* time.sleep(2) *)
| EvSleepUniform (lo hi : Z)              (* time.sleep(random.uniform(lo, hi)) *)
| EvTokenSymbol                           (* symbol().call() *)
| EvTokenDecimals                         (* decimals().call() *)
| EvFromKey (private_key : string)        (* Account.from_key *)
| EvGetBalance (address : string)         (* eth.get_balance *)
| EvBalanceOf (address : string)          (* balanceOf(address).call() *)
| EvLog (l : level) (m : message).

(** What one connection attempt meets. *)
Inductive attempt_result : Type := Connected | NotConnected | Raised.

(** Everything outside the program: the ledger files, the nodes, the key
    library.  [None] is a raised exception. *)
Record World : Type := mkWorld {
  load_wallets : string -> list string;
  is_connected : string -> Z -> attempt_result;
  token_symbol_call : option string;
  token_decimals_call : option Z;
  account_from_key : string -> option string;
  eth_get_balance : Z -> string -> option Z;
  token_balanceOf : Z -> string -> option Z
}.

(** A computation that returns a value and the events it caused. *)
Definition M (A : Type) : Type := (A * list event)%type.

Definition ret {A : Type} (a : A) : M A := (a, []).

Definition bind {A B : Type} (m : M A) (k : A -> M B) : M B :=
  let '(a, t1) := m in
  let '(b, t2) := k a in
  (b, (t1 ++ t2)%list).

Definition tell (e : event) : M unit := (tt, [e]).

Definition log (l : level) (m : message) : M unit := tell (EvLog l m).

Definition trace {A : Type} (m : M A) : list event := snd m.

Notation "x <- c ;; k" := (bind c (fun x => k))
  (at level 61, c at next level, right associativity).
Notation "c ;;; k" := (bind c (fun _ => k))
  (at level 61, right associativity).

(** ** get_web3_connection *)

Record Web3 : Type := mkWeb3 { provider_url : string }.

(** The [for attempt in range(max_retries)] loop with [remaining]
    iterations to go, and the two lines after it. *)
Fixpoint connection_attempts (w : World) (url : string) (max_retries : Z)
    (remaining : nat) (attempt : Z) : M (option Web3) :=
  match remaining with
  | O =>
      log ERROR (MsgCannotConnect url max_retries) ;;;
      ret None
  | S remaining' =>
      let retry :=
        (if attempt <? max_retries - 1 then tell (EvSleep 2) else ret tt) ;;;
        connection_attempts w url max_retries remaining' (attempt + 1) in
      tell (EvConnect url attempt) ;;;
      match is_connected w url attempt with
      | Connected =>
          log INFO (MsgConnected url) ;;;
          ret (Some (mkWeb3 url))
      | NotConnected =>
          log WARNING (MsgAttemptFailed (attempt + 1) url) ;;; retry
      | Raised =>
          log ERROR (MsgAttemptRaised (attempt + 1)) ;;; retry
      end
  end.

Definition get_web3_connection (w : World) (url : string) (max_retries : Z)
  : M (option Web3) :=
  connection_attempts w url max_retries (Z.to_nat max_retries) 0.

(** ** get_address_by_key *)

Definition get_address_by_key (w : World) (private_key : string)
  : M (option string) :=
  tell (EvFromKey private_key) ;;;
  match account_from_key w private_key with
  | Some address => ret (Some address)
  | None => log ERROR MsgFromKeyFailed ;;; ret None
  end.

(** ** NETWORK_CONFIG *)

Record network_profile : Type := mkProfile {
  native_symbol : string;
  native_name : string;
  native_decimals : Z;
  native_url : string;
  token_contract : string
}.

Definition NETWORK_CONFIG : list (string * network_profile) :=
  [ ("eth", mkProfile "ETH" "Ethereum" 18 "https://eth.drpc.org"
              "0xdac17f958d2ee523a2206206994597c13d831ec7");
    ("base", mkProfile "ETH" "Base" 18 "https://mainnet.base.org"
               "0x833589fcd6edb6e08f4c7c32d4f71b54bda02913");
    ("bsc", mkProfile "BNB" "Binance Smart Chain" 18
              "https://bsc-rpc.publicnode.com"
              "0x8ac76a51cc950d9822d68b83fe1ad97b32cd580d") ].

Fixpoint lookup_network (network : string)
    (table : list (string * network_profile)) : option network_profile :=
  match table with
  | [] => None
  | (k, v) :: rest => if String.eqb k network then Some v else lookup_network network rest
  end.

(** ** generate_network_balance *)

(** The [try] block of the loop body; [None] is an exception raised
    somewhere inside it, which the handler below turns into a log line. *)
Definition query_balances (w : World) (config : network_profile)
    (token_symbol : string) (token_decimals : Z) (idx : Z) (address : string)
  : M (option unit) :=
  tell (EvGetBalance address) ;;;
  match eth_get_balance w idx address with
  | None => ret None
  | Some balance_native_raw =>
      match format_token_amount balance_native_raw (native_decimals config) with
      | None => ret None
      | Some balance_native =>
          tell (EvBalanceOf address) ;;;
          match token_balanceOf w idx address with
          | None => ret None
          | Some balance_token_raw =>
              match format_token_amount balance_token_raw token_decimals with
              | None => ret None
              | Some balance_token =>
                  log INFO (MsgBalance idx address
                              balance_native (native_symbol config)
                              balance_token token_symbol) ;;;
                  ret (Some tt)
              end
          end
      end
  end.

(** [if not address]: [None] and the empty string are both falsy. *)
Definition falsy (address : option string) : bool :=
  match address with
  | None => true
  | Some a => String.eqb a ""
  end.

(** [parts[0]] of [wallet_data.split(',')]. *)
Definition key_field (wallet_data : string) : string :=
  hd wallet_data (PyStr.split "," wallet_data).

(** One iteration of [for idx, wallet_data in enumerate(wallets)], with
    [idx] already incremented to the 1-based index.  Returns the
    [calc_count] the iteration leaves; both [continue] statements and the
    end of the body come back here. *)
Definition loop_body (w : World) (config : network_profile)
    (token_symbol : string) (token_decimals : Z)
    (runeq : runeq_t) (rungt runlt : Z)
    (idx : Z) (wallet_data : string) (calc_count : Z) : M Z :=
  if negb (is_id_valid idx runeq rungt runlt) then ret calc_count
  else
    let calc_count := calc_count + 1 in
    let private_key := key_field wallet_data in
    address <- get_address_by_key w private_key ;;
    if falsy address then
      log ERROR (MsgNoAddress idx private_key) ;;;
      ret calc_count
    else
      let address := match address with Some a => a | None => "" end in
      r <- query_balances w config token_symbol token_decimals idx address ;;
      (match r with
       | Some _ => ret tt
       | None => log ERROR (MsgQueryFailed idx)
       end) ;;;
      tell (EvSleepUniform 1 3) ;;;
      ret calc_count.

(** The loop itself; [pos] is the 0-based position of the head of
    [wallets] in the ledger.  Returns the final [calc_count]. *)
Fixpoint balance_loop (w : World) (config : network_profile)
    (token_symbol : string) (token_decimals : Z)
    (runeq : runeq_t) (rungt runlt : Z)
    (wallets : list string) (pos : Z) (calc_count : Z) : M Z :=
  match wallets with
  | [] => ret calc_count
  | wallet_data :: rest =>
      calc_count' <- loop_body w config token_symbol token_decimals
                       runeq rungt runlt (pos + 1) wallet_data calc_count ;;
      balance_loop w config token_symbol token_decimals runeq rungt runlt
                   rest (pos + 1) calc_count'
  end.

(** Lines 334-342: the contract handle and the two metadata calls, inside
    one [try]; [None] is an exception from any of them. *)
Definition token_metadata (w : World) : M (option (string * Z)) :=
  tell EvTokenSymbol ;;;
  match token_symbol_call w with
  | None => ret None
  | Some token_symbol =>
      tell EvTokenDecimals ;;;
      match token_decimals_call w with
      | None => ret None
      | Some token_decimals => ret (Some (token_symbol, token_decimals))
      end
  end.

Definition generate_network_balance (w : World) (name : string)
    (runeq : runeq_t) (rungt runlt : Z) (network : string) : M unit :=
  let wallets := load_wallets w name in
  match wallets with
  | [] => log WARNING MsgNoWallets
  | _ :: _ =>
      match lookup_network network NETWORK_CONFIG with
      | None => log ERROR (MsgUnsupportedNetwork network)
      | Some config =>
          web3_obj <- get_web3_connection w (native_url config) 3 ;;
          match web3_obj with
          | None => log ERROR (MsgNetworkUnreachable network (native_url config))
          | Some _ =>
              meta <- token_metadata w ;;
              match meta with
              | None => log ERROR MsgTokenInfoFailed
              | Some (token_symbol, token_decimals) =>
                  calc_count <- balance_loop w config token_symbol token_decimals
                                  runeq rungt runlt wallets 0 0 ;;
                  log SUCCESS (MsgSummary calc_count (native_name config) network)
              end
          end
      end
  end.

(** ** Reading a trace *)

(** The calls made, without the log lines. *)
Definition is_call (e : event) : bool :=
  match e with
  | EvLog _ _ => false
  | _ => true
  end.

Definition calls (t : list event) : list event := filter is_call t.

Definition is_attempt (e : event) : bool :=
  match e with EvConnect _ _ => true | _ => false end.

Definition is_cooldown (e : event) : bool :=
  match e with EvSleep 2 => true | _ => false end.

Definition is_balance_call (e : event) : bool :=
  match e with EvGetBalance _ | EvBalanceOf _ => true | _ => false end.

(** [time.sleep(random.uniform(1, 3))] *)
Definition is_pacing_sleep (e : event) : bool :=
  match e with EvSleepUniform 1 3 => true | _ => false end.

(** Events that only an iteration of the wallet loop causes. *)
Definition is_per_wallet (e : event) : bool :=
  match e with
  | EvFromKey _ | EvGetBalance _ | EvBalanceOf _ | EvSleepUniform _ _ => true
  | EvLog _ MsgFromKeyFailed | EvLog _ (MsgNoAddress _ _)
  | EvLog _ (MsgBalance _ _ _ _ _ _) | EvLog _ (MsgQueryFailed _) => true
  | _ => false
  end.

Definition count (P : event -> bool) (t : list event) : nat :=
  List.length (filter P t).

Definition none_of (P : event -> bool) (t : list event) : bool :=
  forallb (fun e => negb (P e)) t.

Definition is_summary (e : event) : bool :=
  match e with EvLog _ (MsgSummary _ _ _) => true | _ => false end.

(** Events of [get_web3_connection] and of the metadata calls. *)
Definition is_setup (e : event) : bool :=
  match e with
  | EvConnect _ _ | EvSleep _ | EvTokenSymbol | EvTokenDecimals => true
  | EvLog _ (MsgConnected _) | EvLog _ (MsgAttemptFailed _ _)
  | EvLog _ (MsgAttemptRaised _) | EvLog _ (MsgCannotConnect _ _) => true
  | _ => false
  end.

(** [enumerate(wallets)] with the index already made 1-based, for the
    part of the ledger that starts at 0-based position [pos]. *)
Fixpoint enumerate_from (pos : Z) (wallets : list string) : list (Z * string) :=
  match wallets with
  | [] => []
  | wallet_data :: rest => (pos + 1, wallet_data) :: enumerate_from (pos + 1) rest
  end.

(** The 1-based indices of an [n]-record ledger that pass the filter. *)
Definition matching_indices (runeq : runeq_t) (rungt runlt : Z) (n : nat)
  : list Z :=
  filter (fun i => is_id_valid i runeq rungt runlt)
         (map Z.of_nat (seq 1 n)).

(** The records that pass the filter and whose key yields an address. *)
Definition queried_records (w : World) (runeq : runeq_t) (rungt runlt : Z)
    (wallets : list string) : list (Z * string) :=
  filter (fun r => is_id_valid (fst r) runeq rungt runlt
                   && negb (falsy (account_from_key w (key_field (snd r)))))
         (enumerate_from 0 wallets).

(** The events of the loop iteration for record [r = (idx, wallet_data)]. *)
Definition body_events (w : World) (config : network_profile)
    (token_symbol : string) (token_decimals : Z)
    (runeq : runeq_t) (rungt runlt : Z) (r : Z * string) : list event :=
  trace (loop_body w config token_symbol token_decimals runeq rungt runlt
                   (fst r) (snd r) 0).

(** ** Reading a rendering *)

Definition is_digit (c : ascii) : bool :=
  match PyFloat.digit_value c with Some _ => true | None => false end.

(** Characters of a plain decimal rendering and of the near-zero marker;
    no exponent letter and no plus sign. *)
Definition is_plain_char (c : ascii) : bool :=
  is_digit c || Ascii.eqb c "." || Ascii.eqb c "-"
  || Ascii.eqb c "<" || Ascii.eqb c " ".

(** The number a string of digits denotes. *)
Definition digits_value (s : string) : Z :=
  fold_left (fun n c => 10 * n + match PyFloat.digit_value c with
                                 | Some v => v
                                 | None => 0
                                 end)
            (list_ascii_of_string s) 0.

(** ** The Standard Library's binary64 division, for comparison *)

(** A quotient in the Standard Library's representation, with a mantissa
    that rounding carried to [2^53] renormalised. *)
Definition to_spec (x : PyFloat.float) : spec_float :=
  match PyFloat.f_mant x with
  | Zpos m =>
      if Zpos m =? 2 ^ PyFloat.prec
      then S754_finite (PyFloat.f_neg x) (Pos.div2 m) (PyFloat.f_exp x + 1)
      else S754_finite (PyFloat.f_neg x) m (PyFloat.f_exp x)
  | _ => S754_zero (PyFloat.f_neg x)
  end.

(** [SFdiv] on two integers taken as mantissas with exponent zero. *)
Definition ieee_divide (a b : Z) : spec_float :=
  match a, b with
  | Zpos p, Zpos q =>
      SFdiv PyFloat.prec PyFloat.emax (S754_finite false p 0) (S754_finite false q 0)
  | Zneg p, Zpos q =>
      SFdiv PyFloat.prec PyFloat.emax (S754_finite true p 0) (S754_finite false q 0)
  | _, _ => S754_zero false
  end.

Definition same_quotient (a b : Z) : bool :=
  match option_map to_spec (PyFloat.int_true_divide a b), ieee_divide a b with
  | Some (S754_finite s m e), S754_finite s' m' e' =>
      Bool.eqb s s' && Pos.eqb m m' && Z.eqb e e'
  | Some (S754_zero s), S754_zero s' => Bool.eqb s s'
  | None, S754_infinity _ => true
  | _, _ => false
  end.

(** Operands across the range: exact, inexact, ties, subnormal,
    underflowing and overflowing quotients. *)
Definition sample_operands : list (Z * Z) :=
  [ (1, 10 ^ 18); (1500000000000000000, 10 ^ 18);
    (123456789012345678901234567890, 10 ^ 18);
    (2 ^ 256 - 1, 10 ^ 255); (2 ^ 256 - 1, 10 ^ 6); (7, 10 ^ 23);
    (2 ^ 53 + 1, 1); (2 ^ 54 + 2, 1); (2 ^ 54 + 6, 1); (2 ^ 54 - 1, 1);
    (-15, 10); (1, 3); (2, 3); (10 ^ 308, 1);
    (1, 10 ^ 323); (3, 10 ^ 324); (4, 10 ^ 324); (5, 10 ^ 324);
    (1, 10 ^ 400); (12345678901234567, 10 ^ 340);
    (2 ^ 1024 - 2 ^ 970 - 1, 1); (2 ^ 1024 - 2 ^ 970, 1); (10 ^ 309, 1) ].

(** ** Sample worlds *)

(** A three-record ledger behind a node that answers every call. *)
Definition healthy_world : World :=
  mkWorld (fun _ => ["k1"; "k2,0xA2"; "k3"])
          (fun _ _ => Connected)
          (Some "USDT") (Some 6)
          (fun private_key => Some ("0x" ++ private_key))
          (fun _ _ => Some 1500000000000000000)
          (fun _ _ => Some 2500000).

(** The same ledger behind an endpoint that never answers. *)
Definition unreachable_world : World :=
  mkWorld (load_wallets healthy_world)
          (fun _ _ => NotConnected)
          (token_symbol_call healthy_world) (token_decimals_call healthy_world)
          (account_from_key healthy_world)
          (eth_get_balance healthy_world) (token_balanceOf healthy_world).

(** A reachable node whose token contract does not answer [decimals()]. *)
Definition no_metadata_world : World :=
  mkWorld (load_wallets healthy_world)
          (is_connected healthy_world)
          (Some "USDT") None
          (account_from_key healthy_world)
          (eth_get_balance healthy_world) (token_balanceOf healthy_world).

(** A healthy node and a ledger whose second key is malformed and whose
    first wallet cannot be queried. *)
Definition flaky_world : World :=
  mkWorld (load_wallets healthy_world)
          (is_connected healthy_world)
          (Some "USDT") (Some 6)
          (fun private_key =>
             if String.eqb private_key "k2" then None
             else Some ("0x" ++ private_key))
          (fun idx _ => if idx =? 1 then None else Some 1500000000000000000)
          (token_balanceOf healthy_world).

(** A healthy node and a one-record ledger whose key is malformed. *)
Definition bad_key_world : World :=
  mkWorld (fun _ => ["not-a-key"])
          (is_connected healthy_world)
          (Some "USDT") (Some 6)
          (fun _ => None)
          (eth_get_balance healthy_world) (token_balanceOf healthy_world).

(** ** Further readings of a record and of a trace *)

Definition comma_free (s : string) : bool :=
  PyStr.all_chars (fun c => negb (Ascii.eqb c ",")) s.

Definition is_from_key (e : event) : bool :=
  match e with EvFromKey _ => true | _ => false end.

Definition is_get_balance (e : event) : bool :=
  match e with EvGetBalance _ => true | _ => false end.

Definition is_balance_of (e : event) : bool :=
  match e with EvBalanceOf _ => true | _ => false end.

Definition is_metadata_call (e : event) : bool :=
  match e with EvTokenSymbol | EvTokenDecimals => true | _ => false end.

(** ** Further readings of a rendering *)

Fixpoint any_char (P : ascii -> bool) (s : string) : bool :=
  match s with
  | EmptyString => false
  | String a t => P a || any_char P t
  end.

Definition is_nonzero_digit (c : ascii) : bool :=
  is_digit c && negb (Ascii.eqb c "0").

(** Characters of a fixed-point rendering. *)
Definition is_number_char (c : ascii) : bool :=
  is_digit c || Ascii.eqb c "." || Ascii.eqb c "-".

(** The number of characters after the first point, zero without one. *)
Fixpoint after_point (s : string) : Z :=
  match s with
  | EmptyString => 0
  | String a t =>
      if Ascii.eqb a "." then Z.of_nat (String.length t) else after_point t
  end.

(** The number read from a run of digits after [n] was read. *)
Fixpoint value_from (n : Z) (s : string) : Z :=
  match s with
  | EmptyString => n
  | String c t =>
      value_from (10 * n + match PyFloat.digit_value c with
                           | Some v => v
                           | None => 0
                           end) t
  end.

(** ** The ledger file: load_wallets, save_wallets, add_private_key *)

Module LedgerFile.

Definition LF : ascii := ascii_of_nat 10.
Definition CR : ascii := ascii_of_nat 13.

(** [str.isspace] on the code points below 256; a character of a text is
    taken as its code point. *)
Definition is_space (c : ascii) : bool :=
  let n := nat_of_ascii c in
  ((9 <=? n) && (n <=? 13) || (28 <=? n) && (n <=? 32)
   || (n =? 133) || (n =? 160))%nat.

Fixpoint lstrip (s : string) : string :=
  match s with
  | EmptyString => EmptyString
  | String a t => if is_space a then lstrip t else s
  end.

Fixpoint rstrip (s : string) : string :=
  match s with
  | EmptyString => EmptyString
  | String a t =>
      match rstrip t with
      | EmptyString => if is_space a then EmptyString else String a EmptyString
      | t' => String a t'
      end
  end.

(** [line.strip()] *)
Definition strip (s : string) : string := rstrip (lstrip s).

(** Reading in text mode with the default [newline=None]: "\r\n" and a
    lone "\r" both arrive as "\n". *)
Fixpoint universal_newlines (s : string) : string :=
  match s with
  | EmptyString => EmptyString
  | String a t =>
      if Ascii.eqb a CR then
        String LF (match t with
                   | String b t' =>
                       if Ascii.eqb b LF then universal_newlines t'
                       else universal_newlines t
                   | EmptyString => EmptyString
                   end)
      else String a (universal_newlines t)
  end.

(** [f.readlines()]: the lines, each with its "\n", the last one perhaps
    without. *)
Fixpoint readlines (s : string) : list string :=
  match s with
  | EmptyString => []
  | String a t =>
      if Ascii.eqb a LF then String LF EmptyString :: readlines t
      else match readlines t with
           | [] => [String a EmptyString]
           | l :: ls => String a l :: ls
           end
  end.

(** What [open(filename, 'r', encoding='utf-8')] meets: no file, a file
    that may not be read, bytes that are no UTF-8 text, or a text. *)
Inductive file_state : Type :=
| Missing
| Unreadable
| Garbled
| Text (content : string).

Definition nonempty (s : string) : bool :=
  match s with EmptyString => false | String _ _ => true end.

(** [[line.strip() for line in f.readlines() if line.strip()]]; a missing
    file and a failed read both give the empty list. *)
Definition load_wallets (file : file_state) : list string :=
  match file with
  | Text content =>
      map strip
        (filter (fun line => nonempty (strip line))
                (readlines (universal_newlines content)))
  | Missing | Unreadable | Garbled => []
  end.

(** What [save_wallets] writes: each wallet followed by "\n". *)
Fixpoint written (wallets : list string) : string :=
  match wallets with
  | [] => EmptyString
  | wallet :: rest => wallet ++ String LF (written rest)
  end.

(** How the [with open(...)] block of a write ends.  What [open] or
    [write] raise is caught by the method and only logged. *)
Inductive write_outcome : Type :=
| Completes
| OpenFails                          (* the file is left as it was *)
| WriteFails (remains : file_state). (* the file is left as [remains] *)

(** What [save_wallets] and [add_private_key] log. *)
Inductive notice : Type := Saved | SaveFailed | AddFailed.

(** [save_wallets]: mode ['w'] replaces what the file held.  Returns the
    file as the call leaves it and what the call logs; a file that may
    not be read stays so. *)
Definition save_wallets (file : file_state) (wallets : list string)
    (outcome : write_outcome) : file_state * list notice :=
  match outcome with
  | Completes =>
      (match file with
       | Unreadable => Unreadable
       | Missing | Garbled | Text _ => Text (written wallets)
       end, [Saved])
  | OpenFails => (file, [SaveFailed])
  | WriteFails remains => (remains, [SaveFailed])
  end.

(** [add_private_key]: mode ['a'] creates a missing file and writes
    after what the file holds; a completed call logs nothing. *)
Definition add_private_key (file : file_state) (private_key : string)
    (outcome : write_outcome) : file_state * list notice :=
  match outcome with
  | Completes =>
      (match file with
       | Text content => Text (content ++ private_key ++ String LF EmptyString)
       | Missing => Text (private_key ++ String LF EmptyString)
       | Unreadable => Unreadable
       | Garbled => Garbled
       end, [])
  | OpenFails => (file, [AddFailed])
  | WriteFails remains => (remains, [AddFailed])
  end.

Definition completes (outcome : write_outcome) : bool :=
  match outcome with Completes => true | _ => false end.

(** A text whose last line, if there is one, has its "\n". *)
Definition newline_terminated (content : string) : bool :=
  match content with
  | EmptyString => true
  | String _ _ => PyStr.ends_with_char LF content
  end.

(** A file to which a key can be appended as a line of its own. *)
Definition appendable (file : file_state) : bool :=
  match file with
  | Missing => true
  | Text content => newline_terminated content
  | Unreadable | Garbled => false
  end.

(** A record as a ledger keeps it: not empty, no whitespace at either
    end, no line break inside. *)
Definition starts_clean (s : string) : bool :=
  match s with EmptyString => false | String a _ => negb (is_space a) end.

Fixpoint ends_clean (s : string) : bool :=
  match s with
  | EmptyString => false
  | String a EmptyString => negb (is_space a)
  | String _ t => ends_clean t
  end.

Definition no_line_break (s : string) : bool :=
  PyStr.all_chars (fun c => negb (Ascii.eqb c LF) && negb (Ascii.eqb c CR)) s.

Definition clean (s : string) : bool :=
  starts_clean s && ends_clean s && no_line_break s.

(** [get_wallets_filename] *)
Definition generate_dir : string := "generate".

Definition get_wallets_filename (name : string) : string :=
  if nonempty name then generate_dir ++ "/wallets-" ++ name ++ ".txt"
  else generate_dir ++ "/wallets.txt".

End LedgerFile.

(** ** generate_address *)

Module GenerateAddress.

(** The log lines of [generate_address] and of [save_wallets]. *)
Inductive line : Type :=
| LineNoWallets
| LineRecord (id : Z) (wallet_data : string)     (* logger.debug *)
| LineAddress (id : Z) (address : string)
| LineNoAddress (id : Z)
| LineSaved
| LineSaveFailed
| LineSummary (count : Z).

Inductive step : Type :=
| Derive (e : event)                  (* what get_address_by_key does *)
| Save (wallets : list string)        (* the call save_wallets(wallets) *)
| Log (l : line).

(** [len(parts) == 2] *)
Definition has_two_fields (wallet_data : string) : bool :=
  Z.of_nat (List.length (PyStr.split "," wallet_data)) =? 2.

(** The [for idx, wallet_data in enumerate(wallets)] loop: [pos] is the
    0-based position of the head of [wallets], [updated_wallets] the copy
    being rewritten.  Returns the final copy and the steps taken. *)
Fixpoint address_loop (w : World) (wallets : list string) (pos : Z)
    (updated_wallets : list string) : list string * list step :=
  match wallets with
  | [] => (updated_wallets, [])
  | wallet_data :: rest =>
      let id := pos + 1 in
      if has_two_fields wallet_data then
        let '(final, steps) := address_loop w rest (pos + 1) updated_wallets in
        (final, Log (LineRecord id wallet_data) :: steps)
      else
        let private_key := key_field wallet_data in
        let '(address, derivation) := get_address_by_key w private_key in
        if falsy address then
          let '(final, steps) := address_loop w rest (pos + 1) updated_wallets in
          (final,
           (Log (LineRecord id wallet_data) :: map Derive derivation
            ++ Log (LineNoAddress id) :: steps)%list)
        else
          let address := match address with Some a => a | None => "" end in
          let updated_wallets :=
            WalletManager.update_wallet_with_address
              updated_wallets private_key address in
          let '(final, steps) := address_loop w rest (pos + 1) updated_wallets in
          (final,
           (Log (LineRecord id wallet_data) :: map Derive derivation
            ++ Log (LineAddress id address) :: steps)%list)
  end.

(** [write_ok] tells whether the file write of [save_wallets] succeeds;
    a failure is logged and the summary follows all the same. *)
Definition generate_address (w : World) (name : string) (write_ok : bool)
  : list step :=
  let wallets := load_wallets w name in
  match wallets with
  | [] => [Log LineNoWallets]
  | _ :: _ =>
      let count := Z.of_nat (List.length wallets) in
      let '(updated_wallets, steps) := address_loop w wallets 0 wallets in
      (steps
       ++ [Save updated_wallets;
           Log (if write_ok then LineSaved else LineSaveFailed);
           Log (LineSummary count)])%list
  end.

(** The record [generate_address] means to leave in the place of
    [wallet_data]. *)
Definition resolved (w : World) (wallet_data : string) : string :=
  if has_two_fields wallet_data then wallet_data
  else
    match account_from_key w (key_field wallet_data) with
    | Some address =>
        if String.eqb address "" then wallet_data
        else key_field wallet_data ++ "," ++ address
    | None => wallet_data
    end.

(** No record of the ledger other than [wallet_data] itself starts with
    its key field: checked for each record against those before it
    ([done]) and after it. *)
Fixpoint independent_from (done wallets : list string) : bool :=
  match wallets with
  | [] => true
  | wallet_data :: rest =>
      forallb (fun r => negb (PyStr.startswith r (key_field wallet_data)))
              (done ++ rest)
      && independent_from (done ++ [wallet_data]) rest
  end.

Definition prefix_independent (wallets : list string) : bool :=
  independent_from [] wallets.

Definition saved (steps : list step) : list (list string) :=
  flat_map (fun s => match s with Save ws => [ws] | _ => [] end) steps.

Definition derivations (steps : list step) : list step :=
  filter (fun s => match s with Derive _ => true | _ => false end) steps.

End GenerateAddress.

(** A ledger whose records all carry their address, and a key library
    that would derive nothing. *)
Definition resolved_world : World :=
  mkWorld (fun _ => ["k1,0xA1"; "k2,0xA2"]) (fun _ _ => Connected)
          None None (fun _ => None) (fun _ _ => None) (fun _ _ => None).

(** A wallet with no tokens, on a token that has no decimals. *)
Definition zero_decimals_world : World :=
  mkWorld (fun _ => ["k1"]) (fun _ _ => Connected)
          (Some "NFT") (Some 0)
          (fun private_key => Some ("0x" ++ private_key))
          (fun _ _ => Some 1500000000000000000)
          (fun _ _ => Some 0).

(** The healthy ledger behind an endpoint that answers from its third
    attempt on. *)
Definition slow_world : World :=
  mkWorld (load_wallets healthy_world)
          (fun _ attempt => if attempt <? 2 then NotConnected else Connected)
          (token_symbol_call healthy_world) (token_decimals_call healthy_world)
          (account_from_key healthy_world)
          (eth_get_balance healthy_world) (token_balanceOf healthy_world).

(** ** choose_name: from a listed file to a ledger name *)

Module ChooseName.

(** [s.replace(old, new)] for a non-empty [old]: occurrences are taken
    from the left and do not overlap; [skip] characters of an occurrence
    just replaced are still to be passed over. *)
Fixpoint replace_from (old new : string) (skip : nat) (s : string) : string :=
  match s with
  | EmptyString => EmptyString
  | String a t =>
      match skip with
      | S k => replace_from old new k t
      | O =>
          if String.prefix old s
          then new ++ replace_from old new (Nat.pred (String.length old)) t
          else String a (replace_from old new 0 t)
      end
  end.

Definition replace (old new s : string) : string := replace_from old new 0 s.

(** [s.endswith(suffix)] *)
Fixpoint endswith (s suffix : string) : bool :=
  String.eqb s suffix
  || match s with
     | EmptyString => false
     | String _ t => endswith t suffix
     end.

(** The value of the menu entry for [file] (line 385). *)
Definition name_of_file (file : string) : string :=
  if PyStr.startswith file "wallets-" && endswith file ".txt"
  then replace ".txt" "" (replace "wallets-" "" file)
  else if endswith file ".txt" then replace ".txt" "" file
  else file.

(** [old] occurs somewhere in [s]. *)
Fixpoint occurs (old s : string) : bool :=
  String.prefix old s
  || match s with
     | EmptyString => false
     | String _ t => occurs old t
     end.

End ChooseName.

(** ** generate_privkey: the keys it appends *)

(** The loop of [generate_privkey] after the count was read: one
    [add_private_key] per created key, in order; each key comes with the
    outcome of its write. *)
Definition append_keys (file : LedgerFile.file_state)
    (keys : list (string * LedgerFile.write_outcome)) : LedgerFile.file_state :=
  fold_left (fun file key =>
               fst (LedgerFile.add_private_key file (fst key) (snd key)))
            keys file.

(** * Properties *)

(** ** Strings *)

Lemma prefix_append (p rest : string) : String.prefix p (p ++ rest) = true.
Proof.
  induction p as [|c p IH]; simpl.
  - destruct rest; reflexivity.
  - destruct (ascii_dec c c) as [_|ne]; [exact IH | now elim ne].
Qed.

(** ** The wallet ledger update *)

Section Update.

Import WalletManager.

Variables private_key address : string.

Lemma fold_append_map (f : string -> string) (ws acc : list string) :
  fold_left (fun u x => (u ++ [f x])%list) ws acc = (acc ++ map f ws)%list.
Proof.
  revert acc; induction ws as [|x ws IH]; intros acc; simpl.
  - now rewrite app_nil_r.
  - rewrite IH, <- app_assoc. reflexivity.
Qed.

Lemma update_as_map (wallets : list string) :
  update_wallet_with_address wallets private_key address
  = map (updated_record private_key address) wallets.
Proof. unfold update_wallet_with_address. now rewrite fold_append_map. Qed.

Lemma updated_record_idem (wallet : string) :
  updated_record private_key address
    (updated_record private_key address wallet)
  = updated_record private_key address wallet.
Proof.
  unfold updated_record.
  destruct (PyStr.startswith wallet private_key) eqn:E.
  - unfold PyStr.startswith. now rewrite prefix_append.
  - now rewrite E.
Qed.

End Update.

(** C2, as the code has it: the output has the length of the input, and
    at every position it holds the input record unchanged when that
    record does not start with the private key, and "privateKey,address"
    when it does - for every such record, not only the first. *)
Theorem update_rewrites_every_match
    (wallets : list string) (private_key address : string) :
  List.length (WalletManager.update_wallet_with_address wallets private_key address)
  = List.length wallets
  /\ forall (i : nat) (wallet : string),
       nth_error wallets i = Some wallet ->
       nth_error (WalletManager.update_wallet_with_address wallets private_key address) i
       = Some (if PyStr.startswith wallet private_key
               then private_key ++ "," ++ address
               else wallet).
Proof.
  rewrite update_as_map. split.
  - apply length_map.
  - intros i wallet H. rewrite nth_error_map, H. reflexivity.
Qed.

Lemma update_rewrites_every_match_witness :
  nth_error (WalletManager.update_wallet_with_address
               ["aa11"; "bb22,0xB"; "aa11,0xOld"] "aa11" "0xA") 2
  = Some "aa11,0xA".
Proof.
  exact (proj2 (update_rewrites_every_match
                  ["aa11"; "bb22,0xB"; "aa11,0xOld"] "aa11" "0xA")
               2%nat "aa11,0xOld" eq_refl).
Defined.

(** C2, as stated, fails: a later record that also matches does not pass
    through unchanged. *)
Lemma update_later_match_rewritten :
  let wallets := ["abc"; "abc"] in
  let updated := WalletManager.update_wallet_with_address wallets "abc" "0xA" in
  nth_error wallets 1 = Some "abc"
  /\ PyStr.startswith "abc" "abc" = true
  /\ updated = ["abc,0xA"; "abc,0xA"]
  /\ nth_error updated 1 <> nth_error wallets 1.
Proof. repeat split; simpl; discriminate. Qed.

(** C7: updateWithAddress is idempotent. *)
Theorem update_idempotent
    (wallets : list string) (private_key address : string) :
  WalletManager.update_wallet_with_address
    (WalletManager.update_wallet_with_address wallets private_key address)
    private_key address
  = WalletManager.update_wallet_with_address wallets private_key address.
Proof.
  rewrite !update_as_map, map_map.
  apply map_ext. intros wallet. apply updated_record_idem.
Qed.

(** ** The selection filter *)

Lemma range_match_both (id rungt runlt : Z) :
  rungt <> 0 -> runlt <> 0 ->
  (range_match id rungt runlt = true <-> rungt < id < runlt).
Proof.
  intros Hg Hl. unfold range_match.
  destruct (Z.eqb_spec rungt 0); [contradiction|].
  destruct (Z.eqb_spec runlt 0); [contradiction|]. simpl.
  rewrite andb_true_iff, !Z.ltb_lt. reflexivity.
Qed.

Lemma range_match_lower (id rungt : Z) :
  rungt <> 0 -> (range_match id rungt 0 = true <-> rungt < id).
Proof.
  intros Hg. unfold range_match.
  destruct (Z.eqb_spec rungt 0); [contradiction|]. simpl.
  rewrite Z.gtb_ltb, Z.ltb_lt. reflexivity.
Qed.

Lemma range_match_upper (id runlt : Z) :
  runlt <> 0 -> (range_match id 0 runlt = true <-> id < runlt).
Proof.
  intros Hl. unfold range_match. simpl.
  destruct (Z.eqb_spec runlt 0); [contradiction|]. simpl.
  apply Z.ltb_lt.
Qed.

Lemma equal_match_list (id : Z) (ids : list Z) :
  equal_match id (EqList ids) = true <-> ids = [] \/ In id ids.
Proof.
  unfold equal_match. destruct ids as [|x xs].
  - simpl. intuition.
  - replace (Z.of_nat (List.length (x :: xs)) =? 0) with false
      by (symmetry; apply Z.eqb_neq; simpl List.length; lia).
    rewrite existsb_exists. split.
    + intros [y [Hy E]]. apply Z.eqb_eq in E. subst y. now right.
    + intros [H|H]; [discriminate|]. exists id. split; [exact H | apply Z.eqb_refl].
Qed.

(** C3: the filter is (range condition) AND (equality condition); with
    both bounds non-zero the range condition is the strict [gt < i < lt],
    with one bound non-zero only that comparison, with none it is true;
    and with an empty equals-set and [gt < lt] both non-zero the filter
    holds exactly when [gt < i < lt]. *)
Theorem is_id_valid_spec (i : Z) (runeq : runeq_t) (gt lt : Z) :
  is_id_valid i runeq gt lt = range_match i gt lt && equal_match i runeq
  /\ (gt <> 0 -> lt <> 0 -> (range_match i gt lt = true <-> gt < i < lt))
  /\ (gt <> 0 -> lt = 0 -> (range_match i gt lt = true <-> gt < i))
  /\ (gt = 0 -> lt <> 0 -> (range_match i gt lt = true <-> i < lt))
  /\ (gt = 0 -> lt = 0 -> range_match i gt lt = true)
  /\ (forall ids, equal_match i (EqList ids) = true <-> ids = [] \/ In i ids)
  /\ (gt < lt -> gt <> 0 -> lt <> 0 ->
      (is_id_valid i (EqList []) gt lt = true <-> gt < i < lt)).
Proof.
  split; [reflexivity|].
  split; [apply range_match_both|].
  split; [intros Hg ->; now apply range_match_lower|].
  split; [intros -> Hl; now apply range_match_upper|].
  split; [intros -> ->; reflexivity|].
  split; [apply equal_match_list|].
  intros _ Hg Hl. unfold is_id_valid. simpl equal_match.
  rewrite andb_true_r. now apply range_match_both.
Qed.

Lemma is_id_valid_spec_witness :
  is_id_valid 5 (EqList []) 2 9 = true /\ is_id_valid 2 (EqList []) 2 9 <> true
  /\ is_id_valid 9 (EqList []) 2 9 <> true.
Proof.
  split; [|split].
  - apply (proj2 (proj2 (proj2 (proj2 (proj2 (proj2
             (is_id_valid_spec 5 (EqList []) 2 9))))))); lia.
  - intros E.
    apply (proj2 (proj2 (proj2 (proj2 (proj2 (proj2
             (is_id_valid_spec 2 (EqList []) 2 9))))))) in E; lia.
  - intros E.
    apply (proj2 (proj2 (proj2 (proj2 (proj2 (proj2
             (is_id_valid_spec 9 (EqList []) 2 9))))))) in E; lia.
Defined.

(** ** The effect monad *)

Lemma bind_trace {A B : Type} (m : M A) (k : A -> M B) :
  trace (bind m k) = (trace m ++ trace (k (fst m)))%list.
Proof. destruct m as [a t]. unfold bind, trace. simpl. now destruct (k a). Qed.

Lemma bind_fst {A B : Type} (m : M A) (k : A -> M B) :
  fst (bind m k) = fst (k (fst m)).
Proof. destruct m as [a t]. unfold bind. simpl. now destruct (k a). Qed.

Lemma count_app (P : event -> bool) (t1 t2 : list event) :
  count P (t1 ++ t2) = (count P t1 + count P t2)%nat.
Proof. unfold count. now rewrite filter_app, length_app. Qed.

Lemma none_of_app (P : event -> bool) (t1 t2 : list event) :
  none_of P (t1 ++ t2) = none_of P t1 && none_of P t2.
Proof. apply forallb_app. Qed.

Lemma none_of_count (P : event -> bool) (t : list event) :
  none_of P t = true -> count P t = 0%nat.
Proof.
  unfold none_of, count. induction t as [|e t IH]; simpl; [reflexivity|].
  intros H. apply andb_true_iff in H as [He Ht].
  destruct (P e); [discriminate|]. now apply IH.
Qed.

(** ** Connecting *)

Section Connect.

Variable w : World.
Variable url : string.
Hypothesis unreachable : forall attempt, is_connected w url attempt <> Connected.

(** Each failed attempt logs one line and, when another attempt follows,
    sleeps; so [remaining] attempts are made, with a cooldown after each
    one that is not the last of the [max_retries]. *)
Lemma attempts_all_fail (max_retries : Z) (remaining : nat) (attempt : Z) :
  attempt + Z.of_nat remaining = max_retries ->
  let r := connection_attempts w url max_retries remaining attempt in
  fst r = None
  /\ count is_attempt (trace r) = remaining
  /\ count is_cooldown (trace r) = Nat.pred remaining
  /\ count is_call (trace r) = (remaining + Nat.pred remaining)%nat
  /\ none_of is_per_wallet (trace r) = true.
Proof.
  revert attempt. induction remaining as [|n IH]; intros attempt Hsum.
  - cbn. repeat split; reflexivity.
  - specialize (IH (attempt + 1) ltac:(lia)). cbn zeta in IH.
    destruct IH as (Hr & Ha & Hc & Hk & Hp).
    cbn zeta. cbn [connection_attempts].
    set (rest := connection_attempts w url max_retries n (attempt + 1)) in *.
    pose proof (unreachable attempt) as Hne.
    destruct rest as [res tr] eqn:Erest. unfold trace in *. simpl in Hr, Ha, Hc, Hk, Hp.
    destruct (Z.ltb_spec attempt (max_retries - 1)) as [Hlt|Hge].
    + destruct n as [|n']; [lia|].
      destruct (is_connected w url attempt); [contradiction| |];
        cbn; unfold count, none_of in *; cbn;
        rewrite Ha, Hc, Hk; repeat split; try assumption; try reflexivity; lia.
    + destruct n as [|n']; [|lia].
      destruct (is_connected w url attempt); [contradiction| |];
        cbn; unfold count, none_of in *; cbn;
        rewrite ?Ha, ?Hc, ?Hk; repeat split; try assumption; reflexivity.
Qed.

End Connect.

(** C4: against an endpoint on which every attempt fails (liveness check
    false, or an exception, which is caught), connecting with three
    retries makes exactly three attempts, sleeps the 2-unit cooldown
    after the first and the second but not after the third, and returns
    no connection; a run on that endpoint makes no balance call. *)
Theorem connect_unreachable (w : World) (url : string) :
  (forall attempt, is_connected w url attempt <> Connected) ->
  let c := get_web3_connection w url 3 in
  fst c = None
  /\ (exists l0 m0 l1 m1 l2 m2,
        trace c = [ EvConnect url 0; EvLog l0 m0; EvSleep 2;
                    EvConnect url 1; EvLog l1 m1; EvSleep 2;
                    EvConnect url 2; EvLog l2 m2;
                    EvLog ERROR (MsgCannotConnect url 3) ])
  /\ calls (trace c)
     = [EvConnect url 0; EvSleep 2; EvConnect url 1; EvSleep 2; EvConnect url 2]
  /\ count is_attempt (trace c) = 3%nat
  /\ count is_cooldown (trace c) = 2%nat
  /\ forall name runeq rungt runlt network config,
       lookup_network network NETWORK_CONFIG = Some config ->
       native_url config = url ->
       none_of is_balance_call
         (trace (generate_network_balance w name runeq rungt runlt network))
       = true.
Proof.
  intros Hdown c.
  assert (Hshape : fst c = None /\ exists l0 m0 l1 m1 l2 m2,
             trace c = [ EvConnect url 0; EvLog l0 m0; EvSleep 2;
                         EvConnect url 1; EvLog l1 m1; EvSleep 2;
                         EvConnect url 2; EvLog l2 m2;
                         EvLog ERROR (MsgCannotConnect url 3) ]).
  { subst c. unfold get_web3_connection.
    change (Z.to_nat 3) with 3%nat. cbn [connection_attempts].
    change (0 + 1) with 1. change (1 + 1) with 2.
    pose proof (Hdown 0) as H0. pose proof (Hdown 1) as H1.
    pose proof (Hdown 2) as H2.
    destruct (is_connected w url 0); [contradiction| |];
      destruct (is_connected w url 1); try contradiction;
      destruct (is_connected w url 2); try contradiction;
      cbn; (split; [reflexivity|]); do 6 eexists; reflexivity. }
  destruct Hshape as (Hnone & l0 & m0 & l1 & m1 & l2 & m2 & Htrace).
  split; [exact Hnone|].
  split; [now exists l0, m0, l1, m1, l2, m2|].
  rewrite Htrace.
  split; [reflexivity|]. split; [reflexivity|]. split; [reflexivity|].
  intros name runeq rungt runlt network config Hcfg Hurl.
  unfold generate_network_balance.
  destruct (load_wallets w name); [reflexivity|].
  rewrite Hcfg, Hurl. fold c.
  destruct c as [r t]. simpl in Hnone, Htrace. subst r t. reflexivity.
Qed.

Lemma connect_unreachable_witness :
  fst (get_web3_connection unreachable_world "https://eth.drpc.org" 3) = None
  /\ none_of is_balance_call
       (trace (generate_network_balance unreachable_world "" (EqList []) 0 0 "eth"))
     = true.
Proof.
  assert (Hdown : forall attempt,
             is_connected unreachable_world "https://eth.drpc.org" attempt
             <> Connected) by (intros attempt; discriminate).
  pose proof (connect_unreachable unreachable_world "https://eth.drpc.org" Hdown)
    as (Hnone & _ & _ & _ & _ & Hrun).
  split; [exact Hnone|].
  refine (Hrun "" (EqList []) 0 0 "eth" _ eq_refl eq_refl).
Defined.

(** ** The batch run *)

Lemma setup_excludes (t : list event) (P : event -> bool) :
  (forall e, is_setup e = true -> P e = false) ->
  forallb is_setup t = true -> none_of P t = true.
Proof.
  intros HP. unfold none_of. induction t as [|e t IH]; simpl; [reflexivity|].
  intros H. apply andb_true_iff in H as [He Ht].
  rewrite (HP e He). now apply IH.
Qed.

Lemma setup_not_per_wallet (e : event) : is_setup e = true -> is_per_wallet e = false.
Proof. destruct e as [| | | | | | | |l m]; try destruct m; simpl; congruence. Qed.

Lemma setup_not_summary (e : event) : is_setup e = true -> is_summary e = false.
Proof. destruct e as [| | | | | | | |l m]; try destruct m; simpl; congruence. Qed.

Lemma connection_attempts_setup (w : World) (url : string) (max_retries : Z)
    (remaining : nat) (attempt : Z) :
  forallb is_setup
    (trace (connection_attempts w url max_retries remaining attempt)) = true.
Proof.
  revert attempt. induction remaining as [|n IH]; intros attempt; [reflexivity|].
  cbn [connection_attempts]. specialize (IH (attempt + 1)).
  destruct (connection_attempts w url max_retries n (attempt + 1)) as [r t].
  unfold trace in IH. simpl in IH.
  destruct (is_connected w url attempt), (attempt <? max_retries - 1);
    cbn; try rewrite IH; reflexivity.
Qed.

Lemma token_metadata_setup (w : World) :
  forallb is_setup (trace (token_metadata w)) = true.
Proof.
  unfold token_metadata.
  destruct (token_symbol_call w), (token_decimals_call w); reflexivity.
Qed.

Arguments format_token_amount : simpl never.

Lemma setup_not_pacing (e : event) : is_setup e = true -> is_pacing_sleep e = false.
Proof. destruct e; simpl; congruence. Qed.

Section Loop.

Variable w : World.
Variable config : network_profile.
Variable token_symbol : string.
Variable token_decimals : Z.
Variable runeq : runeq_t.
Variables rungt runlt : Z.

Local Abbreviation body :=
  (loop_body w config token_symbol token_decimals runeq rungt runlt).
Local Abbreviation loop :=
  (balance_loop w config token_symbol token_decimals runeq rungt runlt).
Local Abbreviation valid := (fun idx : Z => is_id_valid idx runeq rungt runlt).
Local Abbreviation events_of :=
  (body_events w config token_symbol token_decimals runeq rungt runlt).

Ltac open_body :=
  unfold loop_body, get_address_by_key, query_balances, falsy, trace;
  repeat match goal with
         | |- context [negb (is_id_valid ?i ?e ?g ?l)] =>
             destruct (is_id_valid i e g l) eqn:?
         | |- context [account_from_key ?w ?k] =>
             destruct (account_from_key w k) as [[|? ?]|] eqn:?
         | |- context [eth_get_balance ?w ?i ?a] =>
             destruct (eth_get_balance w i a) eqn:?
         | |- context [token_balanceOf ?w ?i ?a] =>
             destruct (token_balanceOf w i a) eqn:?
         | |- context [format_token_amount ?a ?d] =>
             destruct (format_token_amount a d) eqn:?
         | _ => progress cbn
         end.

Lemma body_count (idx : Z) (wallet_data : string) (c : Z) :
  fst (body idx wallet_data c) = c + (if valid idx then 1 else 0).
Proof. open_body; lia. Qed.

Lemma body_trace_any_count (idx : Z) (wallet_data : string) (c : Z) :
  trace (body idx wallet_data c) = events_of (idx, wallet_data).
Proof. unfold body_events. simpl fst; simpl snd. open_body; reflexivity. Qed.

Lemma body_no_summary (idx : Z) (wallet_data : string) (c : Z) :
  none_of is_summary (trace (body idx wallet_data c)) = true.
Proof. open_body; reflexivity. Qed.

Lemma body_excluded (idx : Z) (wallet_data : string) (c : Z) :
  valid idx = false -> trace (body idx wallet_data c) = [].
Proof. intros H. unfold body, loop_body. now rewrite H. Qed.

(** A record that passes the filter has its address derived first. *)
Lemma body_derives (idx : Z) (wallet_data : string) (c : Z) :
  valid idx = true ->
  exists t, trace (body idx wallet_data c) = EvFromKey (key_field wallet_data) :: t.
Proof.
  intros H. unfold body, loop_body. rewrite H.
  open_body; eexists; reflexivity.
Qed.

(** Without an address the iteration stops at its [continue]: no balance
    call and no pacing sleep. *)
Lemma body_no_address (idx : Z) (wallet_data : string) (c : Z) :
  valid idx = true ->
  falsy (account_from_key w (key_field wallet_data)) = true ->
  exists l,
    trace (body idx wallet_data c)
    = (EvFromKey (key_field wallet_data) :: l
       ++ [EvLog ERROR (MsgNoAddress idx (key_field wallet_data))])%list
    /\ forallb (fun e => negb (is_call e)) l = true.
Proof.
  unfold falsy. intros H Hf. unfold loop_body, get_address_by_key, falsy.
  rewrite H.
  destruct (account_from_key w (key_field wallet_data)) as [[|ch a]|];
    try discriminate; cbn.
  - exists []. split; reflexivity.
  - exists [EvLog ERROR MsgFromKeyFailed]. split; reflexivity.
Qed.

(** With an address the iteration asks for the native balance and ends
    with its one pacing sleep, whatever the two queries did. *)
Lemma body_with_address (idx : Z) (wallet_data : string) (c : Z) :
  valid idx = true ->
  falsy (account_from_key w (key_field wallet_data)) = false ->
  exists address t,
    account_from_key w (key_field wallet_data) = Some address
    /\ trace (body idx wallet_data c)
       = (EvFromKey (key_field wallet_data) :: EvGetBalance address :: t
          ++ [EvSleepUniform 1 3])%list
    /\ none_of is_pacing_sleep t = true.
Proof.
  unfold falsy. intros H Hf.
  destruct (account_from_key w (key_field wallet_data)) as [a|] eqn:Ea;
    [|discriminate].
  exists a.
  unfold loop_body, get_address_by_key, query_balances, falsy.
  rewrite H, Ea. cbn. rewrite Hf.
  destruct (eth_get_balance w idx a) as [raw_native|]; cbn;
    [destruct (format_token_amount raw_native _) as [shown_native|]; cbn;
     [destruct (token_balanceOf w idx a) as [raw_token|]; cbn;
      [destruct (format_token_amount raw_token _) as [shown_token|]; cbn|]|]|].
  - exists [EvBalanceOf a;
            EvLog INFO (MsgBalance idx a shown_native (native_symbol config)
                                   shown_token token_symbol)].
    repeat split.
  - exists [EvBalanceOf a; EvLog ERROR (MsgQueryFailed idx)]. repeat split.
  - exists [EvBalanceOf a; EvLog ERROR (MsgQueryFailed idx)]. repeat split.
  - exists [EvLog ERROR (MsgQueryFailed idx)]. repeat split.
  - exists [EvLog ERROR (MsgQueryFailed idx)]. repeat split.
Qed.

Lemma loop_trace (wallets : list string) (pos c : Z) :
  trace (loop wallets pos c) = flat_map events_of (enumerate_from pos wallets).
Proof.
  revert pos c. induction wallets as [|wallet_data rest IH]; intros pos c.
  - reflexivity.
  - cbn [balance_loop enumerate_from flat_map].
    rewrite bind_trace, body_trace_any_count, IH. reflexivity.
Qed.

Lemma loop_count (wallets : list string) (p : nat) (c : Z) :
  fst (loop wallets (Z.of_nat p) c)
  = c + Z.of_nat (List.length (filter valid
                                 (map Z.of_nat (seq (S p) (List.length wallets))))).
Proof.
  revert p c. induction wallets as [|wallet_data rest IH]; intros p c.
  - simpl. lia.
  - cbn [balance_loop]. rewrite bind_fst, body_count.
    replace (Z.of_nat p + 1) with (Z.of_nat (S p)) by lia.
    rewrite IH. cbn [List.length seq map filter].
    destruct (is_id_valid (Z.of_nat (S p)) runeq rungt runlt);
      cbn [List.length]; lia.
Qed.

(** Pacing sleeps of the whole loop: one per record that passes the
    filter and has an address. *)
Lemma loop_pacing (wallets : list string) (pos : Z) :
  count is_pacing_sleep (flat_map events_of (enumerate_from pos wallets))
  = List.length
      (filter (fun r => valid (fst r)
                        && negb (falsy (account_from_key w (key_field (snd r)))))
              (enumerate_from pos wallets)).
Proof.
  revert pos. induction wallets as [|wallet_data rest IH]; intros pos.
  - reflexivity.
  - cbn [enumerate_from flat_map filter fst snd].
    rewrite count_app, IH.
    rewrite <- (body_trace_any_count (pos + 1) wallet_data 0).
    destruct (is_id_valid (pos + 1) runeq rungt runlt) eqn:Hv.
    + destruct (falsy (account_from_key w (key_field wallet_data))) eqn:Hf.
      * destruct (body_no_address (pos + 1) wallet_data 0 Hv Hf) as (l & -> & Hl).
        cbn [andb negb].
        replace (count is_pacing_sleep _) with 0%nat; [reflexivity|].
        symmetry. apply none_of_count. unfold none_of.
        cbn [forallb is_pacing_sleep negb andb]. rewrite forallb_app.
        cbn [forallb is_pacing_sleep negb andb]. rewrite andb_true_r.
        apply forallb_forall. intros e He.
        rewrite forallb_forall in Hl. specialize (Hl e He).
        destruct e; simpl in *; congruence.
      * destruct (body_with_address (pos + 1) wallet_data 0 Hv Hf)
          as (a & t & _ & -> & Ht).
        cbn [andb negb List.length].
        change (EvFromKey (key_field wallet_data) :: EvGetBalance a
                  :: t ++ [EvSleepUniform 1 3])%list
          with ([EvFromKey (key_field wallet_data); EvGetBalance a]
                  ++ t ++ [EvSleepUniform 1 3])%list.
        rewrite !count_app, (none_of_count _ _ Ht). reflexivity.
    + rewrite (body_excluded _ _ _ Hv). reflexivity.
Qed.

Lemma loop_no_summary (wallets : list string) (pos : Z) :
  none_of is_summary (flat_map events_of (enumerate_from pos wallets)) = true.
Proof.
  revert pos. induction wallets as [|wallet_data rest IH]; intros pos.
  - reflexivity.
  - cbn [enumerate_from flat_map]. rewrite none_of_app, IH, andb_true_r.
    rewrite <- (body_trace_any_count (pos + 1) wallet_data 0).
    apply body_no_summary.
Qed.

End Loop.


Lemma enumerate_from_nth (wallets : list string) (pos : Z) (i : nat)
    (wallet_data : string) :
  nth_error wallets i = Some wallet_data ->
  In (pos + Z.of_nat i + 1, wallet_data) (enumerate_from pos wallets).
Proof.
  revert pos i. induction wallets as [|x rest IH]; intros pos i H.
  - destruct i; discriminate.
  - destruct i as [|i]; simpl in H.
    + injection H as ->. left. f_equal. lia.
    + right. replace (pos + Z.of_nat (S i) + 1) with (pos + 1 + Z.of_nat i + 1) by lia.
      now apply IH.
Qed.

Section Run.

Variable w : World.
Variable name : string.
Variable runeq : runeq_t.
Variables rungt runlt : Z.
Variable network : string.
Variable config : network_profile.
Hypothesis supported : lookup_network network NETWORK_CONFIG = Some config.
Hypothesis ledger : load_wallets w name <> [].

Local Abbreviation run :=
  (generate_network_balance w name runeq rungt runlt network).
Local Abbreviation conn := (get_web3_connection w (native_url config) 3).

Lemma run_connection_failed :
  fst conn = None ->
  trace run
  = (trace conn
     ++ [EvLog ERROR (MsgNetworkUnreachable network (native_url config))])%list.
Proof.
  intros Hc. unfold generate_network_balance.
  destruct (load_wallets w name) as [|x rest]; [now elim ledger|].
  rewrite supported, bind_trace, Hc. reflexivity.
Qed.

Lemma run_metadata_failed :
  fst conn <> None -> fst (token_metadata w) = None ->
  trace run
  = (trace conn ++ trace (token_metadata w)
     ++ [EvLog ERROR MsgTokenInfoFailed])%list.
Proof.
  intros Hc Hm. unfold generate_network_balance.
  destruct (load_wallets w name) as [|x rest]; [now elim ledger|].
  rewrite supported, bind_trace.
  destruct (fst conn) as [web3|]; [|now elim Hc].
  rewrite bind_trace, Hm. reflexivity.
Qed.

Lemma run_completed (token_symbol : string) (token_decimals : Z) :
  fst conn <> None ->
  fst (token_metadata w) = Some (token_symbol, token_decimals) ->
  trace run
  = (trace conn ++ trace (token_metadata w)
     ++ flat_map (body_events w config token_symbol token_decimals
                              runeq rungt runlt)
                 (enumerate_from 0 (load_wallets w name))
     ++ [EvLog SUCCESS
           (MsgSummary
              (Z.of_nat (List.length
                           (matching_indices runeq rungt runlt
                              (List.length (load_wallets w name)))))
              (native_name config) network)])%list.
Proof.
  intros Hc Hm. unfold generate_network_balance.
  destruct (load_wallets w name) as [|x rest] eqn:Ew; [now elim ledger|].
  rewrite supported, bind_trace.
  destruct (fst conn) as [web3|]; [|now elim Hc].
  rewrite bind_trace, Hm, bind_trace, loop_trace.
  change 0 with (Z.of_nat 0) at 2. rewrite loop_count.
  reflexivity.
Qed.

Lemma run_setup_only :
  fst conn = None \/ fst (token_metadata w) = None ->
  none_of is_per_wallet (trace run) = true
  /\ none_of is_summary (trace run) = true.
Proof.
  intros H.
  pose proof (connection_attempts_setup w (native_url config) 3 (Z.to_nat 3) 0)
    as Sc.
  pose proof (token_metadata_setup w) as Sm.
  destruct (fst conn) as [web3|] eqn:Ec.
  - destruct H as [H|H]; [discriminate|].
    rewrite run_metadata_failed by (congruence || assumption).
    rewrite !none_of_app.
    rewrite !(setup_excludes _ _ setup_not_per_wallet) by assumption.
    rewrite !(setup_excludes _ _ setup_not_summary) by assumption.
    split; reflexivity.
  - rewrite run_connection_failed by assumption.
    rewrite !none_of_app.
    rewrite !(setup_excludes _ _ setup_not_per_wallet) by assumption.
    rewrite !(setup_excludes _ _ setup_not_summary) by assumption.
    split; reflexivity.
Qed.

End Run.

(** C5: on a supported network with a non-empty ledger, a connection
    failure or a metadata failure ends the run with setup events only (no
    derivation, no balance call, no pacing sleep, no summary); once both
    have succeeded the run is the setup, then the events of every record
    in ledger order, then the summary - so every record that passes the
    filter has its address derived, and its native balance asked for when
    it has one, whatever happened to the records before it. *)
Theorem failure_semantics (w : World) (name : string) (runeq : runeq_t)
    (rungt runlt : Z) (network : string) (config : network_profile) :
  lookup_network network NETWORK_CONFIG = Some config ->
  load_wallets w name <> [] ->
  let run := trace (generate_network_balance w name runeq rungt runlt network) in
  let conn := get_web3_connection w (native_url config) 3 in
  (fst conn = None \/ fst (token_metadata w) = None ->
   none_of is_per_wallet run = true /\ none_of is_summary run = true)
  /\ forall token_symbol token_decimals,
       fst conn <> None ->
       fst (token_metadata w) = Some (token_symbol, token_decimals) ->
       (exists setup summary,
          forallb is_setup setup = true
          /\ run = (setup
                    ++ flat_map (body_events w config token_symbol token_decimals
                                             runeq rungt runlt)
                                (enumerate_from 0 (load_wallets w name))
                    ++ [EvLog SUCCESS summary])%list)
       /\ forall (i : nat) (wallet_data : string),
            nth_error (load_wallets w name) i = Some wallet_data ->
            is_id_valid (Z.of_nat i + 1) runeq rungt runlt = true ->
            In (EvFromKey (key_field wallet_data)) run
            /\ forall address,
                 account_from_key w (key_field wallet_data) = Some address ->
                 address <> "" ->
                 In (EvGetBalance address) run.
Proof.
  intros Hcfg Hled run conn. split.
  - now apply run_setup_only.
  - intros token_symbol token_decimals Hc Hm.
    pose proof (run_completed w name runeq rungt runlt network config
                  Hcfg Hled token_symbol token_decimals Hc Hm) as Hrun.
    fold run conn in Hrun. split.
    + eexists (trace conn ++ trace (token_metadata w))%list, _. split.
      * rewrite forallb_app. unfold conn, get_web3_connection.
        now rewrite connection_attempts_setup, token_metadata_setup.
      * rewrite Hrun, <- app_assoc. reflexivity.
    + intros i wallet_data Hnth Hvalid.
      pose proof (enumerate_from_nth _ 0 _ _ Hnth) as Hin.
      change (0 + Z.of_nat i + 1) with (Z.of_nat i + 1) in Hin.
      assert (Hbody : forall e,
                 In e (body_events w config token_symbol token_decimals
                                   runeq rungt runlt
                                   (Z.of_nat i + 1, wallet_data)) ->
                 In e run).
      { intros e He. rewrite Hrun. apply in_or_app. right.
        apply in_or_app. right. apply in_or_app. left.
        apply in_flat_map. eexists. split; [exact Hin|exact He]. }
      split.
      * apply Hbody. unfold body_events. cbn [fst snd].
        destruct (body_derives w config token_symbol token_decimals
                    runeq rungt runlt _ wallet_data 0 Hvalid) as [t ->].
        now left.
      * intros address Ha Hne. apply Hbody. unfold body_events. cbn [fst snd].
        assert (Hf : falsy (account_from_key w (key_field wallet_data)) = false).
        { rewrite Ha. simpl. now apply String.eqb_neq. }
        destruct (body_with_address w config token_symbol token_decimals
                    runeq rungt runlt _ wallet_data 0 Hvalid Hf)
          as (a & t & Ea & -> & _).
        rewrite Ha in Ea. injection Ea as <-. right. now left.
Qed.

Lemma failure_semantics_witness :
  none_of is_per_wallet
    (trace (generate_network_balance no_metadata_world "" (EqList []) 0 0 "bsc"))
  = true
  /\ In (EvGetBalance "0xk3")
        (trace (generate_network_balance flaky_world "" (EqList []) 0 0 "bsc")).
Proof.
  split.
  - refine (proj1 (proj1 (failure_semantics no_metadata_world "" (EqList []) 0 0
                            "bsc" _ eq_refl _) _)).
    + discriminate.
    + right. reflexivity.
  - refine (proj2 (proj2 (proj2 (failure_semantics flaky_world "" (EqList []) 0 0
                                   "bsc" _ eq_refl _) "USDT" 6 _ eq_refl)
                         2%nat "k3" eq_refl eq_refl) "0xk3" eq_refl _);
      discriminate.
Defined.

(** C8, as the code has it: in a run that reaches the loop, the number of
    pacing sleeps equals the number of records that pass the filter and
    whose key yields an address; each such record's events end with its
    one sleep (so also the last record's), and a record that is filtered
    out or has no address causes none. *)
Theorem pacing_sleep_per_queried_wallet (w : World) (name : string)
    (runeq : runeq_t) (rungt runlt : Z) (network : string)
    (config : network_profile) (token_symbol : string) (token_decimals : Z) :
  lookup_network network NETWORK_CONFIG = Some config ->
  load_wallets w name <> [] ->
  fst (get_web3_connection w (native_url config) 3) <> None ->
  fst (token_metadata w) = Some (token_symbol, token_decimals) ->
  let events_of :=
    body_events w config token_symbol token_decimals runeq rungt runlt in
  count is_pacing_sleep
    (trace (generate_network_balance w name runeq rungt runlt network))
  = List.length (queried_records w runeq rungt runlt (load_wallets w name))
  /\ forall r : Z * string,
       if is_id_valid (fst r) runeq rungt runlt
          && negb (falsy (account_from_key w (key_field (snd r))))
       then exists t, events_of r = (t ++ [EvSleepUniform 1 3])%list
                      /\ none_of is_pacing_sleep t = true
       else none_of is_pacing_sleep (events_of r) = true.
Proof.
  intros Hcfg Hled Hc Hm events_of. split.
  - rewrite (run_completed w name runeq rungt runlt network config
               Hcfg Hled token_symbol token_decimals Hc Hm).
    rewrite !count_app, loop_pacing.
    rewrite (none_of_count is_pacing_sleep (trace (get_web3_connection _ _ _))).
    2:{ apply (setup_excludes _ is_pacing_sleep).
        - apply setup_not_pacing.
        - apply connection_attempts_setup. }
    rewrite (none_of_count is_pacing_sleep (trace (token_metadata w))).
    2:{ apply (setup_excludes _ is_pacing_sleep).
        - apply setup_not_pacing.
        - apply token_metadata_setup. }
    unfold queried_records. cbn. lia.
  - intros [idx wallet_data]. cbn [fst snd]. subst events_of.
    unfold body_events. cbn [fst snd].
    destruct (is_id_valid idx runeq rungt runlt) eqn:Hv.
    + destruct (falsy (account_from_key w (key_field wallet_data))) eqn:Hf;
        cbn [andb negb].
      * destruct (body_no_address w config token_symbol token_decimals
                    runeq rungt runlt idx wallet_data 0 Hv Hf) as (l & -> & Hl).
        unfold none_of. cbn [forallb is_pacing_sleep negb andb].
        rewrite forallb_app. cbn [forallb is_pacing_sleep negb andb].
        rewrite andb_true_r. apply forallb_forall. intros e He.
        rewrite forallb_forall in Hl. specialize (Hl e He).
        destruct e; simpl in *; congruence.
      * destruct (body_with_address w config token_symbol token_decimals
                    runeq rungt runlt idx wallet_data 0 Hv Hf)
          as (a & t & _ & -> & Ht).
        exists (EvFromKey (key_field wallet_data) :: EvGetBalance a :: t).
        split; [reflexivity|]. exact Ht.
    + cbn [andb].
      now rewrite (body_excluded w config token_symbol token_decimals
                     runeq rungt runlt idx wallet_data 0 Hv).
Qed.

Lemma pacing_sleep_per_queried_wallet_witness :
  count is_pacing_sleep
    (trace (generate_network_balance flaky_world "" (EqList []) 0 0 "eth"))
  = 2%nat.
Proof.
  refine (proj1 (pacing_sleep_per_queried_wallet flaky_world "" (EqList []) 0 0
                   "eth" _ "USDT" 6 eq_refl _ _ eq_refl)); discriminate.
Defined.

(** C8, as stated, fails: a record that passes the filter but whose
    address derivation fails is followed by no pacing sleep. *)
Lemma no_pacing_sleep_without_address :
  let wallets := load_wallets bad_key_world "" in
  let run := trace (generate_network_balance bad_key_world "" (EqList []) 0 0 "eth") in
  matching_indices (EqList []) 0 0 (List.length wallets) = [1]
  /\ run = [ EvConnect "https://eth.drpc.org" 0;
             EvLog INFO (MsgConnected "https://eth.drpc.org");
             EvTokenSymbol; EvTokenDecimals;
             EvFromKey "not-a-key"; EvLog ERROR MsgFromKeyFailed;
             EvLog ERROR (MsgNoAddress 1 "not-a-key");
             EvLog SUCCESS (MsgSummary 1 "Ethereum" "eth") ]
  /\ count is_pacing_sleep run = 0%nat.
Proof. repeat split. Qed.

(** C9: a run that reaches the loop ends with the one summary line, and
    the count it reports is the number of 1-based indices of the ledger
    that pass the filter (whether or not their derivation or queries
    succeed); no run reports any other count. *)
Theorem summary_counts_matching_indices (w : World) (name : string)
    (runeq : runeq_t) (rungt runlt : Z) (network : string) :
  let run := trace (generate_network_balance w name runeq rungt runlt network) in
  let n := Z.of_nat (List.length
                       (matching_indices runeq rungt runlt
                          (List.length (load_wallets w name)))) in
  (forall config token_symbol token_decimals,
     lookup_network network NETWORK_CONFIG = Some config ->
     load_wallets w name <> [] ->
     fst (get_web3_connection w (native_url config) 3) <> None ->
     fst (token_metadata w) = Some (token_symbol, token_decimals) ->
     exists before,
       run = (before ++ [EvLog SUCCESS (MsgSummary n (native_name config) network)])%list
       /\ none_of is_summary before = true)
  /\ forall l c nm nw, In (EvLog l (MsgSummary c nm nw)) run -> c = n.
Proof.
  intros run n.
  assert (Hdone : forall config token_symbol token_decimals,
     lookup_network network NETWORK_CONFIG = Some config ->
     load_wallets w name <> [] ->
     fst (get_web3_connection w (native_url config) 3) <> None ->
     fst (token_metadata w) = Some (token_symbol, token_decimals) ->
     exists before,
       run = (before ++ [EvLog SUCCESS (MsgSummary n (native_name config) network)])%list
       /\ none_of is_summary before = true).
  { intros config token_symbol token_decimals Hcfg Hled Hc Hm.
    eexists. split.
    - subst run.
      rewrite (run_completed w name runeq rungt runlt network config
                 Hcfg Hled token_symbol token_decimals Hc Hm).
      rewrite !app_assoc. reflexivity.
    - rewrite !none_of_app, loop_no_summary.
      rewrite !(setup_excludes _ _ setup_not_summary);
        [reflexivity | apply token_metadata_setup
         | apply connection_attempts_setup]. }
  split; [exact Hdone|].
  assert (Hnone : forall t e, none_of is_summary t = true -> In e t ->
                              is_summary e = false).
  { intros t e Ht He. unfold none_of in Ht. rewrite forallb_forall in Ht.
    specialize (Ht e He). now destruct (is_summary e). }
  intros l c nm nw Hin.
  destruct (load_wallets w name) as [|x rest] eqn:Ew.
  { subst run. unfold generate_network_balance in Hin. rewrite Ew in Hin.
    destruct Hin as [H|[]]; discriminate. }
  destruct (lookup_network network NETWORK_CONFIG) as [config|] eqn:Hcfg.
  2:{ subst run. unfold generate_network_balance in Hin. rewrite Ew, Hcfg in Hin.
      destruct Hin as [H|[]]; discriminate. }
  assert (Hled : load_wallets w name <> []) by (rewrite Ew; discriminate).
  destruct (fst (get_web3_connection w (native_url config) 3)) as [web3|] eqn:Ec.
  - destruct (fst (token_metadata w)) as [[token_symbol token_decimals]|] eqn:Em.
    + destruct (Hdone config token_symbol token_decimals eq_refl)
        as (before & Hrun & Hb); try congruence.
      rewrite Hrun in Hin. apply in_app_or in Hin as [Hin|[Hin|[]]].
      * apply (Hnone _ _ Hb) in Hin. discriminate.
      * now injection Hin.
    + destruct (run_setup_only w name runeq rungt runlt network config Hcfg Hled)
        as [_ Hs]; [now right|].
      apply (Hnone _ _ Hs) in Hin. discriminate.
  - destruct (run_setup_only w name runeq rungt runlt network config Hcfg Hled)
      as [_ Hs]; [now left|].
    apply (Hnone _ _ Hs) in Hin. discriminate.
Qed.

Lemma summary_counts_matching_indices_witness :
  exists before,
    trace (generate_network_balance flaky_world "" (EqList [2; 3; 7]) 0 0 "base")
    = (before ++ [EvLog SUCCESS (MsgSummary 2 "Base" "base")])%list
    /\ none_of is_summary before = true.
Proof.
  refine (proj1 (summary_counts_matching_indices flaky_world "" (EqList [2; 3; 7])
                   0 0 "base") _ "USDT" 6 eq_refl _ _ eq_refl); discriminate.
Defined.

(** ** Strings, continued *)

Section Rstrip.

Import PyStr.

Variable c : ascii.

Lemma rstrip_cons (a : ascii) (t : string) :
  Ascii.eqb a c = false -> rstrip c (String a t) = String a (rstrip c t).
Proof. intros H. simpl. rewrite H. now destruct (rstrip c t). Qed.

Lemma rstrip_all_chars (P : ascii -> bool) (s : string) :
  all_chars P s = true -> all_chars P (rstrip c s) = true.
Proof.
  induction s as [|a t IH]; simpl; [reflexivity|].
  intros H. apply andb_true_iff in H as [Ha Ht]. specialize (IH Ht).
  destruct (rstrip c t) as [|b u].
  - destruct (Ascii.eqb a c); simpl; [reflexivity | now rewrite Ha].
  - simpl in IH |- *. now rewrite Ha.
Qed.

Lemma rstrip_not_ending (s : string) : ends_with_char c (rstrip c s) = false.
Proof.
  induction s as [|a t IH]; simpl; [reflexivity|].
  destruct (rstrip c t) as [|b u] eqn:E.
  - destruct (Ascii.eqb a c) eqn:Ea; simpl; [reflexivity | exact Ea].
  - exact IH.
Qed.

Lemma rstrip_fixed (s : string) :
  all_chars (fun a => negb (Ascii.eqb a c)) s = true -> rstrip c s = s.
Proof.
  induction s as [|a t IH]; simpl; [reflexivity|].
  intros H. apply andb_true_iff in H as [Ha Ht]. rewrite (IH Ht).
  apply negb_true_iff in Ha. rewrite Ha. now destruct t.
Qed.

(** [rstrip] removes a run of [c] from the end and nothing else. *)
Lemma rstrip_decompose (s : string) :
  exists k : nat, s = rstrip c s ++ string_of_list_ascii (List.repeat c k).
Proof.
  induction s as [|a t [k IH]].
  - now exists 0%nat.
  - simpl. destruct (rstrip c t) as [|b u] eqn:E.
    + destruct (Ascii.eqb_spec a c) as [->|ne].
      * exists (S k). simpl. simpl in IH. now rewrite <- IH.
      * exists k. simpl. simpl in IH. now rewrite <- IH.
    + exists k. simpl. f_equal. exact IH.
Qed.

Lemma ends_with_char_append (s : string) :
  ends_with_char c (s ++ String c "") = true.
Proof.
  induction s as [|a t IH]; simpl; [apply Ascii.eqb_refl|].
  destruct (t ++ String c "") eqn:E; [now destruct t|]. exact IH.
Qed.

End Rstrip.

Lemma all_chars_append (P : ascii -> bool) (s t : string) :
  PyStr.all_chars P (s ++ t) = PyStr.all_chars P s && PyStr.all_chars P t.
Proof.
  induction s as [|a s IH]; simpl; [reflexivity|].
  now rewrite IH, andb_assoc.
Qed.

Lemma all_chars_weaken (P Q : ascii -> bool) (s : string) :
  (forall a, P a = true -> Q a = true) ->
  PyStr.all_chars P s = true -> PyStr.all_chars Q s = true.
Proof.
  intros PQ. induction s as [|a s IH]; simpl; [reflexivity|].
  intros H. apply andb_true_iff in H as [Ha Hs].
  now rewrite (PQ a Ha), IH.
Qed.

(** ** Decimal digits *)

Section Digits.

Import PyFloat.

Lemma digit_facts (c : ascii) :
  is_digit c = true ->
  Ascii.eqb c "." = false
  /\ Ascii.eqb c "-" = false
  /\ exists v, digit_value c = Some v /\ 0 <= v <= 9
               /\ (Ascii.eqb c "0" = false -> 1 <= v).
Proof.
  destruct c as [[] [] [] [] [] [] [] []]; try discriminate; intros _;
    (split; [reflexivity|]); (split; [reflexivity|]);
    eexists; (split; [cbv; reflexivity|]); (split; [lia|]);
    intros H; solve [discriminate H | lia].
Qed.

Lemma digit_char_is_digit (n : Z) : is_digit (digit_char n) = true.
Proof.
  destruct n as [|p|p]; try reflexivity.
  do 4 (try (destruct p as [p|p|]; try reflexivity)).
Qed.

Lemma digit_char_nonzero (n : Z) : n <> 0 -> Ascii.eqb (digit_char n) "0" = false.
Proof.
  destruct n as [|p|p]; intros H; try reflexivity; [now elim H|].
  do 4 (try (destruct p as [p|p|]; try reflexivity)).
Qed.

Lemma digit_char_zero : digit_char 0 = "0"%char.
Proof. reflexivity. Qed.

Lemma dec_fuel_digits (fuel : nat) (n : Z) :
  PyStr.all_chars is_digit (dec_fuel fuel n) = true.
Proof.
  revert n. induction fuel as [|f IH]; intros n; simpl; [reflexivity|].
  destruct (n <? 10); simpl.
  - now rewrite digit_char_is_digit.
  - rewrite all_chars_append, IH. simpl. now rewrite digit_char_is_digit.
Qed.

Lemma frac_digits_digits (d : nat) (n : Z) :
  PyStr.all_chars is_digit (frac_digits d n) = true.
Proof.
  revert n. induction d as [|k IH]; intros n; simpl; [reflexivity|].
  rewrite all_chars_append, IH. simpl. now rewrite digit_char_is_digit.
Qed.

Lemma append_length (s t : string) :
  String.length (s ++ t) = (String.length s + String.length t)%nat.
Proof. induction s as [|a s IH]; simpl; [reflexivity | now rewrite IH]. Qed.

Lemma frac_digits_length (d : nat) (n : Z) : String.length (frac_digits d n) = d.
Proof.
  revert n. induction d as [|k IH]; intros n; simpl; [reflexivity|].
  rewrite append_length, IH. simpl. lia.
Qed.

(** With enough fuel a positive number is written with a leading digit
    that is not zero. *)
Lemma dec_fuel_leading (fuel : nat) (n : Z) :
  0 < n < 2 ^ Z.of_nat fuel ->
  exists c rest,
    dec_fuel fuel n = String c rest /\ Ascii.eqb c "0" = false.
Proof.
  revert n. induction fuel as [|f IH]; intros n Hn.
  - simpl in Hn. lia.
  - simpl. destruct (Z.ltb_spec n 10) as [Hlt|Hge].
    + exists (digit_char n), "". split; [reflexivity|].
      apply digit_char_nonzero. lia.
    + destruct (IH (n / 10)) as (c & rest & E & Hc).
      { rewrite Nat2Z.inj_succ, Z.pow_succ_r in Hn by lia. split.
        - apply Z.div_str_pos. lia.
        - apply Z.div_lt_upper_bound; lia. }
      rewrite E. simpl. now exists c, (rest ++ String (digit_char (n mod 10)) "").
Qed.

Lemma str_of_nonneg_leading (n : Z) :
  0 < n ->
  exists c rest,
    str_of_nonneg n = String c rest /\ Ascii.eqb c "0" = false.
Proof.
  intros Hn. apply dec_fuel_leading. split; [exact Hn|].
  rewrite Nat2Z.inj_succ, Z2Nat.id by apply Z.log2_nonneg.
  apply Z.log2_spec. exact Hn.
Qed.

Lemma str_of_nonneg_last (n : Z) :
  10 <= n ->
  str_of_nonneg n
  = dec_fuel (Z.to_nat (Z.log2 n)) (n / 10) ++ String (digit_char (n mod 10)) "".
Proof.
  intros Hn. unfold str_of_nonneg. simpl.
  destruct (Z.ltb_spec n 10); [lia | reflexivity].
Qed.

End Digits.

(** ** Reading a rendering back *)

Section Parse.

Import PyFloat.

(** A run of digits reads as a whole number that is at least the number
    read so far. *)
Lemma parse_unsigned_digits (s : string) (n ndigits : Z) :
  PyStr.all_chars is_digit s = true ->
  0 <= n -> 0 <= ndigits -> (0 < ndigits \/ s <> "") ->
  exists n', parse_unsigned s false n 0 ndigits = Some (n', 0) /\ n <= n'.
Proof.
  revert n ndigits. induction s as [|c t IH]; intros n ndigits Hs Hn Hc Hne.
  - simpl. destruct Hne as [Hpos|Hne]; [|now elim Hne].
    destruct (Z.ltb_spec 0 ndigits); [|lia]. exists n. split; [reflexivity|lia].
  - simpl in Hs. apply andb_true_iff in Hs as [Hd Ht].
    destruct (digit_facts c Hd) as (Hdot & _ & v & Hv & Hrange & _).
    simpl. rewrite Hdot, Hv.
    destruct (IH (10 * n + v) (ndigits + 1) Ht) as (n' & E & Hle);
      [lia | lia | left; lia |].
    exists n'. split; [exact E | lia].
Qed.

(** A text of digits whose first digit is not zero does not read as zero. *)
Lemma digits_text_not_zero (c : ascii) (rest : string) :
  is_digit c = true -> Ascii.eqb c "0" = false ->
  PyStr.all_chars is_digit rest = true ->
  float_of_text_is_zero (String c rest) = Some false.
Proof.
  intros Hd Hnz Hrest.
  destruct (digit_facts c Hd) as (Hdot & Hminus & v & Hv & Hrange & Hpos).
  specialize (Hpos Hnz).
  assert (Hparse : parse_decimal (String c rest)
                   = option_map (pair false) (parse_unsigned (String c rest) false 0 0 0)).
  { clear -Hminus. destruct c as [[] [] [] [] [] [] [] []];
      solve [reflexivity | discriminate Hminus]. }
  unfold float_of_text_is_zero. rewrite Hparse.
  cbn [parse_unsigned]. rewrite Hdot, Hv.
  destruct (parse_unsigned_digits rest (10 * 0 + v) (0 + 1) Hrest)
    as (n' & E & Hle); [lia | lia | left; lia |].
  rewrite E. cbn [option_map]. f_equal.
  apply Z.leb_gt. change (10 ^ 0) with 1.
  assert (1 < 2 ^ (1 - emin)) by (apply Z.pow_gt_1; unfold emin; lia).
  nia.
Qed.

End Parse.

(** ** Small integers are exact *)

Section Exact.

Import PyFloat.

Lemma round_half_even_exact (a den : Z) :
  0 < den -> round_half_even (a * den) den = a.
Proof.
  intros Hden. unfold round_half_even.
  rewrite Z.div_mul, Z.mod_mul by lia.
  change (2 * 0) with 0. now destruct (Z.compare_spec 0 den); try lia.
Qed.

Lemma quotient_exponent_small (m : Z) :
  0 < m < 2 ^ 53 ->
  quotient_exponent m 1 = Z.log2 m - 52 /\ Z.log2 m - 52 <= 0.
Proof.
  intros [Hpos Hlt].
  pose proof (Z.log2_nonneg m) as H0.
  pose proof (Z.log2_spec m Hpos) as [Hlo _].
  assert (Z.log2 m < 53) by (apply Z.log2_lt_pow2; lia).
  unfold quotient_exponent, scale_num, scale_den, prec, emin.
  change (Z.log2 1) with 0. rewrite Z.sub_0_r.
  rewrite (Z.max_l 0 (- Z.log2 m)), (Z.max_r 0 (Z.log2 m)) by lia.
  rewrite Z.pow_0_r, Z.mul_1_r, Z.mul_1_l.
  destruct (Z.ltb_spec m (2 ^ Z.log2 m)); [lia|].
  split; lia.
Qed.

(** An int below [2^53] divided by one is itself, and is rendered with
    no fractional digits as its own decimal digits. *)
Lemma small_int_rendering (m : Z) :
  0 < m < 2 ^ 53 ->
  exists x,
    int_true_divide m (10 ^ 0) = Some x
    /\ nonzero x = true
    /\ format_f x 0 = str_of_nonneg m.
Proof.
  intros Hm. destruct (quotient_exponent_small m Hm) as [He Hle].
  set (e := Z.log2 m - 52) in *.
  exists (mkFloat false (m * 2 ^ (- e)) e).
  assert (Hp : 0 < 2 ^ (- e)) by (apply Z.pow_pos_nonneg; lia).
  split; [|split].
  - unfold int_true_divide. change (10 ^ 0) with 1.
    change (1 =? 0) with false. cbv iota.
    replace (m <? 0) with false by (symmetry; apply Z.ltb_ge; lia).
    change (1 <? 0) with false. cbn [xorb].
    rewrite (Z.abs_eq m) by lia. change (Z.abs 1) with 1.
    replace (m =? 0) with false by (symmetry; apply Z.eqb_neq; lia).
    cbv zeta. rewrite He. unfold scale_num, scale_den.
    rewrite (Z.max_r 0 (- e)), (Z.max_l 0 e) by lia.
    rewrite Z.pow_0_r. change (1 * 1) with 1.
    replace (round_half_even (m * 2 ^ (- e)) 1) with (m * 2 ^ (- e))
      by (rewrite <- (Z.mul_1_r (m * 2 ^ (- e))) at 2;
          symmetry; apply round_half_even_exact; lia).
    destruct (Z.leb_spec 0 e) as [H0|H0]; [|reflexivity].
    assert (e = 0) by lia. subst e. replace (Z.log2 m - 52) with 0 in * by lia.
    cbn [andb]. change (- 0) with 0. rewrite !Z.pow_0_r, !Z.mul_1_r.
    replace (2 ^ emax <=? m) with false; [reflexivity|].
    symmetry. apply Z.leb_gt. unfold emax.
    assert (2 ^ 53 < 2 ^ 1024) by (apply Z.pow_lt_mono_r; lia). lia.
  - unfold nonzero. cbn [f_mant]. apply negb_true_iff, Z.eqb_neq. nia.
  - unfold format_f, scaled_decimal. cbn [f_neg f_mant f_exp].
    rewrite (Z.max_l 0 e), (Z.max_r 0 (- e)) by lia.
    rewrite !Z.pow_0_r, !Z.mul_1_r, round_half_even_exact by lia.
    rewrite Z.div_1_r. change (0 =? 0) with true. cbv iota.
    change (String.append "" (str_of_nonneg m ++ "")) with (str_of_nonneg m ++ "").
    clear. induction (str_of_nonneg m) as [|a s IH]; simpl; [reflexivity|].
    now rewrite IH.
Qed.

End Exact.

Lemma append_empty_r (s : string) : s ++ "" = s.
Proof. induction s as [|a s IH]; simpl; [reflexivity | now rewrite IH]. Qed.

Section DigitsValue.

Import PyFloat.

Lemma digits_value_snoc (s : string) (c : ascii) :
  digits_value (s ++ String c "")
  = 10 * digits_value s + match digit_value c with Some v => v | None => 0 end.
Proof.
  unfold digits_value.
  replace (list_ascii_of_string (s ++ String c ""))
    with (list_ascii_of_string s ++ [c])%list.
  - now rewrite fold_left_app.
  - induction s as [|a s IH]; simpl; [reflexivity | now rewrite IH].
Qed.

Lemma digit_value_char (n : Z) :
  0 <= n <= 9 -> digit_value (digit_char n) = Some n.
Proof.
  intros [Hlo Hhi]. destruct n as [|p|p]; [reflexivity| |lia].
  do 4 (try (destruct p as [p|p|]; try reflexivity; try lia)).
Qed.

Lemma dec_fuel_value (fuel : nat) (n : Z) :
  0 <= n < 2 ^ Z.of_nat fuel -> digits_value (dec_fuel fuel n) = n.
Proof.
  revert n. induction fuel as [|f IH]; intros n Hn.
  - simpl in Hn. assert (n = 0) by lia. now subst n.
  - simpl. destruct (Z.ltb_spec n 10) as [Hlt|Hge].
    + unfold digits_value. simpl. rewrite digit_value_char by lia. lia.
    + rewrite digits_value_snoc, IH, digit_value_char.
      * pose proof (Z.div_mod n 10). lia.
      * pose proof (Z.mod_pos_bound n 10). lia.
      * rewrite Nat2Z.inj_succ, Z.pow_succ_r in Hn by lia. split.
        -- apply Z.div_pos; lia.
        -- apply Z.div_lt_upper_bound; lia.
Qed.

(** [str_of_nonneg] writes the decimal digits of its argument. *)
Lemma str_of_nonneg_value (n : Z) :
  0 <= n -> digits_value (str_of_nonneg n) = n.
Proof.
  intros Hn. apply dec_fuel_value. split; [exact Hn|].
  rewrite Nat2Z.inj_succ, Z2Nat.id by apply Z.log2_nonneg.
  destruct (Z.eq_dec n 0) as [->|Hne]; [reflexivity|].
  apply Z.log2_spec. lia.
Qed.

End DigitsValue.

(** C10: with [decimals = 0] the trailing-zero stripping eats the integer
    itself.  For a positive multiple of ten below [2^53] the result is
    the decimal digits of the amount (they denote the amount) with their
    whole run of trailing zeros, at least one, removed - so it is not the
    decimal representation of the amount. *)
Theorem format_zero_decimals_strips_integer (m : Z) :
  0 < m < 2 ^ 53 -> m mod 10 = 0 ->
  let digits := PyFloat.str_of_nonneg m in
  let shown := PyStr.rstrip "0" digits in
  digits_value digits = m
  /\ format_token_amount m 0 = Some shown
  /\ (exists k : nat,
        (0 < k)%nat
        /\ digits = shown ++ string_of_list_ascii (List.repeat "0"%char k))
  /\ PyStr.ends_with_char "0" shown = false
  /\ format_token_amount m 0 <> Some digits.
Proof.
  intros Hm Hten digits shown.
  assert (Hge : 10 <= m).
  { pose proof (Z.div_mod m 10). lia. }
  assert (Hends : PyStr.ends_with_char "0" digits = true).
  { subst digits. rewrite str_of_nonneg_last by exact Hge.
    rewrite Hten. apply ends_with_char_append. }
  assert (Hnot : PyStr.ends_with_char "0" shown = false)
    by apply rstrip_not_ending.
  assert (Hformat : format_token_amount m 0 = Some shown).
  { destruct (small_int_rendering m Hm) as (x & Hdiv & Hnz & Hfmt).
    destruct (str_of_nonneg_leading m) as (c & rest & E & Hc); [lia|].
    pose proof (dec_fuel_digits (S (Z.to_nat (Z.log2 m))) m) as Hall.
    fold (PyFloat.str_of_nonneg m) in Hall. rewrite E in Hall.
    simpl in Hall. apply andb_true_iff in Hall as [Hd Hrest].
    unfold format_token_amount. change (0 <? 0) with false. cbv iota.
    rewrite Hdiv. unfold stripped_rendering. rewrite Hfmt.
    fold digits. fold shown.
    assert (Eshown : shown = String c (PyStr.rstrip "0" rest)).
    { subst shown digits. rewrite E. now apply rstrip_cons. }
    assert (Hsd : PyStr.all_chars is_digit (PyStr.rstrip "0" rest) = true)
      by now apply rstrip_all_chars.
    assert (Hfix : PyStr.rstrip "." shown = shown).
    { apply rstrip_fixed. rewrite Eshown. simpl.
      destruct (digit_facts c Hd) as (-> & _). simpl.
      apply (all_chars_weaken is_digit); [|exact Hsd].
      intros a Ha. now destruct (digit_facts a Ha) as (-> & _). }
    rewrite Hfix, Eshown.
    rewrite (digits_text_not_zero c _ Hd Hc Hsd). reflexivity. }
  split; [apply str_of_nonneg_value; lia|].
  split; [exact Hformat|].
  split; [|split; [exact Hnot|]].
  - destruct (rstrip_decompose "0" digits) as [k Hk]. fold shown in Hk.
    exists k. split; [|exact Hk].
    destruct k as [|k]; [|lia].
    simpl in Hk. rewrite append_empty_r in Hk. congruence.
  - rewrite Hformat. intros H. injection H as H. congruence.
Qed.

Lemma format_zero_decimals_strips_integer_witness :
  format_token_amount 100 0 = Some "1"
  /\ format_token_amount 100 0 <> Some "100".
Proof.
  assert (Hm : 0 < 100 < 2 ^ 53) by (split; reflexivity).
  pose proof (format_zero_decimals_strips_integer 100 Hm eq_refl)
    as (_ & Hshown & _ & _ & Hnot).
  split; [exact Hshown | exact Hnot].
Defined.

(** ** The formatter in general *)

Section Rendering.

Import PyFloat.

Lemma round_half_even_error (num den : Z) :
  0 < den ->
  2 * Z.abs (round_half_even num den * den - num) <= den.
Proof.
  intros Hden. unfold round_half_even.
  pose proof (Z.div_mod num den ltac:(lia)) as Hdm.
  pose proof (Z.mod_pos_bound num den Hden) as Hr.
  destruct (Z.compare_spec (2 * (num mod den)) den) as [E|L|G];
    [destruct (Z.even (num / den))| |]; nia.
Qed.

(** The quotient is the nearest binary64 value: it is off by at most half
    a unit of its last mantissa bit. *)
Lemma int_true_divide_nearest (a b : Z) (x : float) :
  int_true_divide a b = Some x ->
  2 * Z.abs (f_mant x * scale_den (Z.abs b) (f_exp x)
             - scale_num (Z.abs a) (f_exp x))
  <= scale_den (Z.abs b) (f_exp x).
Proof.
  unfold int_true_divide.
  destruct (Z.eqb_spec b 0) as [|Hb]; [discriminate|].
  assert (Hpos : forall e, 0 < scale_den (Z.abs b) e).
  { intros e. unfold scale_den. apply Z.mul_pos_pos; [lia|].
    apply Z.pow_pos_nonneg; lia. }
  destruct (Z.eqb_spec (Z.abs a) 0) as [Ha|Ha].
  - intros H. injection H as <-. cbn [f_mant f_exp]. rewrite Ha.
    unfold scale_num. specialize (Hpos 0). lia.
  - cbv zeta.
    destruct ((0 <=? _) && _); [discriminate|].
    intros H. injection H as <-. cbn [f_mant f_exp].
    apply round_half_even_error, Hpos.
Qed.

Lemma dec_fuel_nonempty (fuel : nat) (n : Z) : dec_fuel (S fuel) n <> "".
Proof.
  simpl. destruct (n <? 10); [discriminate|].
  destruct (dec_fuel fuel (n / 10)); discriminate.
Qed.



Lemma repeat_char_plain (n : nat) :
  PyStr.all_chars is_plain_char (string_of_list_ascii (List.repeat "0"%char n))
  = true.
Proof. induction n as [|n IH]; simpl; [reflexivity | exact IH]. Qed.

Lemma near_zero_marker_plain (d : Z) :
  PyStr.all_chars is_plain_char (near_zero_marker d) = true.
Proof.
  unfold near_zero_marker, PyStr.repeat_char. rewrite !all_chars_append.
  now rewrite repeat_char_plain.
Qed.

End Rendering.

(** C1, as stated, fails at its own example: a raw amount of 1 at 18
    decimals is rendered as it is, not as the marker - and a nonzero raw
    amount whose rendering is "0" can come back as "0". *)
Lemma format_one_at_18_is_not_marker :
  format_token_amount 1 18 = Some "0.000000000000000001"
  /\ near_zero_marker 18 = "< 0.000000000000000001"
  /\ format_token_amount 1 18 <> Some (near_zero_marker 18)
  /\ format_token_amount 1 400 = Some "0".
Proof.
  split; [vm_compute; reflexivity|].
  split; [vm_compute; reflexivity|].
  split; [vm_compute; discriminate|].
  vm_compute; reflexivity.
Qed.

(** The other cases the specification lists. *)
Example format_zero_at_18 : format_token_amount 0 18 = Some "0".
Proof. vm_compute. reflexivity. Qed.

(** A zero amount at zero decimals is stripped to the empty text, which
    [float] rejects. *)
Example format_zero_at_0_raises : format_token_amount 0 0 = None.
Proof. vm_compute. reflexivity. Qed.

(** The model of the division agrees with the Standard Library's
    binary64 division on the sample operands. *)
Example int_true_divide_matches_SFdiv :
  forallb (fun p => same_quotient (fst p) (snd p)) sample_operands = true.
Proof. vm_compute. reflexivity. Qed.

(** * Further properties *)

(** ** Connecting, in general *)

Lemma attempts_until_success (w : World) (url : string) (max_retries : Z)
    (k remaining : nat) (attempt : Z) :
  (k < remaining)%nat ->
  attempt + Z.of_nat remaining = max_retries ->
  (forall j, attempt <= j < attempt + Z.of_nat k ->
             is_connected w url j <> Connected) ->
  is_connected w url (attempt + Z.of_nat k) = Connected ->
  let r := connection_attempts w url max_retries remaining attempt in
  fst r = Some (mkWeb3 url)
  /\ count is_attempt (trace r) = S k
  /\ count is_cooldown (trace r) = k
  /\ exists t, trace r
               = (t ++ [EvConnect url (attempt + Z.of_nat k);
                        EvLog INFO (MsgConnected url)])%list.
Proof.
  revert remaining attempt. induction k as [|k IH]; intros remaining attempt Hk Hsum Hfail Hok.
  - destruct remaining as [|n]; [lia|].
    rewrite Z.add_0_r in Hok |- *. cbn zeta. cbn [connection_attempts].
    rewrite Hok. cbn. repeat split. now exists [].
  - destruct remaining as [|n]; [lia|].
    specialize (IH n (attempt + 1) ltac:(lia) ltac:(lia)).
    replace (attempt + 1 + Z.of_nat k) with (attempt + Z.of_nat (S k)) in IH by lia.
    specialize (IH ltac:(intros j Hj; apply Hfail; lia) Hok).
    cbn zeta in IH. destruct IH as (Hr & Ha & Hc & t & Ht).
    cbn zeta. cbn [connection_attempts].
    pose proof (Hfail attempt ltac:(lia)) as Hne.
    destruct (connection_attempts w url max_retries n (attempt + 1)) as [res tr].
    unfold trace in *. simpl in Hr, Ha, Hc, Ht.
    destruct (Z.ltb_spec attempt (max_retries - 1)) as [_|Hge]; [|lia].
    destruct (is_connected w url attempt); [contradiction| |];
      cbn; unfold count in *; cbn; rewrite Ha, Hc;
      (split; [exact Hr|]); (split; [reflexivity|]); (split; [reflexivity|]);
      rewrite Ht; eexists (_ :: _ :: _ :: t); reflexivity.
Qed.

(** X1: when the first [k] attempts fail and attempt [k] (counted from
    zero, below [max_retries]) connects, the connection is returned after
    exactly [k + 1] attempts and [k] cooldowns, and nothing follows the
    success line: no sleep after the attempt that connects. *)
Theorem connect_succeeds_after_failures (w : World) (url : string)
    (max_retries : Z) (k : nat) :
  Z.of_nat k < max_retries ->
  (forall j, 0 <= j < Z.of_nat k -> is_connected w url j <> Connected) ->
  is_connected w url (Z.of_nat k) = Connected ->
  let c := get_web3_connection w url max_retries in
  fst c = Some (mkWeb3 url)
  /\ count is_attempt (trace c) = S k
  /\ count is_cooldown (trace c) = k
  /\ exists t, trace c
               = (t ++ [EvConnect url (Z.of_nat k);
                        EvLog INFO (MsgConnected url)])%list.
Proof.
  intros Hk Hfail Hok. unfold get_web3_connection.
  apply (attempts_until_success w url max_retries k (Z.to_nat max_retries) 0);
    try assumption; lia.
Qed.

Lemma connect_succeeds_after_failures_witness :
  fst (get_web3_connection slow_world "https://mainnet.base.org" 3)
  = Some (mkWeb3 "https://mainnet.base.org")
  /\ count is_attempt
       (trace (get_web3_connection slow_world "https://mainnet.base.org" 3))
     = 3%nat
  /\ count is_cooldown
       (trace (get_web3_connection slow_world "https://mainnet.base.org" 3))
     = 2%nat.
Proof.
  assert (Hk : Z.of_nat 2 < 3) by reflexivity.
  assert (Hfail : forall j, 0 <= j < Z.of_nat 2 ->
            is_connected slow_world "https://mainnet.base.org" j <> Connected).
  { intros j Hj. cbn [is_connected slow_world].
    destruct (Z.ltb_spec j 2) as [_|Hge]; [discriminate|]. simpl in Hj. lia. }
  destruct (connect_succeeds_after_failures slow_world
              "https://mainnet.base.org" 3 2 Hk Hfail eq_refl)
    as (Hres & Hattempts & Hcool & _).
  split; [exact Hres|]. split; [exact Hattempts | exact Hcool].
Defined.

(** X2: for any [max_retries], when every attempt fails no connection is
    returned after [max(max_retries, 0)] attempts and one cooldown fewer;
    with [max_retries <= 0] no attempt is made at all. *)
Theorem connect_exhausts_retries (w : World) (url : string) (max_retries : Z) :
  (forall attempt, is_connected w url attempt <> Connected) ->
  let c := get_web3_connection w url max_retries in
  fst c = None
  /\ count is_attempt (trace c) = Z.to_nat max_retries
  /\ count is_cooldown (trace c) = Nat.pred (Z.to_nat max_retries)
  /\ (max_retries <= 0 -> trace c = [EvLog ERROR (MsgCannotConnect url max_retries)]).
Proof.
  intros Hdown c. subst c. unfold get_web3_connection.
  destruct (Z.le_gt_cases max_retries 0) as [Hle|Hgt].
  - replace (Z.to_nat max_retries) with 0%nat by lia. cbn. repeat split.
  - destruct (attempts_all_fail w url Hdown max_retries (Z.to_nat max_retries) 0
                ltac:(lia)) as (Hr & Ha & Hc & _).
    repeat split; try assumption. lia.
Qed.

Lemma connect_exhausts_retries_witness :
  count is_attempt (trace (get_web3_connection unreachable_world "u" 5)) = 5%nat
  /\ count is_cooldown (trace (get_web3_connection unreachable_world "u" 5)) = 4%nat.
Proof.
  assert (Hdown : forall attempt,
             is_connected unreachable_world "u" attempt <> Connected)
    by (intros attempt; discriminate).
  pose proof (connect_exhausts_retries unreachable_world "u" 5 Hdown)
    as (_ & Ha & Hc & _).
  split; [exact Ha | exact Hc].
Defined.


(** ** The selection filter, further *)

(** X3: the legacy single number in place of the list filters like the
    one-element list, and like the empty list when it is zero: the filter
    holds exactly when the range condition holds and the number is zero
    or equals the index. *)
Theorem filter_legacy_number (i n rungt runlt : Z) :
  is_id_valid i (EqInt n) rungt runlt
  = is_id_valid i (EqList (if n =? 0 then [] else [n])) rungt runlt
  /\ (is_id_valid i (EqInt n) rungt runlt = true
      <-> range_match i rungt runlt = true /\ (n = 0 \/ i = n)).
Proof.
  split.
  - unfold is_id_valid. f_equal. unfold equal_match.
    destruct (n =? 0); simpl; [reflexivity|]. now rewrite orb_false_r.
  - unfold is_id_valid, equal_match. rewrite andb_true_iff.
    destruct (Z.eqb_spec n 0) as [->|Hn]; cbn [negb].
    + intuition.
    + rewrite Z.eqb_eq. intuition.
Qed.

(** X4: with both bounds non-zero and no integer strictly between them
    ([lt <= gt + 1]), the filter excludes every index, whatever the
    equals-set: no record of any ledger matches. *)
Theorem filter_empty_window (runeq : runeq_t) (rungt runlt : Z) :
  rungt <> 0 -> runlt <> 0 -> runlt <= rungt + 1 ->
  (forall i, is_id_valid i runeq rungt runlt = false)
  /\ forall n, matching_indices runeq rungt runlt n = [].
Proof.
  intros Hg Hl Hw.
  assert (Hno : forall i, is_id_valid i runeq rungt runlt = false).
  { intros i. unfold is_id_valid.
    destruct (range_match i rungt runlt) eqn:E; [|reflexivity].
    apply range_match_both in E; [lia | assumption | assumption]. }
  split; [exact Hno|].
  intros n. unfold matching_indices.
  induction (map Z.of_nat (seq 1 n)) as [|i l IH]; simpl; [reflexivity|].
  now rewrite Hno.
Qed.

Lemma filter_empty_window_witness :
  is_id_valid 4 (EqList []) 5 3 = false
  /\ matching_indices (EqList []) 3 4 10 = [].
Proof.
  split.
  - refine (proj1 (filter_empty_window (EqList []) 5 3 _ _ _) 4); lia.
  - refine (proj2 (filter_empty_window (EqList []) 3 4 _ _ _) 10%nat); lia.
Defined.

(** ** The ledger update, further *)

(** X5: updating with a private key that no record starts with leaves
    the ledger as it is. *)
Theorem update_without_match (wallets : list string) (private_key address : string) :
  (forall wallet, In wallet wallets ->
                  PyStr.startswith wallet private_key = false) ->
  WalletManager.update_wallet_with_address wallets private_key address = wallets.
Proof.
  intros H. rewrite update_as_map.
  rewrite <- (map_id wallets) at 2. apply map_ext_in.
  intros wallet Hin. unfold WalletManager.updated_record. now rewrite (H wallet Hin).
Qed.

Lemma update_without_match_witness :
  WalletManager.update_wallet_with_address ["aa,0xA"; "bb"] "cc" "0xC"
  = ["aa,0xA"; "bb"].
Proof.
  apply update_without_match.
  intros wallet [<-|[<-|[]]]; reflexivity.
Defined.

(** ** The key field of a record *)

Lemma split_nonempty (sep : ascii) (s : string) : PyStr.split sep s <> [].
Proof.
  destruct s as [|a t]; simpl; [discriminate|].
  destruct (Ascii.eqb a sep); [discriminate|].
  destruct (PyStr.split sep t); discriminate.
Qed.

Lemma key_field_cons (a : ascii) (t : string) :
  key_field (String a t)
  = if Ascii.eqb a "," then "" else String a (key_field t).
Proof.
  unfold key_field. simpl.
  destruct (Ascii.eqb a ","); [reflexivity|].
  pose proof (split_nonempty "," t) as Hne.
  destruct (PyStr.split "," t) as [|f fs]; [now elim Hne | reflexivity].
Qed.

Lemma key_field_empty : key_field "" = "".
Proof. reflexivity. Qed.

Lemma key_field_prefix (wallet_data : string) :
  comma_free (key_field wallet_data) = true
  /\ (wallet_data = key_field wallet_data
      \/ exists rest, wallet_data = key_field wallet_data ++ "," ++ rest).
Proof.
  induction wallet_data as [|a t [IHfree IHsplit]].
  - split; [reflexivity | now left].
  - rewrite key_field_cons.
    destruct (Ascii.eqb_spec a ",") as [->|Hne].
    + split; [reflexivity|]. right. now exists t.
    + split.
      * unfold comma_free in *. simpl. rewrite IHfree.
        now apply Ascii.eqb_neq in Hne as ->.
      * destruct IHsplit as [E|[rest E]].
        -- left. now rewrite <- E.
        -- right. exists rest. simpl in E |- *. f_equal. exact E.
Qed.

Lemma key_field_of_key (key rest : string) :
  comma_free key = true ->
  key_field key = key /\ key_field (key ++ "," ++ rest) = key.
Proof.
  unfold comma_free. induction key as [|a k IH]; intros H.
  - split; reflexivity.
  - simpl in H. apply andb_true_iff in H as [Ha Hk].
    apply negb_true_iff in Ha. destruct (IH Hk) as [E1 E2].
    split.
    + now rewrite key_field_cons, Ha, E1.
    + change (String a k ++ "," ++ rest) with (String a (k ++ "," ++ rest)).
      now rewrite key_field_cons, Ha, E2.
Qed.

(** X6: the key field ([parts[0]] of the split at commas) holds no
    comma and is the whole record or the part before its first comma; so
    a key without a comma is read back from the key alone and from the
    key followed by a comma and anything. *)
Theorem key_field_spec (wallet_data key rest : string) :
  comma_free (key_field wallet_data) = true
  /\ (wallet_data = key_field wallet_data
      \/ exists tail, wallet_data = key_field wallet_data ++ "," ++ tail)
  /\ (comma_free key = true ->
      key_field key = key /\ key_field (key ++ "," ++ rest) = key).
Proof.
  split; [apply key_field_prefix|]. split; [apply key_field_prefix|].
  apply key_field_of_key.
Qed.

Lemma key_field_spec_witness :
  key_field "aa11" = "aa11" /\ key_field ("aa11" ++ "," ++ "0xA,extra") = "aa11".
Proof.
  exact (proj2 (proj2 (key_field_spec "" "aa11" "0xA,extra")) eq_refl).
Defined.

(** X7: after an update with a comma-free private key, every record at a
    position that matched has that private key as its key field, and
    every other record is the one that was there: the balance query
    derives the address of a rewritten record from the same key. *)
Theorem key_field_after_update (wallets : list string)
    (private_key address : string) (i : nat) (wallet : string) :
  comma_free private_key = true ->
  nth_error wallets i = Some wallet ->
  exists updated,
    nth_error (WalletManager.update_wallet_with_address wallets private_key address) i
    = Some updated
    /\ (PyStr.startswith wallet private_key = true -> key_field updated = private_key)
    /\ (PyStr.startswith wallet private_key = false -> updated = wallet).
Proof.
  intros Hfree Hnth.
  rewrite update_as_map, nth_error_map, Hnth. cbn [option_map].
  eexists. split; [reflexivity|]. unfold WalletManager.updated_record.
  split; intros ->.
  - apply key_field_of_key, Hfree.
  - reflexivity.
Qed.

Lemma key_field_after_update_witness :
  exists updated,
    nth_error (WalletManager.update_wallet_with_address
                 ["aa11"; "bb22,0xB"] "aa11" "0xA") 0
    = Some updated
    /\ key_field updated = "aa11".
Proof.
  destruct (key_field_after_update ["aa11"; "bb22,0xB"] "aa11" "0xA" 0 "aa11"
              eq_refl eq_refl) as (updated & E & Hkey & _).
  exists updated. split; [exact E | exact (Hkey eq_refl)].
Defined.

(** ** The calls of a run *)

Lemma count_flat_map {A : Type} (P : event -> bool) (f : A -> list event)
    (Q : A -> bool) (l : list A) :
  (forall r, count P (f r) = if Q r then 1%nat else 0%nat) ->
  count P (flat_map f l) = List.length (filter Q l).
Proof.
  intros H. induction l as [|r l IH]; [reflexivity|].
  cbn [flat_map filter]. rewrite count_app, H, IH.
  now destruct (Q r).
Qed.

Lemma count_flat_map_le {A : Type} (P P' : event -> bool) (f : A -> list event)
    (l : list A) :
  (forall r, (count P (f r) <= count P' (f r))%nat) ->
  (count P (flat_map f l) <= count P' (flat_map f l))%nat.
Proof.
  intros H. induction l as [|r l IH]; [reflexivity|].
  cbn [flat_map]. rewrite !count_app. specialize (H r). lia.
Qed.

Lemma count_flat_map_zero {A : Type} (P : event -> bool) (f : A -> list event)
    (l : list A) :
  (forall r, count P (f r) = 0%nat) -> count P (flat_map f l) = 0%nat.
Proof.
  intros H. induction l as [|r l IH]; [reflexivity|].
  cbn [flat_map]. now rewrite count_app, H, IH.
Qed.

Lemma enumerate_matching (runeq : runeq_t) (rungt runlt : Z)
    (wallets : list string) (p : nat) :
  List.length (filter (fun r => is_id_valid (fst r) runeq rungt runlt)
                 (enumerate_from (Z.of_nat p) wallets))
  = List.length (filter (fun i => is_id_valid i runeq rungt runlt)
                   (map Z.of_nat (seq (S p) (List.length wallets)))).
Proof.
  revert p. induction wallets as [|x rest IH]; intros p; [reflexivity|].
  cbn [enumerate_from List.length seq map filter fst].
  replace (Z.of_nat p + 1) with (Z.of_nat (S p)) by lia.
  destruct (is_id_valid (Z.of_nat (S p)) runeq rungt runlt);
    cbn [List.length]; now rewrite IH.
Qed.

Lemma connection_attempts_no_metadata (w : World) (url : string)
    (max_retries : Z) (remaining : nat) (attempt : Z) :
  count is_metadata_call
    (trace (connection_attempts w url max_retries remaining attempt)) = 0%nat.
Proof.
  revert attempt. induction remaining as [|n IH]; intros attempt; [reflexivity|].
  cbn [connection_attempts]. specialize (IH (attempt + 1)).
  destruct (connection_attempts w url max_retries n (attempt + 1)) as [r t].
  unfold trace, count in *. simpl in IH.
  destruct (is_connected w url attempt), (attempt <? max_retries - 1);
    cbn; try rewrite IH; reflexivity.
Qed.

Section BodyCalls.

Variable w : World.
Variable config : network_profile.
Variable token_symbol : string.
Variable token_decimals : Z.
Variable runeq : runeq_t.
Variables rungt runlt : Z.

Local Abbreviation events_of :=
  (body_events w config token_symbol token_decimals runeq rungt runlt).

Ltac open_events :=
  unfold body_events, loop_body, get_address_by_key, query_balances, falsy,
    trace, count;
  cbn [fst snd];
  repeat match goal with
         | |- context [is_id_valid ?i ?e ?g ?l] =>
             destruct (is_id_valid i e g l) eqn:?
         | |- context [account_from_key ?w ?k] =>
             destruct (account_from_key w k) as [[|? ?]|] eqn:?
         | |- context [eth_get_balance ?w ?i ?a] =>
             destruct (eth_get_balance w i a) eqn:?
         | |- context [token_balanceOf ?w ?i ?a] =>
             destruct (token_balanceOf w i a) eqn:?
         | |- context [format_token_amount ?a ?d] =>
             destruct (format_token_amount a d) eqn:?
         | _ => progress cbn
         end.

Lemma body_from_key (r : Z * string) :
  count is_from_key (events_of r)
  = if is_id_valid (fst r) runeq rungt runlt then 1%nat else 0%nat.
Proof. destruct r as [idx wd]. open_events; reflexivity. Qed.

Lemma body_get_balance (r : Z * string) :
  count is_get_balance (events_of r)
  = if is_id_valid (fst r) runeq rungt runlt
       && negb (falsy (account_from_key w (key_field (snd r))))
    then 1%nat else 0%nat.
Proof. destruct r as [idx wd]. open_events; reflexivity. Qed.

Lemma body_balance_of (r : Z * string) :
  (count is_balance_of (events_of r) <= count is_get_balance (events_of r))%nat.
Proof. destruct r as [idx wd]. open_events; lia. Qed.

Lemma body_no_metadata (r : Z * string) :
  count is_metadata_call (events_of r) = 0%nat.
Proof. destruct r as [idx wd]. open_events; reflexivity. Qed.

End BodyCalls.

Lemma setup_not_from_key (e : event) : is_setup e = true -> is_from_key e = false.
Proof. destruct e; simpl; congruence. Qed.

Lemma setup_not_get_balance (e : event) : is_setup e = true -> is_get_balance e = false.
Proof. destruct e; simpl; congruence. Qed.

Lemma setup_not_balance_of (e : event) : is_setup e = true -> is_balance_of e = false.
Proof. destruct e; simpl; congruence. Qed.

(** X8: in a run that reaches the loop, the key library is asked once
    per index that passes the filter, the native balance once per record
    that passes and has an address, the token balance never more often
    than the native one, and the token metadata takes two calls in all,
    however many records there are. *)
Theorem completed_run_calls (w : World) (name : string) (runeq : runeq_t)
    (rungt runlt : Z) (network : string) (config : network_profile)
    (token_symbol : string) (token_decimals : Z) :
  lookup_network network NETWORK_CONFIG = Some config ->
  load_wallets w name <> [] ->
  fst (get_web3_connection w (native_url config) 3) <> None ->
  fst (token_metadata w) = Some (token_symbol, token_decimals) ->
  let run := trace (generate_network_balance w name runeq rungt runlt network) in
  count is_from_key run
  = List.length (matching_indices runeq rungt runlt
                   (List.length (load_wallets w name)))
  /\ count is_get_balance run
     = List.length (queried_records w runeq rungt runlt (load_wallets w name))
  /\ (count is_balance_of run <= count is_get_balance run)%nat
  /\ count is_metadata_call run = 2%nat.
Proof.
  intros Hcfg Hled Hc Hm run. subst run.
  rewrite (run_completed w name runeq rungt runlt network config
             Hcfg Hled token_symbol token_decimals Hc Hm).
  pose proof (connection_attempts_setup w (native_url config) 3 (Z.to_nat 3) 0)
    as Sc.
  pose proof (token_metadata_setup w) as Sm.
  fold (get_web3_connection w (native_url config) 3) in Sc.
  set (conn := trace (get_web3_connection w (native_url config) 3)) in *.
  set (meta := trace (token_metadata w)) in *.
  assert (Zero : forall P, (forall e, is_setup e = true -> P e = false) ->
                           count P conn = 0%nat /\ count P meta = 0%nat).
  { intros P HP. split; apply none_of_count, (setup_excludes _ P HP); assumption. }
  destruct (Zero _ setup_not_from_key) as [F1 F2].
  destruct (Zero _ setup_not_get_balance) as [G1 G2].
  destruct (Zero _ setup_not_balance_of) as [B1 B2].
  rewrite !count_app. rewrite F1, F2, G1, G2, B1, B2.
  cbn [count filter List.length is_from_key is_get_balance is_balance_of
         is_metadata_call].
  split; [|split; [|split]].
  - rewrite (count_flat_map is_from_key _
               (fun r => is_id_valid (fst r) runeq rungt runlt))
      by apply body_from_key.
    change 0 with (Z.of_nat 0). rewrite enumerate_matching.
    unfold matching_indices. lia.
  - rewrite (count_flat_map is_get_balance _
               (fun r => is_id_valid (fst r) runeq rungt runlt
                         && negb (falsy (account_from_key w (key_field (snd r))))))
      by apply body_get_balance.
    unfold queried_records. simpl. lia.
  - pose proof (count_flat_map_le is_balance_of is_get_balance
                  (body_events w config token_symbol token_decimals
                               runeq rungt runlt)
                  (enumerate_from 0 (load_wallets w name))
                  (body_balance_of w config token_symbol token_decimals
                                   runeq rungt runlt)) as Hle.
    simpl. lia.
  - rewrite (count_flat_map_zero is_metadata_call) by apply body_no_metadata.
    subst conn. unfold get_web3_connection.
    rewrite connection_attempts_no_metadata.
    subst meta. unfold token_metadata in Hm |- *.
    destruct (token_symbol_call w); [|discriminate].
    destruct (token_decimals_call w); [|discriminate]. reflexivity.
Qed.

Lemma completed_run_calls_witness :
  count is_from_key
    (trace (generate_network_balance flaky_world "" (EqList []) 0 0 "eth"))
  = 3%nat
  /\ count is_get_balance
       (trace (generate_network_balance flaky_world "" (EqList []) 0 0 "eth"))
     = 2%nat.
Proof.
  assert (Hled : load_wallets flaky_world "" <> []) by discriminate.
  assert (Hc : fst (get_web3_connection flaky_world
                      (native_url (mkProfile "ETH" "Ethereum" 18
                                     "https://eth.drpc.org"
                                     "0xdac17f958d2ee523a2206206994597c13d831ec7")) 3)
               <> None) by discriminate.
  destruct (completed_run_calls flaky_world "" (EqList []) 0 0 "eth" _ "USDT" 6
              eq_refl Hled Hc eq_refl) as (Hf & Hg & _).
  split; [exact Hf | exact Hg].
Defined.

(** X9: a run makes no call at all (no connection, no metadata, no key
    derivation, no balance query, no sleep) exactly when the ledger is
    empty or the network is not in the table. *)
Theorem run_without_calls (w : World) (name : string) (runeq : runeq_t)
    (rungt runlt : Z) (network : string) :
  calls (trace (generate_network_balance w name runeq rungt runlt network)) = []
  <-> load_wallets w name = [] \/ lookup_network network NETWORK_CONFIG = None.
Proof.
  unfold generate_network_balance. split.
  - destruct (load_wallets w name) as [|x rest]; [now left|].
    destruct (lookup_network network NETWORK_CONFIG) as [config|]; [|now right].
    intros H. exfalso. rewrite bind_trace in H.
    unfold get_web3_connection in H. change (Z.to_nat 3) with 3%nat in H.
    cbn [connection_attempts] in H. rewrite bind_trace in H.
    cbn in H. discriminate.
  - intros [-> | H]; [reflexivity|].
    destruct (load_wallets w name); [reflexivity|]. now rewrite H.
Qed.

(** ** The near-zero test never fires *)

Section NeverMarker.

Import PyFloat.

Lemma any_char_append (P : ascii -> bool) (s t : string) :
  any_char P (s ++ t) = any_char P s || any_char P t.
Proof.
  induction s as [|a s IH]; simpl; [reflexivity|]. now rewrite IH, orb_assoc.
Qed.

Lemma any_char_rstrip (P : ascii -> bool) (c : ascii) (s : string) :
  P c = false -> any_char P (PyStr.rstrip c s) = any_char P s.
Proof.
  intros Hc. induction s as [|a t IH]; simpl; [reflexivity|].
  destruct (PyStr.rstrip c t) as [|b u] eqn:E.
  - simpl in IH. rewrite <- IH.
    destruct (Ascii.eqb_spec a c) as [->|_]; simpl; [now rewrite Hc | reflexivity].
  - cbn [any_char] in IH |- *. now rewrite IH.
Qed.

Lemma after_point_nonneg (s : string) : 0 <= after_point s.
Proof.
  induction s as [|a t IH]; simpl; [lia|]. destruct (Ascii.eqb a "."); lia.
Qed.

Lemma rstrip_length (c : ascii) (s : string) :
  (String.length (PyStr.rstrip c s) <= String.length s)%nat.
Proof.
  induction s as [|a t IH]; simpl; [lia|].
  destruct (PyStr.rstrip c t) as [|b u].
  - destruct (Ascii.eqb a c); simpl; lia.
  - simpl in *. lia.
Qed.

Lemma after_point_rstrip (c : ascii) (s : string) :
  after_point (PyStr.rstrip c s) <= after_point s.
Proof.
  induction s as [|a t IH]; simpl; [lia|].
  pose proof (rstrip_length c t) as Hlen.
  pose proof (after_point_nonneg t) as Hnn.
  destruct (PyStr.rstrip c t) as [|b u] eqn:E.
  - destruct (Ascii.eqb a c); simpl; destruct (Ascii.eqb a "."); simpl in *; lia.
  - cbn [after_point] in IH |- *.
    destruct (Ascii.eqb a "."); cbv iota; [lia | exact IH].
Qed.

Lemma after_point_digits (s t : string) :
  PyStr.all_chars is_digit s = true -> after_point (s ++ t) = after_point t.
Proof.
  induction s as [|a s IH]; simpl; [reflexivity|].
  intros H. apply andb_true_iff in H as [Ha Hs].
  destruct (digit_facts a Ha) as (-> & _). now apply IH.
Qed.

Lemma after_point_format_f (x : float) (d : Z) :
  0 <= d -> after_point (format_f x d) = d.
Proof.
  intros Hd. unfold format_f, str_of_nonneg.
  assert (Hsign : forall t, after_point ((if f_neg x then "-" else "") ++ t)
                            = after_point t) by (intros t; now destruct (f_neg x)).
  rewrite Hsign, after_point_digits by apply dec_fuel_digits.
  destruct (Z.eqb_spec d 0) as [->|Hne]; [reflexivity|].
  cbn. rewrite frac_digits_length. lia.
Qed.

Lemma digit_value_facts (c : ascii) (v : Z) :
  digit_value c = Some v ->
  0 <= v <= 9 /\ Ascii.eqb c "." = false
  /\ (is_nonzero_digit c = true -> 1 <= v).
Proof.
  intros Hv. assert (Hd : is_digit c = true) by (unfold is_digit; now rewrite Hv).
  destruct (digit_facts c Hd) as (Hdot & _ & v' & Hv' & Hr & Hpos).
  rewrite Hv in Hv'. injection Hv' as <-.
  split; [exact Hr|]. split; [exact Hdot|].
  unfold is_nonzero_digit. rewrite Hd. cbn [andb]. intros H.
  apply Hpos. now apply negb_true_iff.
Qed.

(** What a successful reading returns: at least the number read so far,
    at least one once a digit other than zero was read, and a scale that
    counts only characters after the point. *)
Lemma parse_unsigned_bounds (s : string) (seen : bool) (n k c n' k' : Z) :
  parse_unsigned s seen n k c = Some (n', k') ->
  0 <= n ->
  n <= n'
  /\ (any_char is_nonzero_digit s = true -> 1 <= n')
  /\ k' <= k + (if seen then Z.of_nat (String.length s) else after_point s).
Proof.
  revert seen n k c. induction s as [|a t IH]; intros seen n k c H Hn.
  - simpl in H. destruct (0 <? c); [|discriminate]. injection H as <- <-.
    split; [lia|]. split; [discriminate|]. destruct seen; simpl; lia.
  - cbn [parse_unsigned] in H. destruct (Ascii.eqb_spec a ".") as [->|Hne].
    + destruct seen; [discriminate|].
      destruct (IH _ _ _ _ H Hn) as (H1 & H2 & H3).
      split; [exact H1|]. split; [exact H2|]. exact H3.
    + destruct (digit_value a) as [v|] eqn:Hv; [|discriminate].
      destruct (digit_value_facts a v Hv) as (Hr & Hdot & Hpos).
      destruct (IH _ _ _ _ H ltac:(lia)) as (H1 & H2 & H3).
      split; [lia|]. split.
      * cbn [any_char]. intros Hany. apply orb_true_iff in Hany as [Ha|Ht].
        -- specialize (Hpos Ha). lia.
        -- now apply H2.
      * cbn [after_point String.length]. rewrite Hdot.
        destruct seen; lia.
Qed.

Lemma parse_decimal_unsigned (s : string) (sg : bool) (n' k' : Z) :
  parse_decimal s = Some (sg, (n', k')) ->
  exists t,
    parse_unsigned t false 0 0 0 = Some (n', k')
    /\ (s = t \/ s = String "-" t).
Proof.
  destruct s as [|a t].
  - simpl. discriminate.
  - destruct (Ascii.eqb_spec a "-") as [->|Hne].
    + cbn [parse_decimal]. intros H. exists t.
      destruct (parse_unsigned t false 0 0 0) as [[x y]|]; [|discriminate].
      injection H as _ <- <-. split; [reflexivity | now right].
    + intros H. exists (String a t).
      assert (E : parse_decimal (String a t)
                  = option_map (pair false) (parse_unsigned (String a t) false 0 0 0)).
      { clear -Hne. destruct a as [[] [] [] [] [] [] [] []];
          solve [reflexivity | now elim Hne]. }
      rewrite E in H.
      destruct (parse_unsigned (String a t) false 0 0 0) as [[x y]|]; [|discriminate].
      injection H as _ <- <-. split; [reflexivity | now left].
Qed.

(** A text with a digit other than zero and at most 323 characters after
    its point does not read as zero. *)
Lemma text_with_nonzero_digit (s : string) (z : bool) :
  float_of_text_is_zero s = Some z ->
  any_char is_nonzero_digit s = true ->
  after_point s <= 323 ->
  z = false.
Proof.
  unfold float_of_text_is_zero.
  destruct (parse_decimal s) as [[sg [n' k']]|] eqn:Hp; [|discriminate].
  intros H Hany Hpt. injection H as <-.
  destruct (parse_decimal_unsigned _ _ _ _ Hp) as (t & Ht & Hs).
  destruct (parse_unsigned_bounds _ _ _ _ _ _ _ Ht ltac:(lia)) as (_ & Hpos & Hk).
  assert (Hany' : any_char is_nonzero_digit t = true).
  { destruct Hs as [->| ->]; [exact Hany | exact Hany]. }
  assert (Hpt' : after_point t <= 323).
  { destruct Hs as [->| ->]; [exact Hpt | exact Hpt]. }
  specialize (Hpos Hany'). cbn [Z.add] in Hk.
  apply Z.leb_gt.
  assert (H10 : 10 ^ k' <= 10 ^ 323).
  { destruct (Z.le_gt_cases 0 k') as [Hk0|Hk0].
    - apply Z.pow_le_mono_r; lia.
    - rewrite Z.pow_neg_r by lia. apply Z.pow_nonneg. lia. }
  assert (Hbig : 10 ^ 323 < 2 ^ (1 - emin)) by (vm_compute; reflexivity).
  assert (0 < 2 ^ (1 - emin)) by (apply Z.pow_pos_nonneg; unfold emin; lia).
  nia.
Qed.


Lemma round_half_even_nonneg (num den : Z) :
  0 <= num -> 0 < den -> 0 <= round_half_even num den.
Proof.
  intros Hn Hd. unfold round_half_even.
  pose proof (Z.div_pos num den Hn Hd).
  destruct (2 * (num mod den) ?= den); [destruct (Z.even (num / den))| |]; lia.
Qed.

Lemma round_half_even_positive (num den : Z) :
  0 < den -> den < 2 * num -> 1 <= round_half_even num den.
Proof.
  intros Hd Hn. unfold round_half_even.
  pose proof (Z.div_mod num den ltac:(lia)) as Hdm.
  pose proof (Z.mod_pos_bound num den Hd) as Hr.
  assert (0 <= num / den) by (apply Z.div_pos; lia).
  destruct (Z.compare_spec (2 * (num mod den)) den) as [E|L|G].
  - destruct (Z.even (num / den)) eqn:Ev; [|lia].
    destruct (Z.eq_dec (num / den) 0) as [E0|]; [|lia].
    rewrite E0 in Hdm. lia.
  - destruct (Z.eq_dec (num / den) 0) as [E0|]; [|lia].
    rewrite E0 in Hdm. lia.
  - lia.
Qed.

(** A quotient that is not zero is rendered with some digit that is not
    zero: it is at least half a unit of the last rendered digit. *)
Lemma nonzero_quotient_scaled (amount d : Z) (x : float) :
  0 <= d ->
  int_true_divide amount (10 ^ d) = Some x ->
  nonzero x = true ->
  1 <= scaled_decimal x d.
Proof.
  intros Hd Hdiv Hnz.
  pose proof (int_true_divide_nearest _ _ _ Hdiv) as Hnear.
  assert (HT : 0 < 10 ^ d) by (apply Z.pow_pos_nonneg; lia).
  rewrite (Z.abs_eq (10 ^ d)) in Hnear by lia.
  assert (Hm : 1 <= f_mant x /\ 1 <= Z.abs amount).
  { unfold nonzero in Hnz. apply negb_true_iff, Z.eqb_neq in Hnz.
    unfold int_true_divide in Hdiv.
    destruct (10 ^ d =? 0); [discriminate|].
    rewrite (Z.abs_eq (10 ^ d)) in Hdiv by lia.
    destruct (Z.eqb_spec (Z.abs amount) 0) as [E|E].
    - injection Hdiv as <-. now elim Hnz.
    - cbv zeta in Hdiv. destruct (_ && _); [discriminate|].
      injection Hdiv as <-. cbn [f_mant] in *.
      pose proof (round_half_even_nonneg
                    (scale_num (Z.abs amount)
                               (quotient_exponent (Z.abs amount) (10 ^ d)))
                    (scale_den (10 ^ d)
                               (quotient_exponent (Z.abs amount) (10 ^ d)))) as Hnn.
      unfold scale_num, scale_den in Hnn.
      assert (0 < 2 ^ Z.max 0 (quotient_exponent (Z.abs amount) (10 ^ d)))
        by (apply Z.pow_pos_nonneg; lia).
      assert (0 < 2 ^ Z.max 0 (- quotient_exponent (Z.abs amount) (10 ^ d)))
        by (apply Z.pow_pos_nonneg; lia).
      unfold scale_num, scale_den in Hnz.
      specialize (Hnn ltac:(nia) ltac:(nia)).
      unfold scale_num, scale_den. lia. }
  destruct Hm as [Hm Ha].
  unfold scaled_decimal. apply round_half_even_positive.
  - apply Z.pow_pos_nonneg; lia.
  - unfold scale_num, scale_den in Hnear.
    destruct (Z.le_gt_cases 0 (f_exp x)) as [He|He].
    + rewrite (Z.max_l 0 (- f_exp x)) by lia. rewrite Z.pow_0_r.
      assert (0 < 2 ^ Z.max 0 (f_exp x)) by (apply Z.pow_pos_nonneg; lia).
      nia.
    + rewrite (Z.max_l 0 (f_exp x)) in * by lia.
      rewrite (Z.max_r 0 (- f_exp x)) in * by lia.
      rewrite Z.pow_0_r, Z.mul_1_r in *.
      set (D := 2 ^ (- f_exp x)) in *.
      assert (HD : 0 < D) by (apply Z.pow_pos_nonneg; lia).
      set (T := 10 ^ d) in *.
      assert (HX : T <= f_mant x * T) by nia.
      assert (HY : D <= Z.abs amount * D) by nia.
      lia.
Qed.

Lemma frac_digits_nonzero (d : nat) (n : Z) :
  0 < n < 10 ^ Z.of_nat d ->
  any_char is_nonzero_digit (frac_digits d n) = true.
Proof.
  revert n. induction d as [|k IH]; intros n Hn.
  - simpl in Hn. lia.
  - cbn [frac_digits]. rewrite any_char_append. cbn [any_char].
    rewrite orb_false_r.
    destruct (Z.eq_dec (n mod 10) 0) as [E|E].
    + rewrite IH; [reflexivity|].
      rewrite Nat2Z.inj_succ, Z.pow_succ_r in Hn by lia.
      pose proof (Z.div_mod n 10 ltac:(lia)). split.
      * apply Z.div_str_pos. lia.
      * apply Z.div_lt_upper_bound; lia.
    + unfold is_nonzero_digit.
      rewrite digit_char_is_digit, (digit_char_nonzero _ E).
      apply orb_true_r.
Qed.

Lemma format_f_nonzero_digit (x : float) (d : Z) :
  0 <= d -> 1 <= scaled_decimal x d ->
  any_char is_nonzero_digit (format_f x d) = true.
Proof.
  intros Hd HN. unfold format_f. cbv zeta.
  set (N := scaled_decimal x d) in *.
  assert (HT : 0 < 10 ^ d) by (apply Z.pow_pos_nonneg; lia).
  rewrite !any_char_append.
  destruct (Z.eq_dec (N / 10 ^ d) 0) as [E|E].
  - assert (Hfp : 0 < N mod 10 ^ d < 10 ^ d).
    { pose proof (Z.div_mod N (10 ^ d) ltac:(lia)).
      pose proof (Z.mod_pos_bound N (10 ^ d) HT). lia. }
    destruct (Z.eqb_spec d 0) as [->|Hne].
    + change (10 ^ 0) with 1 in Hfp. lia.
    + cbn [any_char String.append]. rewrite (frac_digits_nonzero (Z.to_nat d)).
      * now rewrite !orb_true_r.
      * rewrite Z2Nat.id by lia. exact Hfp.
  - destruct (str_of_nonneg_leading (N / 10 ^ d)) as (c & rest & Es & Hc).
    { pose proof (Z.div_pos N (10 ^ d) ltac:(lia) HT). lia. }
    pose proof (dec_fuel_digits (S (Z.to_nat (Z.log2 (N / 10 ^ d)))) (N / 10 ^ d))
      as Hall.
    fold (str_of_nonneg (N / 10 ^ d)) in Hall. rewrite Es in Hall |- *.
    simpl in Hall. apply andb_true_iff in Hall as [Hdg _].
    assert (Hnzd : is_nonzero_digit c = true)
      by (unfold is_nonzero_digit; now rewrite Hdg, Hc).
    cbn [any_char]. rewrite Hnzd.
    now rewrite ?orb_true_l, ?orb_true_r.
Qed.

Lemma format_f_number_chars (x : float) (d : Z) :
  PyStr.all_chars is_number_char (format_f x d) = true.
Proof.
  assert (Hdig : forall c, is_digit c = true -> is_number_char c = true)
    by (intros c H; unfold is_number_char; now rewrite H).
  unfold format_f, str_of_nonneg. rewrite !all_chars_append.
  rewrite (all_chars_weaken _ _ _ Hdig (dec_fuel_digits _ _)).
  destruct (f_neg x), (d =? 0); try reflexivity; cbn;
    apply (all_chars_weaken _ _ _ Hdig), frac_digits_digits.
Qed.

End NeverMarker.

(** X10: for [decimals <= 323] the near-zero branch is never taken:
    whenever the formatter returns, it returns the stripped rendering of
    the quotient, made of digits, "." and "-" only, and never the
    "< 0.0...1" marker. *)
Theorem format_never_returns_marker (amount decimals : Z) (s : string) :
  decimals <= 323 ->
  format_token_amount amount decimals = Some s ->
  (exists result,
     PyFloat.int_true_divide amount (10 ^ decimals) = Some result
     /\ s = stripped_rendering result decimals)
  /\ PyStr.all_chars is_number_char s = true
  /\ s <> near_zero_marker decimals.
Proof.
  intros Hmax. unfold format_token_amount.
  destruct (Z.ltb_spec decimals 0) as [|Hd]; [discriminate|].
  destruct (PyFloat.int_true_divide amount (10 ^ decimals)) as [result|] eqn:Hdiv;
    [|discriminate].
  cbv zeta.
  destruct (PyFloat.float_of_text_is_zero _) as [z|] eqn:Hz; [|discriminate].
  assert (Hbranch : z && PyFloat.nonzero result = false).
  { destruct (PyFloat.nonzero result) eqn:Hnz; [|apply andb_false_r].
    rewrite andb_true_r.
    apply (text_with_nonzero_digit _ _ Hz).
    - unfold stripped_rendering. rewrite !any_char_rstrip by reflexivity.
      apply format_f_nonzero_digit; [exact Hd|].
      now apply (nonzero_quotient_scaled amount).
    - unfold stripped_rendering.
      pose proof (after_point_rstrip "." (PyStr.rstrip "0" (PyFloat.format_f result decimals))).
      pose proof (after_point_rstrip "0" (PyFloat.format_f result decimals)).
      rewrite after_point_format_f in * by exact Hd. lia. }
  rewrite Hbranch. intros H. injection H as <-.
  assert (Hchars : PyStr.all_chars is_number_char (stripped_rendering result decimals)
                   = true).
  { unfold stripped_rendering.
    apply rstrip_all_chars, rstrip_all_chars, format_f_number_chars. }
  split; [now exists result|]. split; [exact Hchars|].
  intros E. rewrite E in Hchars. discriminate Hchars.
Qed.

Lemma format_never_returns_marker_witness :
  PyStr.all_chars is_number_char "0.000000000000000001" = true
  /\ "0.000000000000000001" <> near_zero_marker 18.
Proof.
  assert (H : format_token_amount 1 18 = Some "0.000000000000000001")
    by (vm_compute; reflexivity).
  destruct (format_never_returns_marker 1 18 _ ltac:(lia) H) as (_ & Hc & Hne).
  split; [exact Hc | exact Hne].
Defined.

(** ** Whole amounts and zero *)

Section Whole.

Import PyFloat.

Lemma frac_digits_zero (d : nat) :
  frac_digits d 0 = string_of_list_ascii (List.repeat "0"%char d).
Proof.
  induction d as [|k IH]; [reflexivity|].
  cbn [frac_digits]. change (0 / 10) with 0. change (0 mod 10) with 0.
  rewrite IH. cbn [digit_char]. clear IH.
  induction k as [|k IH]; [reflexivity|].
  cbn [List.repeat string_of_list_ascii String.append] in *. now rewrite IH.
Qed.

Lemma rstrip_run (c x : ascii) (n : nat) (s : string) :
  Ascii.eqb x c = false ->
  PyStr.rstrip c (s ++ String x (string_of_list_ascii (List.repeat c n)))
  = s ++ String x "".
Proof.
  intros Hx.
  assert (Hrun : PyStr.rstrip c (string_of_list_ascii (List.repeat c n)) = "").
  { induction n as [|n IH]; [reflexivity|].
    cbn [List.repeat string_of_list_ascii PyStr.rstrip].
    now rewrite IH, Ascii.eqb_refl. }
  induction s as [|a s IH].
  - cbn [String.append PyStr.rstrip]. now rewrite Hrun, Hx.
  - cbn [String.append PyStr.rstrip]. rewrite IH.
    now destruct s.
Qed.

Lemma rstrip_snoc (c : ascii) (s : string) :
  PyStr.rstrip c (s ++ String c "") = PyStr.rstrip c s.
Proof.
  induction s as [|a s IH].
  - simpl. now rewrite Ascii.eqb_refl.
  - cbn [String.append PyStr.rstrip]. now rewrite IH.
Qed.

(** A run of digits, a point and [d] zeros strips to the run of digits. *)
Lemma strip_whole (digits : string) (d : nat) :
  PyStr.all_chars is_digit digits = true ->
  PyStr.rstrip "."
    (PyStr.rstrip "0"
       (digits ++ "." ++ string_of_list_ascii (List.repeat "0"%char d)))
  = digits.
Proof.
  intros Hd. change ("." ++ ?t) with (String "." t).
  rewrite rstrip_run by reflexivity. rewrite rstrip_snoc.
  apply rstrip_fixed. apply (all_chars_weaken is_digit); [|exact Hd].
  intros a Ha. now destruct (digit_facts a Ha) as (-> & _).
Qed.

Lemma exact_quotient (k b : Z) :
  0 < k < 2 ^ 53 -> 0 < b ->
  exists e, e <= 0
            /\ int_true_divide (k * b) b = Some (mkFloat false (k * 2 ^ (- e)) e).
Proof.
  intros [Hk Hlt] Hb.
  set (e := quotient_exponent (k * b) b).
  assert (He : e <= 0).
  { subst e. unfold quotient_exponent, prec, emin.
    pose proof (Z.log2_mul_above k b ltac:(lia) ltac:(lia)) as Hab.
    assert (Z.log2 k < 53) by (apply Z.log2_lt_pow2; lia).
    set (k' := Z.log2 (k * b) - Z.log2 b) in *.
    destruct (Z.ltb_spec (scale_num (k * b) k') (scale_den b k')) as [_|Hge];
      [lia|].
    assert (k' <= 52); [|lia].
    destruct (Z.le_gt_cases k' 52) as [|Hbig]; [assumption|exfalso].
    assert (k' = 53) by lia.
    unfold scale_num, scale_den in Hge.
    rewrite (Z.max_l 0 (- k')), (Z.max_r 0 k') in Hge by lia.
    rewrite Z.pow_0_r in Hge. replace k' with 53 in Hge. nia. }
  exists e. split; [exact He|].
  assert (Hp : 0 < 2 ^ (- e)) by (apply Z.pow_pos_nonneg; lia).
  unfold int_true_divide.
  replace (b =? 0) with false by (symmetry; apply Z.eqb_neq; lia).
  replace (k * b <? 0) with false by (symmetry; apply Z.ltb_ge; nia).
  replace (b <? 0) with false by (symmetry; apply Z.ltb_ge; lia).
  cbn [xorb]. rewrite (Z.abs_eq (k * b)), (Z.abs_eq b) by nia.
  replace (k * b =? 0) with false by (symmetry; apply Z.eqb_neq; nia).
  cbv zeta. fold e. unfold scale_num, scale_den.
  rewrite (Z.max_r 0 (- e)), (Z.max_l 0 e) by lia.
  rewrite Z.pow_0_r, Z.mul_1_r.
  replace (k * b * 2 ^ (- e)) with (k * 2 ^ (- e) * b) by ring.
  rewrite round_half_even_exact by exact Hb.
  destruct (Z.leb_spec 0 e) as [H0|H0]; [|reflexivity].
  assert (e = 0) by lia. replace e with 0 in *.
  cbn [andb]. change (- 0) with 0. rewrite !Z.pow_0_r, !Z.mul_1_r.
  replace (2 ^ emax <=? k) with false; [reflexivity|].
  symmetry. apply Z.leb_gt. unfold emax.
  assert (2 ^ 53 < 2 ^ 1024) by (apply Z.pow_lt_mono_r; lia). lia.
Qed.

Lemma whole_rendering (k e d : Z) :
  0 <= k -> e <= 0 -> 0 < d ->
  format_f (mkFloat false (k * 2 ^ (- e)) e) d
  = str_of_nonneg k ++ "."
    ++ string_of_list_ascii (List.repeat "0"%char (Z.to_nat d)).
Proof.
  intros Hk He Hd.
  assert (Hp : 0 < 2 ^ (- e)) by (apply Z.pow_pos_nonneg; lia).
  assert (HT : 0 < 10 ^ d) by (apply Z.pow_pos_nonneg; lia).
  unfold format_f, scaled_decimal. cbn [f_neg f_mant f_exp].
  rewrite (Z.max_l 0 e), (Z.max_r 0 (- e)) by lia.
  rewrite Z.pow_0_r, Z.mul_1_r.
  replace (k * 2 ^ (- e) * 10 ^ d) with (k * 10 ^ d * 2 ^ (- e)) by ring.
  rewrite round_half_even_exact by exact Hp.
  rewrite Z.div_mul, Z.mod_mul by lia.
  replace (d =? 0) with false by (symmetry; apply Z.eqb_neq; lia).
  now rewrite frac_digits_zero.
Qed.

End Whole.

(** X11: a whole number of tokens is shown as that number: for
    [0 < k < 2^53] and [decimals > 0], the amount [k * 10^decimals] is
    formatted as the decimal digits of [k], trailing zeros included. *)
Theorem format_whole_amount (k decimals : Z) :
  0 < k < 2 ^ 53 -> 0 < decimals ->
  format_token_amount (k * 10 ^ decimals) decimals = Some (PyFloat.str_of_nonneg k)
  /\ digits_value (PyFloat.str_of_nonneg k) = k.
Proof.
  intros Hk Hd. split; [|apply str_of_nonneg_value; lia].
  assert (HT : 0 < 10 ^ decimals) by (apply Z.pow_pos_nonneg; lia).
  destruct (exact_quotient k (10 ^ decimals) Hk HT) as (e & He & Hdiv).
  unfold format_token_amount.
  replace (decimals <? 0) with false by (symmetry; apply Z.ltb_ge; lia).
  rewrite Hdiv. cbv zeta. unfold stripped_rendering.
  rewrite whole_rendering by lia.
  rewrite strip_whole by apply dec_fuel_digits.
  destruct (str_of_nonneg_leading k) as (c & rest & E & Hc); [lia|].
  pose proof (dec_fuel_digits (S (Z.to_nat (Z.log2 k))) k) as Hall.
  fold (PyFloat.str_of_nonneg k) in Hall. rewrite E in Hall |- *.
  simpl in Hall. apply andb_true_iff in Hall as [Hdg Hrest].
  now rewrite (digits_text_not_zero c rest Hdg Hc Hrest).
Qed.

Lemma format_whole_amount_witness :
  format_token_amount (100 * 10 ^ 18) 18 = Some (PyFloat.str_of_nonneg 100).
Proof.
  refine (proj1 (format_whole_amount 100 18 _ _)); [split|]; reflexivity.
Defined.

(** X12: a zero amount is shown as "0" for every positive [decimals];
    with [decimals = 0] (the rendering "0" is stripped to the empty
    text, which [float] rejects) and with negative [decimals] the
    formatter raises. *)
Theorem format_zero_amount (decimals : Z) :
  format_token_amount 0 decimals = if 0 <? decimals then Some "0" else None.
Proof.
  unfold format_token_amount.
  destruct (Z.ltb_spec decimals 0) as [Hneg|Hd].
  - replace (0 <? decimals) with false by (symmetry; apply Z.ltb_ge; lia).
    reflexivity.
  - destruct (Z.ltb_spec 0 decimals) as [Hpos|Hz].
    + assert (HT : 0 < 10 ^ decimals) by (apply Z.pow_pos_nonneg; lia).
      unfold PyFloat.int_true_divide.
      replace (10 ^ decimals =? 0) with false by (symmetry; apply Z.eqb_neq; lia).
      replace (10 ^ decimals <? 0) with false by (symmetry; apply Z.ltb_ge; lia).
      cbn [Z.ltb Z.compare xorb Z.abs Z.eqb]. cbv zeta.
      unfold stripped_rendering.
      pose proof (whole_rendering 0 0 decimals ltac:(lia) ltac:(lia) Hpos) as Hr.
      cbn [Z.mul] in Hr. rewrite Hr.
      rewrite strip_whole by reflexivity. reflexivity.
    + assert (decimals = 0) by lia. subst decimals. vm_compute. reflexivity.
Qed.

(** ** What the stripped rendering denotes *)

Section ExactText.

Import PyFloat.

Lemma digits_value_from (s : string) : digits_value s = value_from 0 s.
Proof.
  unfold digits_value.
  enough (H : forall n, fold_left (fun n c => 10 * n + match PyFloat.digit_value c with
                                                        | Some v => v
                                                        | None => 0
                                                        end)
                          (list_ascii_of_string s) n = value_from n s) by apply H.
  induction s as [|c t IH]; intros n; [reflexivity|]. simpl. apply IH.
Qed.

Lemma value_from_split (s : string) (n : Z) :
  value_from n s = n * 10 ^ Z.of_nat (String.length s) + value_from 0 s.
Proof.
  revert n. induction s as [|c t IH]; intros n.
  - simpl. lia.
  - cbn [value_from String.length]. rewrite IH, (IH (10 * 0 + _)).
    rewrite Nat2Z.inj_succ, Z.pow_succ_r by lia. ring.
Qed.

Lemma value_from_app (s t : string) (n : Z) :
  value_from n (s ++ t) = value_from (value_from n s) t.
Proof. revert n. induction s as [|c s IH]; intros n; [reflexivity | apply IH]. Qed.

Lemma value_from_zeros (z : nat) (n : Z) :
  value_from n (string_of_list_ascii (List.repeat "0"%char z)) = n * 10 ^ Z.of_nat z.
Proof.
  revert n. induction z as [|z IH]; intros n.
  - simpl. lia.
  - cbn [List.repeat string_of_list_ascii value_from]. rewrite IH.
    change (digit_value "0") with (Some 0).
    rewrite Nat2Z.inj_succ, Z.pow_succ_r by lia. ring.
Qed.

Lemma value_from_nonneg (s : string) (n : Z) :
  0 <= n -> PyStr.all_chars is_digit s = true -> 0 <= value_from n s.
Proof.
  revert n. induction s as [|c t IH]; intros n Hn H; [exact Hn|].
  simpl in H. apply andb_true_iff in H as [Hc Ht].
  destruct (digit_facts c Hc) as (_ & _ & v & Hv & Hr & _).
  cbn [value_from]. rewrite Hv. apply IH; [lia | exact Ht].
Qed.

(** Reading through a run of digits. *)
Lemma parse_through_digits (ds t : string) (seen : bool) (n k c : Z) :
  PyStr.all_chars is_digit ds = true ->
  parse_unsigned (ds ++ t) seen n k c
  = parse_unsigned t seen (value_from n ds)
      (if seen then k + Z.of_nat (String.length ds) else k)
      (c + Z.of_nat (String.length ds)).
Proof.
  revert n k c. induction ds as [|a ds IH]; intros n k c H.
  - simpl. rewrite !Z.add_0_r. now destruct seen.
  - simpl in H. apply andb_true_iff in H as [Ha Hds].
    destruct (digit_facts a Ha) as (Hdot & _ & v & Hv & _).
    cbn [String.append parse_unsigned value_from String.length].
    rewrite Hdot, Hv, (IH _ _ _ Hds). rewrite Nat2Z.inj_succ.
    destruct seen; f_equal; lia.
Qed.

Lemma rstrip_append_nonempty (c : ascii) (s t : string) :
  PyStr.rstrip c t <> "" -> PyStr.rstrip c (s ++ t) = s ++ PyStr.rstrip c t.
Proof.
  intros Ht. induction s as [|a s IH]; [reflexivity|].
  cbn [String.append PyStr.rstrip]. rewrite IH.
  destruct (s ++ PyStr.rstrip c t) eqn:E; [|reflexivity].
  exfalso. destruct s; [now apply Ht | discriminate E].
Qed.

Lemma rstrip_digits_point (s : string) :
  PyStr.all_chars is_digit s = true -> PyStr.rstrip "." s = s.
Proof.
  intros H. apply rstrip_fixed. apply (all_chars_weaken is_digit); [|exact H].
  intros a Ha. now destruct (digit_facts a Ha) as (-> & _).
Qed.

(** Digits, a point and digits: stripped of trailing zeros and then of a
    trailing point, the text is the integer digits alone or followed by
    the point and the fraction digits without their trailing zeros. *)
Lemma strip_fixed_point (int_part frac_part : string) :
  PyStr.all_chars is_digit int_part = true ->
  PyStr.all_chars is_digit frac_part = true ->
  let kept := PyStr.rstrip "0" frac_part in
  PyStr.rstrip "." (PyStr.rstrip "0" (int_part ++ "." ++ frac_part))
  = match kept with
    | EmptyString => int_part
    | String _ _ => int_part ++ "." ++ kept
    end.
Proof.
  intros Hi Hf kept.
  assert (Hk : PyStr.all_chars is_digit kept = true) by now apply rstrip_all_chars.
  change ("." ++ ?t) with (String "." t).
  assert (E0 : PyStr.rstrip "0" (String "." frac_part) = String "." kept)
    by now apply rstrip_cons.
  rewrite rstrip_append_nonempty by (rewrite E0; discriminate).
  rewrite E0. subst kept. destruct (PyStr.rstrip "0" frac_part) as [|a u] eqn:E.
  - rewrite rstrip_snoc. now apply rstrip_digits_point.
  - assert (E1 : PyStr.rstrip "." (String "." (String a u)) = String "." (String a u)).
    { cbn [PyStr.rstrip]. fold (PyStr.rstrip "." (String a u)).
      change (match PyStr.rstrip "." (String a u) with
              | "" => if Ascii.eqb "." "." then "" else String "." ""
              | String a0 s0 => String "." (String a0 s0)
              end = String "." (String a u)).
      now rewrite (rstrip_digits_point _ Hk). }
    rewrite rstrip_append_nonempty by (rewrite E1; discriminate).
    now rewrite E1.
Qed.


Lemma frac_digits_value (d : nat) (n : Z) :
  0 <= n -> digits_value (frac_digits d n) = n mod 10 ^ Z.of_nat d.
Proof.
  revert n. induction d as [|k IH]; intros n Hn.
  - simpl. now rewrite Z.mod_1_r.
  - cbn [frac_digits]. rewrite digits_value_snoc, IH by (apply Z.div_pos; lia).
    rewrite digit_value_char by (pose proof (Z.mod_pos_bound n 10); lia).
    rewrite Nat2Z.inj_succ, Z.pow_succ_r by lia.
    assert (HT : 0 < 10 ^ Z.of_nat k) by (apply Z.pow_pos_nonneg; lia).
    rewrite (Z.rem_mul_r n 10 (10 ^ Z.of_nat k)) by lia. lia.
Qed.

Lemma parse_decimal_from_digit (c : ascii) (rest : string) :
  is_digit c = true ->
  parse_decimal (String c rest)
  = option_map (pair false) (parse_unsigned (String c rest) false 0 0 0).
Proof.
  intros H. destruct (digit_facts c H) as (_ & Hm & _).
  destruct c as [b0 b1 b2 b3 b4 b5 b6 b7].
  destruct b0, b1, b2, b3, b4, b5, b6, b7; try reflexivity; discriminate Hm.
Qed.

(** The digits of a fixed-point text, read back. *)
Lemma fixed_point_reads (int_part kept : string) :
  int_part <> "" ->
  PyStr.all_chars is_digit int_part = true ->
  PyStr.all_chars is_digit kept = true ->
  parse_unsigned
    (match kept with
     | EmptyString => int_part
     | String _ _ => int_part ++ "." ++ kept
     end) false 0 0 0
  = Some (value_from (value_from 0 int_part) kept, Z.of_nat (String.length kept)).
Proof.
  intros Hne Hi Hk.
  assert (Hlen : 0 < Z.of_nat (String.length int_part)).
  { destruct int_part; [now elim Hne | simpl; lia]. }
  destruct kept as [|a u]; cbv iota.
  - rewrite <- (append_empty_r int_part) at 1.
    rewrite parse_through_digits by exact Hi.
    cbn [parse_unsigned value_from String.length].
    destruct (Z.ltb_spec 0 (0 + Z.of_nat (String.length int_part))); [reflexivity | lia].
  - change ("." ++ String a u) with (String "." (String a u)).
    rewrite parse_through_digits by exact Hi.
    change (parse_unsigned (String "." (String a u)) false ?n ?k ?c)
      with (parse_unsigned (String a u) true n k c).
    rewrite <- (append_empty_r (String a u)) at 1.
    rewrite parse_through_digits by exact Hk.
    cbn [parse_unsigned].
    destruct (Z.ltb_spec 0 (0 + Z.of_nat (String.length int_part)
                            + Z.of_nat (String.length (String a u)))); [|lia].
    reflexivity.
Qed.

(** For [1 <= d] stripping removes zeros after the point, and the point
    with them when no other digit follows it. *)
Lemma stripped_rendering_shape (x : float) (d : Z) :
  1 <= d ->
  let shown := scaled_decimal x d in
  let int_part := str_of_nonneg (shown / 10 ^ d) in
  let kept := PyStr.rstrip "0" (frac_digits (Z.to_nat d) (shown mod 10 ^ d)) in
  stripped_rendering x d
  = (if f_neg x then "-" else "")
    ++ int_part
    ++ match kept with
       | EmptyString => ""
       | String _ _ => "." ++ kept
       end.
Proof.
  intros Hd shown int_part kept. unfold stripped_rendering, format_f. cbv zeta.
  fold shown. fold int_part.
  destruct (Z.eqb_spec d 0) as [|_]; [lia|].
  assert (Hbody : PyStr.rstrip "."
                    (PyStr.rstrip "0"
                       (int_part ++ "." ++ frac_digits (Z.to_nat d) (shown mod 10 ^ d)))
                  = int_part ++ match kept with
                                | EmptyString => ""
                                | String _ _ => "." ++ kept
                                end).
  { rewrite strip_fixed_point by (apply dec_fuel_digits || apply frac_digits_digits).
    fold kept. destruct kept; [now rewrite append_empty_r | reflexivity]. }
  destruct (f_neg x).
  - change ("-" ++ ?t) with (String "-" t).
    rewrite (rstrip_cons "0" "-") by reflexivity.
    rewrite (rstrip_cons "." "-") by reflexivity.
    now rewrite Hbody.
  - change ("" ++ ?t) with t. exact Hbody.
Qed.

(** For [1 <= d] the stripped rendering reads back as the rendered
    decimal itself. *)
Lemma stripped_reads (x : float) (d : Z) :
  1 <= d -> 0 <= scaled_decimal x d ->
  exists n k,
    parse_decimal (stripped_rendering x d) = Some (f_neg x, (n, k))
    /\ 0 <= k <= d /\ 0 <= n
    /\ n * 10 ^ d = scaled_decimal x d * 10 ^ k.
Proof.
  intros Hd HN. rewrite stripped_rendering_shape by exact Hd. cbv zeta.
  set (N := scaled_decimal x d) in *.
  assert (HT : 0 < 10 ^ d) by (apply Z.pow_pos_nonneg; lia).
  set (ip := N / 10 ^ d). set (fp := N mod 10 ^ d).
  assert (Hip : 0 <= ip) by (apply Z.div_pos; lia).
  assert (Hfp : 0 <= fp < 10 ^ d) by (apply Z.mod_pos_bound; lia).
  assert (HNeq : N = ip * 10 ^ d + fp).
  { subst ip fp. pose proof (Z.div_mod N (10 ^ d)). lia. }
  set (int_part := str_of_nonneg ip).
  set (frac_part := frac_digits (Z.to_nat d) fp).
  assert (Hi : PyStr.all_chars is_digit int_part = true) by apply dec_fuel_digits.
  assert (Hine : int_part <> "") by apply dec_fuel_nonempty.
  assert (Hf : PyStr.all_chars is_digit frac_part = true) by apply frac_digits_digits.
  assert (Hvi : value_from 0 int_part = ip).
  { rewrite <- digits_value_from. now apply str_of_nonneg_value. }
  assert (Hvf : value_from 0 frac_part = fp).
  { rewrite <- digits_value_from. subst frac_part.
    rewrite frac_digits_value by lia. rewrite Z2Nat.id by lia.
    apply Z.mod_small. exact Hfp. }
  assert (Hlf : Z.of_nat (String.length frac_part) = d).
  { subst frac_part. rewrite frac_digits_length. lia. }
  set (kept := PyStr.rstrip "0" frac_part).
  assert (Hk : PyStr.all_chars is_digit kept = true) by now apply rstrip_all_chars.
  destruct (rstrip_decompose "0" frac_part) as [z Hz]. fold kept in Hz.
  assert (Hlz : d = Z.of_nat (String.length kept) + Z.of_nat z).
  { rewrite <- Hlf, Hz at 1. rewrite append_length.
    rewrite Nat2Z.inj_add. f_equal. f_equal.
    clear. induction z as [|z IH]; [reflexivity | simpl; now rewrite IH]. }
  assert (Hvk : fp = value_from 0 kept * 10 ^ Z.of_nat z).
  { rewrite <- Hvf, Hz at 1. now rewrite value_from_app, value_from_zeros. }
  set (body := int_part ++ match kept with
                           | EmptyString => ""
                           | String _ _ => "." ++ kept
                           end).
  assert (Hread : parse_unsigned body false 0 0 0
                  = Some (value_from (value_from 0 int_part) kept,
                          Z.of_nat (String.length kept))).
  { rewrite <- (fixed_point_reads int_part kept Hine Hi Hk).
    subst body. destruct kept; [now rewrite append_empty_r | reflexivity]. }
  exists (value_from (value_from 0 int_part) kept), (Z.of_nat (String.length kept)).
  split; [|split; [lia|split]].
  - destruct (f_neg x).
    + change ("-" ++ ?t) with (String "-" t).
      cbn [parse_decimal]. now rewrite Hread.
    + change ("" ++ ?t) with t.
      assert (Hstart : exists c rest, body = String c rest /\ is_digit c = true).
      { subst body. destruct int_part as [|c rest] eqn:E; [now elim Hine|].
        simpl in Hi. apply andb_true_iff in Hi as [Hc _].
        eexists _, _. split; [reflexivity | exact Hc]. }
      destruct Hstart as (c & rest & Eb & Hc).
      rewrite Eb in Hread |- *.
      rewrite parse_decimal_from_digit by exact Hc. now rewrite Hread.
  - apply value_from_nonneg; [|exact Hk]. rewrite Hvi. exact Hip.
  - rewrite (value_from_split kept), Hvi, HNeq, Hvk.
    set (K := Z.of_nat (String.length kept)) in *.
    rewrite Hlz, Z.pow_add_r by lia. ring.
Qed.

Lemma int_true_divide_range (a b : Z) (x : float) :
  int_true_divide a b = Some x -> 0 <= f_mant x /\ emin <= f_exp x.
Proof.
  unfold int_true_divide.
  destruct (b =? 0) eqn:Hb; [discriminate|]. apply Z.eqb_neq in Hb.
  destruct (Z.abs a =? 0).
  - intros H. injection H as <-. cbn. unfold emin. lia.
  - cbv zeta. destruct ((0 <=? _) && _); [discriminate|].
    intros H. injection H as <-. cbn [f_mant f_exp]. split.
    + apply round_half_even_nonneg.
      * unfold scale_num. apply Z.mul_nonneg_nonneg; [lia|]. apply Z.pow_nonneg. lia.
      * unfold scale_den. apply Z.mul_pos_pos; [lia|]. apply Z.pow_pos_nonneg; lia.
    + unfold quotient_exponent. cbv zeta. apply Z.le_max_l.
Qed.

(** A quotient that is not zero is rendered as a decimal above half the
    least subnormal, whatever the number of digits. *)
Lemma nonzero_scaled_large (amount d : Z) (x : float) :
  0 <= d ->
  int_true_divide amount (10 ^ d) = Some x ->
  nonzero x = true ->
  10 ^ d < scaled_decimal x d * 2 ^ (1 - emin).
Proof.
  intros Hd Hdiv Hnz.
  pose proof (nonzero_quotient_scaled _ _ _ Hd Hdiv Hnz) as HN.
  destruct (int_true_divide_range _ _ _ Hdiv) as [Hm He].
  unfold nonzero in Hnz. apply negb_true_iff, Z.eqb_neq in Hnz.
  assert (HT : 0 < 10 ^ d) by (apply Z.pow_pos_nonneg; lia).
  assert (Herr := round_half_even_error
                    (f_mant x * 2 ^ Z.max 0 (f_exp x) * 10 ^ d)
                    (2 ^ Z.max 0 (- f_exp x))
                    ltac:(apply Z.pow_pos_nonneg; lia)).
  fold (scaled_decimal x d) in Herr.
  set (N := scaled_decimal x d) in *. set (T := 10 ^ d) in *.
  unfold emin in *.
  assert (HA : 2 <= 2 ^ (1 - -1074)).
  { change 2 with (2 ^ 1) at 1. apply Z.pow_le_mono_r; lia. }
  destruct (Z.le_gt_cases 0 (f_exp x)) as [Hpos|Hneg].
  - rewrite (Z.max_l 0 (- f_exp x)) in Herr by lia.
    rewrite (Z.max_r 0 (f_exp x)) in Herr by lia.
    rewrite Z.pow_0_r in Herr.
    assert (HP : 0 < 2 ^ f_exp x) by (apply Z.pow_pos_nonneg; lia).
    assert (HNeq : N = f_mant x * 2 ^ f_exp x * T) by lia.
    assert (HmP : 1 <= f_mant x * 2 ^ f_exp x) by nia.
    assert (HNT : T <= N) by (rewrite HNeq; nia).
    assert (N * 2 <= N * 2 ^ (1 - -1074)) by (apply Z.mul_le_mono_nonneg_l; lia).
    lia.
  - rewrite (Z.max_r 0 (- f_exp x)) in Herr by lia.
    rewrite (Z.max_l 0 (f_exp x)) in Herr by lia.
    rewrite Z.pow_0_r, Z.mul_1_r in Herr.
    replace (1 - -1074) with (1 + (- f_exp x) + (1074 + f_exp x)) by lia.
    rewrite !Z.pow_add_r by lia. change (2 ^ 1) with 2.
    set (D := 2 ^ (- f_exp x)) in *.
    set (Q := 2 ^ (1074 + f_exp x)).
    assert (HD : 0 < D) by (apply Z.pow_pos_nonneg; lia).
    assert (HQ : 1 <= Q).
    { change 1 with (2 ^ 0). apply Z.pow_le_mono_r; lia. }
    assert (HmT : T <= f_mant x * T) by nia.
    assert (HND : D <= N * D) by nia.
    assert (H2 : T < 2 * N * D) by lia.
    assert (2 * N * D * 1 <= 2 * N * D * Q) by (apply Z.mul_le_mono_nonneg_l; lia).
    replace (N * (2 * D * Q)) with (2 * N * D * Q) by ring. lia.
Qed.

(** The near-zero test never fires: a text that reads as zero comes from
    a quotient that is zero. *)
Lemma near_zero_branch_dead (amount d : Z) (x : float) (z : bool) :
  0 <= d ->
  int_true_divide amount (10 ^ d) = Some x ->
  float_of_text_is_zero (stripped_rendering x d) = Some z ->
  z && nonzero x = false.
Proof.
  intros Hd Hdiv Hz.
  destruct (nonzero x) eqn:Hnz; [|apply andb_false_r].
  rewrite andb_true_r.
  pose proof (nonzero_quotient_scaled _ _ _ Hd Hdiv Hnz) as HN.
  destruct (Z.eq_dec d 0) as [->|Hd0].
  - apply (text_with_nonzero_digit _ _ Hz).
    + unfold stripped_rendering. rewrite !any_char_rstrip by reflexivity.
      now apply format_f_nonzero_digit.
    + unfold stripped_rendering.
      pose proof (after_point_rstrip "." (PyStr.rstrip "0" (format_f x 0))).
      pose proof (after_point_rstrip "0" (format_f x 0)).
      rewrite after_point_format_f in * by lia. lia.
  - destruct (stripped_reads x d) as (n & k & Hp & Hk & Hn & Hnk); [lia | lia |].
    unfold float_of_text_is_zero in Hz. rewrite Hp in Hz. injection Hz as <-.
    apply Z.leb_gt.
    pose proof (nonzero_scaled_large _ _ _ Hd Hdiv Hnz) as Hlarge.
    assert (HT : 0 < 10 ^ d) by (apply Z.pow_pos_nonneg; lia).
    assert (HK : 0 < 10 ^ k) by (apply Z.pow_pos_nonneg; lia).
    assert (HA : 0 < 2 ^ (1 - emin)) by (apply Z.pow_pos_nonneg; unfold emin; lia).
    set (N := scaled_decimal x d) in *. set (A := 2 ^ (1 - emin)) in *.
    set (T := 10 ^ d) in *. set (K := 10 ^ k) in *.
    destruct (Z.lt_ge_cases K (n * A)) as [Hlt|Hge]; [exact Hlt|].
    exfalso.
    assert (H1 : n * A * T <= K * T) by (apply Z.mul_le_mono_nonneg_r; lia).
    assert (H2 : 0 < K * (N * A - T)) by (apply Z.mul_pos_pos; lia).
    assert (H3 : n * T * A = N * K * A) by (rewrite Hnk; reflexivity).
    lia.
Qed.


End ExactText.



(** C1, as the code has it: format(1, 18) is the plain rendering
    "0.000000000000000001", and the "< 0.0...1" marker is never
    returned.  For every amount and every number of decimals the
    formatter gives what it would give without its near-zero branch: a
    rendering that reads as zero comes from a quotient that is zero, so
    an amount too small for any float, as 1 at 400 decimals, comes back
    as "0". *)
Theorem near_zero_marker_never_returned :
  format_token_amount 1 18 = Some "0.000000000000000001"
  /\ format_token_amount 1 400 = Some "0"
  /\ (forall amount decimals : Z,
        format_token_amount amount decimals
        = if decimals <? 0 then None
          else
            match PyFloat.int_true_divide amount (10 ^ decimals) with
            | None => None
            | Some result =>
                match PyFloat.float_of_text_is_zero
                        (stripped_rendering result decimals) with
                | None => None
                | Some _ => Some (stripped_rendering result decimals)
                end
            end)
  /\ (forall (amount decimals : Z) (s : string),
        format_token_amount amount decimals = Some s ->
        s <> near_zero_marker decimals
        /\ exists result,
             PyFloat.int_true_divide amount (10 ^ decimals) = Some result
             /\ s = stripped_rendering result decimals
             /\ (PyFloat.float_of_text_is_zero s = Some true ->
                 PyFloat.nonzero result = false)).
Proof.
  split; [vm_compute; reflexivity|].
  split; [vm_compute; reflexivity|].
  assert (Hsame : forall amount decimals : Z,
            format_token_amount amount decimals
            = if decimals <? 0 then None
              else
                match PyFloat.int_true_divide amount (10 ^ decimals) with
                | None => None
                | Some result =>
                    match PyFloat.float_of_text_is_zero
                            (stripped_rendering result decimals) with
                    | None => None
                    | Some _ => Some (stripped_rendering result decimals)
                    end
                end).
  { intros amount decimals. unfold format_token_amount.
    destruct (Z.ltb_spec decimals 0) as [|Hd]; [reflexivity|].
    destruct (PyFloat.int_true_divide amount (10 ^ decimals)) as [result|] eqn:Hdiv;
      [|reflexivity].
    cbv zeta.
    destruct (PyFloat.float_of_text_is_zero _) as [z|] eqn:Hz; [|reflexivity].
    now rewrite (near_zero_branch_dead _ _ _ _ Hd Hdiv Hz). }
  split; [exact Hsame|].
  intros amount decimals s. rewrite Hsame.
  destruct (Z.ltb_spec decimals 0) as [|Hd]; [discriminate|].
  destruct (PyFloat.int_true_divide amount (10 ^ decimals)) as [result|] eqn:Hdiv;
    [|discriminate].
  destruct (PyFloat.float_of_text_is_zero _) as [z|] eqn:Hz; [|discriminate].
  intros Hs. injection Hs as <-.
  assert (Hchars : PyStr.all_chars is_number_char (stripped_rendering result decimals)
                   = true).
  { unfold stripped_rendering.
    apply rstrip_all_chars, rstrip_all_chars, format_f_number_chars. }
  split.
  - intros E. rewrite E in Hchars. discriminate Hchars.
  - exists result. split; [reflexivity|]. split; [reflexivity|].
    intros Htrue. rewrite Htrue in Hz. injection Hz as <-.
    exact (near_zero_branch_dead _ _ _ _ Hd Hdiv Htrue).
Qed.

Lemma near_zero_marker_never_returned_witness :
  format_token_amount 1 400 = Some "0" /\ "0" <> near_zero_marker 400.
Proof.
  assert (H : format_token_amount 1 400 = Some "0") by (vm_compute; reflexivity).
  split; [exact H|].
  destruct near_zero_marker_never_returned as (_ & _ & _ & Hall).
  exact (proj1 (Hall 1 400 "0" H)).
Defined.

(** ** The ledger file *)

Section LedgerFileFacts.

Import LedgerFile.

Lemma LF_is_space : is_space LF = true.
Proof. reflexivity. Qed.

Lemma ledger_rstrip_snoc (s : string) (c : ascii) :
  is_space c = true -> rstrip (s ++ String c "") = rstrip s.
Proof.
  intros Hc. induction s as [|a s IH].
  - simpl. now rewrite Hc.
  - cbn [String.append rstrip]. now rewrite IH.
Qed.

Lemma ledger_rstrip_clean (s : string) : ends_clean s = true -> rstrip s = s.
Proof.
  induction s as [|a t IH]; [discriminate|].
  cbn [ends_clean rstrip]. destruct t as [|b u].
  - intros H. apply negb_true_iff in H. simpl. now rewrite H.
  - intros H. rewrite (IH H). reflexivity.
Qed.

Lemma rstrip_ends_clean (s : string) :
  nonempty (rstrip s) = true -> ends_clean (rstrip s) = true.
Proof.
  induction s as [|a t IH]; [discriminate|].
  cbn [rstrip]. destruct (rstrip t) as [|b u] eqn:E.
  - destruct (is_space a) eqn:Ea; [discriminate|]. intros _. simpl. now rewrite Ea.
  - intros _. cbn [ends_clean]. now apply IH.
Qed.

Lemma rstrip_starts_clean (s : string) :
  starts_clean s = true -> nonempty (rstrip s) = true ->
  starts_clean (rstrip s) = true.
Proof.
  destruct s as [|a t]; [discriminate|]. cbn [starts_clean rstrip].
  intros Ha _. destruct (rstrip t); [|exact Ha].
  apply negb_true_iff in Ha. rewrite Ha. simpl. now rewrite Ha.
Qed.

Lemma lstrip_starts_clean (s : string) :
  nonempty (lstrip s) = true -> starts_clean (lstrip s) = true.
Proof.
  induction s as [|a t IH]; [discriminate|].
  cbn [lstrip]. destruct (is_space a) eqn:Ea; [exact IH|].
  intros _. simpl. now rewrite Ea.
Qed.

Lemma lstrip_all_chars (P : ascii -> bool) (s : string) :
  PyStr.all_chars P s = true -> PyStr.all_chars P (lstrip s) = true.
Proof.
  induction s as [|a t IH]; [reflexivity|].
  cbn [lstrip]. intros H. destruct (is_space a); [|exact H].
  simpl in H. apply andb_true_iff in H as [_ Ht]. now apply IH.
Qed.

Lemma ledger_rstrip_all_chars (P : ascii -> bool) (s : string) :
  PyStr.all_chars P s = true -> PyStr.all_chars P (rstrip s) = true.
Proof.
  induction s as [|a t IH]; [reflexivity|].
  cbn [rstrip]. intros H. simpl in H. apply andb_true_iff in H as [Ha Ht].
  specialize (IH Ht). destruct (rstrip t) as [|b u].
  - destruct (is_space a); simpl; [reflexivity | now rewrite Ha].
  - simpl in IH |- *. now rewrite Ha.
Qed.

Lemma rstrip_empty_nonempty (s : string) :
  rstrip s = "" -> nonempty (rstrip s) = false.
Proof. now intros ->. Qed.

(** Stripping ignores the line's own "\n". *)
Lemma strip_line (body : string) : strip (body ++ String LF "") = strip body.
Proof.
  unfold strip.
  assert (H : lstrip (body ++ String LF "") = lstrip body ++ String LF ""
              \/ (lstrip (body ++ String LF "") = "" /\ lstrip body = "")).
  { induction body as [|a t IH].
    - right. split; reflexivity.
    - cbn [String.append lstrip]. destruct (is_space a); [exact IH | now left]. }
  destruct H as [-> | [-> ->]]; [|reflexivity].
  now apply ledger_rstrip_snoc.
Qed.

Lemma strip_clean (s : string) : clean s = true -> strip s = s.
Proof.
  unfold clean, strip. intros H.
  apply andb_true_iff in H as [H _]. apply andb_true_iff in H as [Hs He].
  destruct s as [|a t]; [discriminate|].
  cbn [starts_clean] in Hs. apply negb_true_iff in Hs.
  cbn [lstrip]. rewrite Hs. now apply ledger_rstrip_clean.
Qed.

Lemma clean_nonempty (s : string) : clean s = true -> nonempty s = true.
Proof. destruct s; [discriminate | reflexivity]. Qed.

(** A stripped text free of line breaks is clean unless it is empty. *)
Lemma strip_is_clean (body : string) :
  no_line_break body = true -> nonempty (strip body) = true ->
  clean (strip body) = true.
Proof.
  unfold strip, clean. intros Hb Hne.
  assert (Hl : nonempty (lstrip body) = true).
  { destruct (lstrip body); [discriminate Hne | reflexivity]. }
  rewrite rstrip_starts_clean, rstrip_ends_clean;
    try assumption; [|now apply lstrip_starts_clean].
  cbn [andb]. unfold no_line_break in *.
  now apply ledger_rstrip_all_chars, lstrip_all_chars.
Qed.

Lemma universal_newlines_no_CR (s : string) :
  PyStr.all_chars (fun c => negb (Ascii.eqb c CR)) (universal_newlines s) = true.
Proof.
  assert (H : forall n s, (String.length s <= n)%nat ->
              PyStr.all_chars (fun c => negb (Ascii.eqb c CR))
                              (universal_newlines s) = true).
  { clear s. induction n as [|n IH]; intros s Hlen.
    - destruct s; [reflexivity | simpl in Hlen; lia].
    - destruct s as [|a t]; [reflexivity|]. simpl in Hlen.
      cbn [universal_newlines]. destruct (Ascii.eqb a CR) eqn:Ea.
      + cbn [PyStr.all_chars]. change (negb (Ascii.eqb LF CR)) with true.
        cbn [andb]. destruct t as [|b t']; [reflexivity|].
        simpl in Hlen. destruct (Ascii.eqb b LF); apply IH; simpl; lia.
      + cbn [PyStr.all_chars]. rewrite Ea. cbn [negb andb]. apply IH. lia. }
  now apply (H (String.length s)).
Qed.

(** Each line that [readlines] returns is a text without "\n", followed
    by at most one "\n"; a "\r" occurs in a line only if it occurs in
    the text. *)
Lemma readlines_shape (P : ascii -> bool) (s : string) :
  PyStr.all_chars P s = true ->
  Forall (fun line => exists body,
            (line = body \/ line = body ++ String LF "")
            /\ PyStr.all_chars (fun c => negb (Ascii.eqb c LF) && P c) body = true)
         (readlines s).
Proof.
  induction s as [|a t IH]; intros H; [constructor|].
  simpl in H. apply andb_true_iff in H as [Ha Ht]. specialize (IH Ht).
  cbn [readlines]. destruct (Ascii.eqb_spec a LF) as [->|Hne].
  - constructor; [|exact IH]. exists "". split; [now right | reflexivity].
  - apply Ascii.eqb_neq in Hne.
    destruct (readlines t) as [|l ls].
    + constructor; [|constructor]. exists (String a "").
      split; [now left|]. simpl. now rewrite Hne, Ha.
    + inversion IH as [|? ? (body & Hl & Hb) Hls]; subst.
      constructor; [|exact Hls]. exists (String a body). split.
      * destruct Hl as [-> | ->]; [now left | now right].
      * simpl. now rewrite Hne, Ha, Hb.
Qed.

(** Whatever the file holds, the loaded records are clean. *)
Lemma loaded_records_clean (file : file_state) :
  Forall (fun wallet => clean wallet = true) (load_wallets file).
Proof.
  destruct file as [| | |content]; try constructor.
  unfold load_wallets.
  pose proof (readlines_shape _ _ (universal_newlines_no_CR content)) as Hshape.
  induction Hshape as [|line ls (body & Hl & Hb) _ IH]; [constructor|].
  cbn [filter]. destruct (nonempty (strip line)) eqn:Hne; [|exact IH].
  cbn [map]. constructor; [|exact IH].
  assert (Hs : strip line = strip body)
    by (destruct Hl as [-> | ->]; [reflexivity | apply strip_line]).
  rewrite Hs in Hne |- *. apply strip_is_clean; [|exact Hne].
  unfold no_line_break. exact Hb.
Qed.

Lemma universal_newlines_line (wallet rest : string) :
  no_line_break wallet = true ->
  universal_newlines (wallet ++ String LF rest)
  = wallet ++ String LF (universal_newlines rest).
Proof.
  unfold no_line_break. induction wallet as [|a t IH]; intros H.
  - reflexivity.
  - simpl in H. apply andb_true_iff in H as [Ha Ht].
    apply andb_true_iff in Ha as [_ Hcr]. apply negb_true_iff in Hcr.
    cbn [String.append universal_newlines]. rewrite Hcr. now rewrite IH.
Qed.

Lemma readlines_line (wallet rest : string) :
  no_line_break wallet = true ->
  readlines (wallet ++ String LF rest)
  = (wallet ++ String LF "") :: readlines rest.
Proof.
  unfold no_line_break. induction wallet as [|a t IH]; intros H.
  - reflexivity.
  - simpl in H. apply andb_true_iff in H as [Ha Ht].
    apply andb_true_iff in Ha as [Hlf _]. apply negb_true_iff in Hlf.
    cbn [String.append readlines]. rewrite Hlf. now rewrite IH.
Qed.

(** Saving clean records and loading the file gives them back. *)
Lemma saved_then_loaded (wallets : list string) :
  Forall (fun wallet => clean wallet = true) wallets ->
  load_wallets (Text (written wallets)) = wallets.
Proof.
  unfold load_wallets.
  induction 1 as [|wallet rest Hw _ IH]; [reflexivity|].
  cbn [written].
  assert (Hnb : no_line_break wallet = true).
  { unfold clean in Hw. now apply andb_true_iff in Hw as [_ Hw]. }
  rewrite universal_newlines_line, readlines_line by exact Hnb.
  cbn [filter]. rewrite strip_line, (strip_clean _ Hw), (clean_nonempty _ Hw).
  cbn [map]. rewrite strip_line, (strip_clean _ Hw). now rewrite IH.
Qed.

Lemma written_app (ws : list string) (key : string) :
  written (ws ++ [key]) = written ws ++ key ++ String LF "".
Proof.
  induction ws as [|x ws IH]; [reflexivity|].
  cbn [app written]. rewrite IH.
  clear. induction x as [|a x IH]; [reflexivity|]. simpl. now rewrite IH.
Qed.

Lemma universal_newlines_CR_LF (t : string) :
  universal_newlines (String CR (String LF t)) = String LF (universal_newlines t).
Proof. reflexivity. Qed.

Lemma universal_newlines_CR (b : ascii) (t : string) :
  Ascii.eqb b LF = false ->
  universal_newlines (String CR (String b t))
  = String LF (universal_newlines (String b t)).
Proof.
  intros H.
  change (universal_newlines (String CR (String b t)))
    with (String LF (if Ascii.eqb b LF then universal_newlines t
                     else universal_newlines (String b t))).
  now rewrite H.
Qed.

Lemma readlines_LF (t : string) :
  readlines (String LF t) = String LF "" :: readlines t.
Proof. reflexivity. Qed.

Lemma lines_nonempty (s : string) :
  s <> "" -> readlines (universal_newlines s) <> [].
Proof.
  destruct s as [|a t]; [congruence|]. intros _.
  cbn [universal_newlines]. destruct (Ascii.eqb a CR).
  - rewrite readlines_LF. discriminate.
  - cbn [readlines]. destruct (Ascii.eqb a LF); [discriminate|].
    destruct (readlines (universal_newlines t)); discriminate.
Qed.

(** After a text whose last line is complete, the lines of what follows
    are lines of their own. *)
Lemma lines_app (c t : string) :
  newline_terminated c = true ->
  readlines (universal_newlines (c ++ t))
  = (readlines (universal_newlines c) ++ readlines (universal_newlines t))%list.
Proof.
  assert (H : forall n c, (String.length c <= n)%nat ->
              newline_terminated c = true ->
              readlines (universal_newlines (c ++ t))
              = (readlines (universal_newlines c)
                 ++ readlines (universal_newlines t))%list).
  { clear c. induction n as [|n IH]; intros c Hlen Hc.
    - destruct c; [reflexivity | simpl in Hlen; lia].
    - destruct c as [|a c']; [reflexivity|]. simpl in Hlen.
      assert (Htail : newline_terminated c' = true)
        by (destruct c'; [reflexivity | exact Hc]).
      destruct (Ascii.eqb_spec a CR) as [->|Ha].
      + destruct c' as [|b c'']; [discriminate Hc|].
        cbn [String.append]. simpl in Hlen.
        destruct (Ascii.eqb_spec b LF) as [->|Hb].
        * rewrite !universal_newlines_CR_LF, !readlines_LF. cbn [app]. f_equal.
          apply IH; [lia|]. destruct c''; [reflexivity | exact Hc].
        * apply Ascii.eqb_neq in Hb.
          rewrite !universal_newlines_CR by exact Hb.
          rewrite !readlines_LF. cbn [app]. f_equal.
          apply (IH (String b c'')); [simpl; lia | exact Htail].
      + apply Ascii.eqb_neq in Ha.
        cbn [String.append universal_newlines]. rewrite Ha.
        cbn [readlines]. rewrite (IH c') by (try lia; exact Htail).
        destruct (Ascii.eqb a LF) eqn:El; [reflexivity|].
        destruct c' as [|b c''].
        { simpl in Hc. rewrite El in Hc. discriminate Hc. }
        pose proof (lines_nonempty (String b c'') ltac:(discriminate)) as Hne.
        destruct (readlines (universal_newlines (String b c''))) as [|l ls];
          [congruence | reflexivity]. }
  apply (H (String.length c)). lia.
Qed.

Lemma loaded_app (c t : string) :
  newline_terminated c = true ->
  load_wallets (Text (c ++ t))
  = (load_wallets (Text c) ++ load_wallets (Text t))%list.
Proof.
  intros H. unfold load_wallets. rewrite lines_app by exact H.
  now rewrite filter_app, map_app.
Qed.

Lemma ledger_append_assoc (a b c : string) : (a ++ b) ++ c = a ++ b ++ c.
Proof. induction a as [|x a IH]; [reflexivity | simpl; now rewrite IH]. Qed.

Lemma line_terminated (c key : string) :
  newline_terminated (c ++ key ++ String LF "") = true.
Proof.
  rewrite <- ledger_append_assoc. unfold newline_terminated.
  destruct ((c ++ key) ++ String LF "") eqn:E; [reflexivity|].
  rewrite <- E. apply ends_with_char_append.
Qed.

(** A completed append to a file that is missing, empty or ends with a
    line break adds the key as the last record and leaves such a file. *)
Lemma appended_key_loaded (file : file_state) (key : string) :
  appendable file = true -> clean key = true ->
  load_wallets (fst (add_private_key file key Completes))
  = (load_wallets file ++ [key])%list
  /\ appendable (fst (add_private_key file key Completes)) = true.
Proof.
  intros Hfile Hkey.
  assert (Hone : load_wallets (Text (key ++ String LF "")) = [key])
    by (apply (saved_then_loaded [key]); now constructor).
  destruct file as [| | |content]; try discriminate Hfile;
    cbn [add_private_key fst appendable].
  - split; [exact Hone | apply (line_terminated "")].
  - split; [|apply line_terminated].
    rewrite loaded_app by exact Hfile. now rewrite Hone.
Qed.

End LedgerFileFacts.

(** X13: whatever the file holds (or when it is missing or cannot be
    read), every loaded record is non-empty, has no whitespace at either
    end and no line break inside; when the write completes, saving the
    loaded records and loading again returns the same records; and when
    the file cannot be opened for writing, the failure is logged and the
    ledger is as it was. *)
Theorem ledger_load_normalises (file : LedgerFile.file_state) :
  Forall (fun wallet => LedgerFile.clean wallet = true)
         (LedgerFile.load_wallets file)
  /\ LedgerFile.load_wallets
       (fst (LedgerFile.save_wallets file (LedgerFile.load_wallets file)
               LedgerFile.Completes))
     = LedgerFile.load_wallets file
  /\ LedgerFile.save_wallets file (LedgerFile.load_wallets file)
       LedgerFile.OpenFails
     = (file, [LedgerFile.SaveFailed]).
Proof.
  split; [apply loaded_records_clean|]. split; [|reflexivity].
  destruct file as [| | |content]; try reflexivity;
    cbn [LedgerFile.save_wallets fst];
    apply saved_then_loaded, loaded_records_clean.
Qed.

(** X14: when the write completes and the file may be read, records that
    are non-empty, without whitespace at their ends and without line
    breaks come back unchanged, in order, from saving and loading,
    whatever the file held, and success is logged; when the write fails,
    the failure is logged and loading returns what the failed write left
    in the file: the old records when the file could not be opened. *)
Theorem ledger_round_trip (previous : LedgerFile.file_state)
    (wallets : list string) :
  Forall (fun wallet => LedgerFile.clean wallet = true) wallets ->
  previous <> LedgerFile.Unreadable ->
  (LedgerFile.load_wallets
     (fst (LedgerFile.save_wallets previous wallets LedgerFile.Completes))
   = wallets
   /\ snd (LedgerFile.save_wallets previous wallets LedgerFile.Completes)
      = [LedgerFile.Saved])
  /\ LedgerFile.save_wallets previous wallets LedgerFile.OpenFails
     = (previous, [LedgerFile.SaveFailed])
  /\ forall remains,
       LedgerFile.save_wallets previous wallets (LedgerFile.WriteFails remains)
       = (remains, [LedgerFile.SaveFailed]).
Proof.
  intros Hws Hprev. split; [|split; [reflexivity | reflexivity]].
  split; [|reflexivity].
  destruct previous as [| | |content]; try (now elim Hprev);
    cbn [LedgerFile.save_wallets fst]; now apply saved_then_loaded.
Qed.

Lemma ledger_round_trip_witness :
  LedgerFile.load_wallets
    (fst (LedgerFile.save_wallets (LedgerFile.Text "old") ["k1"; "k2,0xA2"]
            LedgerFile.Completes))
  = ["k1"; "k2,0xA2"]
  /\ LedgerFile.load_wallets
       (fst (LedgerFile.save_wallets (LedgerFile.Text "old") ["k1"; "k2,0xA2"]
               LedgerFile.OpenFails))
     = ["old"].
Proof.
  assert (Hclean : Forall (fun wallet => LedgerFile.clean wallet = true)
                          ["k1"; "k2,0xA2"]) by (repeat constructor).
  assert (Hprev : LedgerFile.Text "old" <> LedgerFile.Unreadable) by discriminate.
  destruct (ledger_round_trip (LedgerFile.Text "old") ["k1"; "k2,0xA2"] Hclean Hprev)
    as ((Hload & _) & Hopen & _).
  split; [exact Hload|]. rewrite Hopen. reflexivity.
Defined.

(** X15: a completed append of a clean private key to a file that is
    empty or ends with a line break makes the key the last loaded record
    after the records the file had; appended to a missing file it starts
    a one-record ledger; a completed append logs nothing.  When the file
    cannot be opened the failure is logged and the key is not in the
    ledger.  After a last line without its line break the key does not
    become a record of its own: appended to the text "k1" the key "k2"
    gives the single record "k1k2". *)
Theorem ledger_append_key (content private_key : string) :
  LedgerFile.newline_terminated content = true ->
  LedgerFile.clean private_key = true ->
  LedgerFile.load_wallets
    (fst (LedgerFile.add_private_key (LedgerFile.Text content) private_key
            LedgerFile.Completes))
  = (LedgerFile.load_wallets (LedgerFile.Text content) ++ [private_key])%list
  /\ LedgerFile.load_wallets
       (fst (LedgerFile.add_private_key LedgerFile.Missing private_key
               LedgerFile.Completes))
     = [private_key]
  /\ (forall file,
        snd (LedgerFile.add_private_key file private_key LedgerFile.Completes) = []
        /\ LedgerFile.add_private_key file private_key LedgerFile.OpenFails
           = (file, [LedgerFile.AddFailed]))
  /\ LedgerFile.load_wallets
       (fst (LedgerFile.add_private_key (LedgerFile.Text "k1") "k2"
               LedgerFile.Completes))
     = ["k1k2"].
Proof.
  intros Hcontent Hkey.
  split; [apply (appended_key_loaded (LedgerFile.Text content)); assumption|].
  split; [apply (appended_key_loaded LedgerFile.Missing); [reflexivity | assumption]|].
  split; [intros file; split; reflexivity|].
  vm_compute. reflexivity.
Qed.

Lemma ledger_append_key_witness :
  LedgerFile.load_wallets
    (fst (LedgerFile.add_private_key
            (LedgerFile.Text (LedgerFile.written ["k1"; "k2,0xA2"])) "k3"
            LedgerFile.Completes))
  = ["k1"; "k2,0xA2"; "k3"].
Proof.
  exact (proj1 (ledger_append_key (LedgerFile.written ["k1"; "k2,0xA2"]) "k3"
                  eq_refl eq_refl)).
Defined.

Lemma append_inv_head (s a b : string) : s ++ a = s ++ b -> a = b.
Proof.
  induction s as [|c s IH]; simpl; [trivial|].
  intros H. injection H as H. now apply IH.
Qed.

Lemma append_inv_tail (a b s : string) : a ++ s = b ++ s -> a = b.
Proof.
  intros H.
  assert (Hlen : String.length a = String.length b).
  { apply (f_equal String.length) in H. rewrite !append_length in H. lia. }
  revert b H Hlen. induction a as [|c a IH]; intros [|d b] H Hlen;
    try discriminate; [reflexivity|].
  simpl in H, Hlen. injection H as -> H. f_equal. apply IH; [exact H | lia].
Qed.

(** X16: two ledger names never share a file: the file name determines
    the name, the unnamed ledger included. *)
Theorem get_wallets_filename_injective (name1 name2 : string) :
  LedgerFile.get_wallets_filename name1 = LedgerFile.get_wallets_filename name2 ->
  name1 = name2.
Proof.
  unfold LedgerFile.get_wallets_filename, LedgerFile.generate_dir.
  destruct name1 as [|a n1], name2 as [|b n2]; cbn [LedgerFile.nonempty].
  - reflexivity.
  - intros H. apply (append_inv_head "generate/wallets") in H. discriminate H.
  - intros H. apply (append_inv_head "generate/wallets") in H. discriminate H.
  - intros H. apply (append_inv_head "generate/wallets-") in H.
    now apply append_inv_tail in H.
Qed.

Lemma get_wallets_filename_injective_witness :
  LedgerFile.get_wallets_filename "main" <> LedgerFile.get_wallets_filename "".
Proof.
  intros H. apply get_wallets_filename_injective in H. discriminate H.
Defined.

(** ** Address generation *)

Section AddressGeneration.

Import GenerateAddress.

Variable w : World.

Lemma prefix_weaken (p k x : string) :
  String.prefix p k = true -> String.prefix p (k ++ x) = true.
Proof.
  revert k. induction p as [|c p IH]; intros k H.
  - now destruct (k ++ x).
  - destruct k as [|d k]; [discriminate|]. simpl in H |- *.
    destruct (ascii_dec c d); [now apply IH | discriminate].
Qed.

Lemma prefix_through_comma (p k a : string) :
  comma_free p = true ->
  String.prefix p (k ++ "," ++ a) = true -> String.prefix p k = true.
Proof.
  unfold comma_free. revert p. induction k as [|d k IH]; intros p Hfree H.
  - destruct p as [|c p]; [reflexivity|]. exfalso.
    simpl in Hfree. apply andb_true_iff in Hfree as [Hc _].
    apply negb_true_iff, Ascii.eqb_neq in Hc.
    simpl in H. destruct (ascii_dec c ","); [contradiction | discriminate].
  - destruct p as [|c p]; [reflexivity|].
    simpl in Hfree. apply andb_true_iff in Hfree as [_ Hp].
    simpl in H |- *. destruct (ascii_dec c d); [now apply IH | discriminate].
Qed.

Lemma starts_with_own_key (wallet_data : string) :
  PyStr.startswith wallet_data (key_field wallet_data) = true.
Proof.
  unfold PyStr.startswith.
  destruct (key_field_prefix wallet_data) as [_ [E|[rest E]]].
  - rewrite E at 2. rewrite <- (append_empty_r (key_field wallet_data)) at 2.
    apply prefix_append.
  - rewrite E at 2. apply prefix_append.
Qed.

Lemma get_address_fst (private_key : string) :
  fst (get_address_by_key w private_key) = account_from_key w private_key.
Proof.
  unfold get_address_by_key. now destruct (account_from_key w private_key).
Qed.

(** A record left by an earlier iteration does not start with the key of
    a later one, when the record it came from does not. *)
Lemma resolved_not_started (wallet_data key : string) :
  comma_free key = true ->
  PyStr.startswith wallet_data key = false ->
  PyStr.startswith (resolved w wallet_data) key = false.
Proof.
  intros Hfree Hno. unfold resolved.
  destruct (has_two_fields wallet_data); [exact Hno|].
  destruct (account_from_key w (key_field wallet_data)) as [a|]; [|exact Hno].
  destruct (String.eqb a ""); [exact Hno|].
  unfold PyStr.startswith in *.
  destruct (String.prefix key (key_field wallet_data ++ "," ++ a)) eqn:E;
    [|reflexivity].
  apply prefix_through_comma in E; [|exact Hfree].
  destruct (key_field_prefix wallet_data) as [_ [Ew|[rest Ew]]].
  - rewrite Ew in Hno. congruence.
  - rewrite Ew in Hno. rewrite (prefix_weaken _ _ _ E) in Hno. discriminate.
Qed.

Lemma update_own_record (done rest : list string) (wallet_data address : string) :
  forallb (fun r => negb (PyStr.startswith r (key_field wallet_data)))
          (done ++ rest) = true ->
  WalletManager.update_wallet_with_address
    (map (resolved w) done ++ wallet_data :: rest)
    (key_field wallet_data) address
  = (map (resolved w) done
     ++ (key_field wallet_data ++ "," ++ address)%string :: rest)%list.
Proof.
  intros H. rewrite forallb_app in H. apply andb_true_iff in H as [Hd Hr].
  rewrite forallb_forall in Hd, Hr.
  rewrite update_as_map, map_app. cbn [map]. f_equal; [|f_equal].
  - rewrite map_map. apply map_ext_in. intros r Hin.
    unfold WalletManager.updated_record.
    rewrite resolved_not_started; [reflexivity | apply key_field_prefix |].
    now apply negb_true_iff, Hd.
  - unfold WalletManager.updated_record. now rewrite starts_with_own_key.
  - rewrite <- (map_id rest) at 2. apply map_ext_in. intros r Hin.
    unfold WalletManager.updated_record.
    specialize (Hr r Hin). apply negb_true_iff in Hr. now rewrite Hr.
Qed.

Lemma fst_let {A B C : Type} (p : A * B) (f : B -> C) :
  fst (let '(a, b) := p in (a, f b)) = fst p.
Proof. now destruct p. Qed.

Lemma loop_resolves (rest done : list string) (pos : Z) :
  independent_from done rest = true ->
  fst (address_loop w rest pos (map (resolved w) done ++ rest))
  = map (resolved w) (done ++ rest).
Proof.
  revert done pos. induction rest as [|wallet_data rest IH]; intros done pos H.
  - simpl. now rewrite !app_nil_r.
  - cbn [independent_from] in H. apply andb_true_iff in H as [Hclear Hind].
    specialize (IH (done ++ [wallet_data])%list (pos + 1) Hind).
    rewrite map_app in IH. cbn [map] in IH. rewrite <- !app_assoc in IH.
    cbn [app] in IH.
    assert (Hsame : resolved w wallet_data = wallet_data ->
              fst (address_loop w rest (pos + 1)
                     (map (resolved w) done ++ wallet_data :: rest))
              = map (resolved w) (done ++ wallet_data :: rest)).
    { intros E. rewrite E in IH. exact IH. }
    cbn [address_loop].
    destruct (has_two_fields wallet_data) eqn:Htwo.
    + rewrite fst_let. apply Hsame. unfold resolved. now rewrite Htwo.
    + pose proof (get_address_fst (key_field wallet_data)) as Hfst.
      destruct (get_address_by_key w (key_field wallet_data)) as [address derivation].
      simpl in Hfst. subst address.
      destruct (account_from_key w (key_field wallet_data)) as [a|] eqn:Ea.
      * cbn [falsy]. destruct (String.eqb a "") eqn:Eempty.
        -- rewrite fst_let. apply Hsame. unfold resolved.
           now rewrite Htwo, Ea, Eempty.
        -- rewrite fst_let.
           rewrite (update_own_record done rest wallet_data a Hclear).
           assert (Eres : resolved w wallet_data = key_field wallet_data ++ "," ++ a).
           { unfold resolved. now rewrite Htwo, Ea, Eempty. }
           rewrite Eres in IH. exact IH.
      * cbn [falsy]. rewrite fst_let. apply Hsame. unfold resolved.
        now rewrite Htwo, Ea.
Qed.

Lemma saved_app (s t : list step) : saved (s ++ t) = (saved s ++ saved t)%list.
Proof. unfold saved. apply flat_map_app. Qed.

Lemma saved_derive (t : list event) : saved (map Derive t) = [].
Proof. induction t as [|e t IH]; [reflexivity | exact IH]. Qed.

Lemma saved_log (l : line) (t : list step) : saved (Log l :: t) = saved t.
Proof. reflexivity. Qed.

Lemma loop_saves_nothing (wallets : list string) (pos : Z) (updated : list string) :
  saved (snd (address_loop w wallets pos updated)) = [].
Proof.
  revert pos updated. induction wallets as [|wallet_data rest IH]; intros pos updated.
  - reflexivity.
  - cbn [address_loop]. destruct (has_two_fields wallet_data).
    + specialize (IH (pos + 1) updated).
      destruct (address_loop w rest (pos + 1) updated). exact IH.
    + destruct (get_address_by_key w (key_field wallet_data)) as [address derivation].
      destruct (falsy address).
      * specialize (IH (pos + 1) updated).
        destruct (address_loop w rest (pos + 1) updated) as [final steps].
        cbn [snd] in *.
        now rewrite saved_log, saved_app, saved_derive, saved_log, IH.
      * match goal with
        | |- context [address_loop w rest (pos + 1) ?u] =>
            specialize (IH (pos + 1) u);
            destruct (address_loop w rest (pos + 1) u) as [final steps]
        end.
        cbn [snd] in *.
        now rewrite saved_log, saved_app, saved_derive, saved_log, IH.
Qed.

Lemma update_length (wallets : list string) (private_key address : string) :
  List.length (WalletManager.update_wallet_with_address wallets private_key address)
  = List.length wallets.
Proof. rewrite update_as_map. apply length_map. Qed.

Lemma loop_length (wallets : list string) (pos : Z) (updated : list string) :
  List.length (fst (address_loop w wallets pos updated)) = List.length updated.
Proof.
  revert pos updated. induction wallets as [|wallet_data rest IH]; intros pos updated.
  - reflexivity.
  - cbn [address_loop]. destruct (has_two_fields wallet_data).
    + specialize (IH (pos + 1) updated).
      destruct (address_loop w rest (pos + 1) updated). exact IH.
    + destruct (get_address_by_key w (key_field wallet_data)) as [address derivation].
      destruct (falsy address).
      * specialize (IH (pos + 1) updated).
        destruct (address_loop w rest (pos + 1) updated). exact IH.
      * match goal with
        | |- context [address_loop w rest (pos + 1) ?u] =>
            specialize (IH (pos + 1) u);
            destruct (address_loop w rest (pos + 1) u) as [final steps]
        end.
        cbn [fst] in *. now rewrite IH, update_length.
Qed.

Lemma loop_two_fields (wallets : list string) (pos : Z) (updated : list string) :
  forallb has_two_fields wallets = true ->
  fst (address_loop w wallets pos updated) = updated
  /\ derivations (snd (address_loop w wallets pos updated)) = [].
Proof.
  revert pos. induction wallets as [|wallet_data rest IH]; intros pos H.
  - split; reflexivity.
  - cbn [forallb] in H. apply andb_true_iff in H as [Htwo Hrest].
    cbn [address_loop]. rewrite Htwo.
    destruct (IH (pos + 1) Hrest) as [E1 E2].
    destruct (address_loop w rest (pos + 1) updated) as [final steps].
    split; [exact E1 | exact E2].
Qed.

Lemma run_saved (name : string) (write_ok : bool) :
  load_wallets w name <> [] ->
  saved (generate_address w name write_ok)
  = [fst (address_loop w (load_wallets w name) 0 (load_wallets w name))].
Proof.
  intros Hne. unfold generate_address.
  destruct (load_wallets w name) as [|x rest] eqn:E; [now elim Hne|].
  pose proof (loop_saves_nothing (x :: rest) 0 (x :: rest)) as Hs.
  destruct (address_loop w (x :: rest) 0 (x :: rest)) as [final steps].
  cbn [fst snd] in *. now rewrite saved_app, Hs.
Qed.

End AddressGeneration.

(** X17: when no record starts with another record's key field, address
    generation saves, in ledger order, each record resolved on its own:
    unchanged if it has two fields or its key yields no address, and
    "key,address" otherwise. *)
Theorem generate_address_resolves (w : World) (name : string) (write_ok : bool) :
  GenerateAddress.prefix_independent (load_wallets w name) = true ->
  load_wallets w name <> [] ->
  GenerateAddress.saved (GenerateAddress.generate_address w name write_ok)
  = [map (GenerateAddress.resolved w) (load_wallets w name)].
Proof.
  intros Hind Hne. rewrite run_saved by exact Hne. f_equal.
  apply (loop_resolves w (load_wallets w name) [] 0 Hind).
Qed.

Lemma generate_address_resolves_witness :
  GenerateAddress.saved (GenerateAddress.generate_address flaky_world "" true)
  = [["k1,0xk1"; "k2,0xA2"; "k3,0xk3"]].
Proof.
  refine (generate_address_resolves flaky_world "" true eq_refl _). discriminate.
Defined.

(** X18: on a ledger whose records all have two fields, address generation
    derives nothing and saves the ledger as it was loaded. *)
Theorem generate_address_on_resolved_ledger (w : World) (name : string)
    (write_ok : bool) :
  forallb GenerateAddress.has_two_fields (load_wallets w name) = true ->
  load_wallets w name <> [] ->
  let steps := GenerateAddress.generate_address w name write_ok in
  GenerateAddress.saved steps = [load_wallets w name]
  /\ GenerateAddress.derivations steps = [].
Proof.
  intros Htwo Hne steps. subst steps. split.
  - rewrite run_saved by exact Hne. f_equal.
    apply (loop_two_fields w _ 0 _ Htwo).
  - unfold GenerateAddress.generate_address.
    destruct (load_wallets w name) as [|x rest] eqn:E; [now elim Hne|].
    destruct (loop_two_fields w (x :: rest) 0 (x :: rest) Htwo) as [_ Hd].
    destruct (GenerateAddress.address_loop w (x :: rest) 0 (x :: rest))
      as [final steps].
    unfold GenerateAddress.derivations in *. rewrite filter_app.
    cbn [snd] in Hd. rewrite Hd. reflexivity.
Qed.

Lemma generate_address_on_resolved_ledger_witness :
  GenerateAddress.saved (GenerateAddress.generate_address resolved_world "" true)
  = [["k1,0xA1"; "k2,0xA2"]].
Proof.
  refine (proj1 (generate_address_on_resolved_ledger resolved_world "" true
                   eq_refl _)).
  discriminate.
Defined.

(** X19: address generation calls [save_wallets] once, with a list as long as
    the ledger, unless the ledger is empty: then it saves nothing. *)
Theorem generate_address_saves_once (w : World) (name : string) (write_ok : bool) :
  (load_wallets w name = [] ->
   GenerateAddress.generate_address w name write_ok
   = [GenerateAddress.Log GenerateAddress.LineNoWallets])
  /\ (load_wallets w name <> [] ->
      exists updated,
        GenerateAddress.saved (GenerateAddress.generate_address w name write_ok)
        = [updated]
        /\ List.length updated = List.length (load_wallets w name)).
Proof.
  split.
  - intros E. unfold GenerateAddress.generate_address. now rewrite E.
  - intros Hne. eexists. split; [now apply run_saved|]. apply loop_length.
Qed.

Lemma generate_address_saves_once_witness :
  exists updated,
    GenerateAddress.saved (GenerateAddress.generate_address flaky_world "" false)
    = [updated]
    /\ List.length updated = 3%nat.
Proof.
  refine (proj2 (generate_address_saves_once flaky_world "" false) _).
  discriminate.
Defined.

(** X20: for a token with zero decimals, a wallet whose token balance is
    zero is reported as a failed query, although both balance calls
    succeeded: formatting the zero raises inside the [try] block, so no
    balance line is logged for the wallet. *)
Theorem zero_balance_without_decimals_fails (w : World)
    (config : network_profile) (token_symbol : string) (runeq : runeq_t)
    (rungt runlt idx : Z) (wallet_data address : string)
    (balance_native_raw : Z) (balance_native : string) :
  is_id_valid idx runeq rungt runlt = true ->
  account_from_key w (key_field wallet_data) = Some address ->
  address <> "" ->
  eth_get_balance w idx address = Some balance_native_raw ->
  format_token_amount balance_native_raw (native_decimals config)
  = Some balance_native ->
  token_balanceOf w idx address = Some 0 ->
  body_events w config token_symbol 0 runeq rungt runlt (idx, wallet_data)
  = [ EvFromKey (key_field wallet_data); EvGetBalance address;
      EvBalanceOf address; EvLog ERROR (MsgQueryFailed idx);
      EvSleepUniform 1 3 ].
Proof.
  intros Hvalid Ha Hne Hnative Hshown Htoken.
  unfold body_events, loop_body, get_address_by_key, query_balances.
  cbn [fst snd]. rewrite Hvalid, Ha. cbn.
  apply String.eqb_neq in Hne. rewrite Hne.
  rewrite Hnative. cbn. rewrite Hshown. cbn. rewrite Htoken. cbn.
  assert (Hraise : format_token_amount 0 0 = None) by (vm_compute; reflexivity).
  rewrite Hraise. reflexivity.
Qed.

Lemma zero_balance_without_decimals_fails_witness :
  body_events zero_decimals_world
    (mkProfile "ETH" "Ethereum" 18 "https://eth.drpc.org"
       "0xdac17f958d2ee523a2206206994597c13d831ec7")
    "NFT" 0 (EqList []) 0 0 (1, "k1")
  = [ EvFromKey "k1"; EvGetBalance "0xk1"; EvBalanceOf "0xk1";
      EvLog ERROR (MsgQueryFailed 1); EvSleepUniform 1 3 ].
Proof.
  refine (zero_balance_without_decimals_fails zero_decimals_world _ "NFT"
            (EqList []) 0 0 1 "k1" "0xk1" 1500000000000000000 "1.5"
            eq_refl eq_refl _ eq_refl _ eq_refl).
  - discriminate.
  - vm_compute. reflexivity.
Defined.

(** ** From a listed file to a ledger name *)

Section ChooseNameFacts.

Import ChooseName.

Lemma endswith_append (s suffix : string) : endswith (s ++ suffix) suffix = true.
Proof.
  induction s as [|a s IH].
  - destruct suffix; simpl; [reflexivity|]. now rewrite Ascii.eqb_refl, String.eqb_refl.
  - cbn [String.append endswith]. rewrite IH. apply orb_true_r.
Qed.

Lemma replace_without_occurrence (old new s : string) :
  occurs old s = false -> replace old new s = s.
Proof.
  unfold replace. induction s as [|a t IH]; [reflexivity|].
  cbn [occurs replace_from]. intros H. apply orb_false_iff in H as [Hp Ht].
  rewrite Hp. now rewrite IH.
Qed.

Lemma replace_extension (name : string) :
  PyStr.all_chars (fun c => negb (Ascii.eqb c ".")) name = true ->
  replace ".txt" "" (name ++ ".txt") = name.
Proof.
  unfold replace. induction name as [|a t IH]; intros H; [reflexivity|].
  simpl in H. apply andb_true_iff in H as [Ha Ht].
  apply negb_true_iff, Ascii.eqb_neq in Ha.
  cbn [String.append replace_from String.prefix].
  destruct (ascii_dec "." a) as [E|_]; [now elim Ha|]. now rewrite IH.
Qed.

Lemma replace_wallets_prefix (rest : string) :
  replace "wallets-" "" ("wallets-" ++ rest) = replace "wallets-" "" rest.
Proof.
  unfold replace.
  change ("wallets-" ++ rest) with (String "w" ("allets-" ++ rest)).
  cbn [replace_from].
  change (String "w" ("allets-" ++ rest)) with ("wallets-" ++ rest).
  rewrite prefix_append. reflexivity.
Qed.

End ChooseNameFacts.

(** X21: a name without "." and without "wallets-" in it (nor across its
    ".txt") is read back from the file of its ledger; and for a
    non-empty name that file is the one the name stands for. *)
Theorem name_of_own_file (name : string) :
  ChooseName.occurs "wallets-" (name ++ ".txt") = false ->
  PyStr.all_chars (fun c => negb (Ascii.eqb c ".")) name = true ->
  ChooseName.name_of_file ("wallets-" ++ name ++ ".txt") = name
  /\ (name <> "" ->
      LedgerFile.get_wallets_filename
        (ChooseName.name_of_file ("wallets-" ++ name ++ ".txt"))
      = "generate/" ++ "wallets-" ++ name ++ ".txt").
Proof.
  intros Hocc Hdot.
  assert (E : ChooseName.name_of_file ("wallets-" ++ name ++ ".txt") = name).
  { unfold ChooseName.name_of_file, PyStr.startswith.
    rewrite prefix_append.
    assert (Hend : ChooseName.endswith ("wallets-" ++ name ++ ".txt") ".txt" = true)
      by apply (endswith_append (String "w" (String "a" (String "l" (String "l"
                  (String "e" (String "t" (String "s" (String "-" name)))))))) ".txt").
    rewrite Hend. cbn [andb]. rewrite replace_wallets_prefix.
    rewrite (replace_without_occurrence "wallets-" "" (name ++ ".txt") Hocc).
    now apply replace_extension. }
  split; [exact E|]. intros Hne. rewrite E.
  unfold LedgerFile.get_wallets_filename, LedgerFile.generate_dir.
  destruct name; [now elim Hne | reflexivity].
Qed.

Lemma name_of_own_file_witness :
  ChooseName.name_of_file ("wallets-" ++ "my-main" ++ ".txt") = "my-main".
Proof.
  exact (proj1 (name_of_own_file "my-main" eq_refl eq_refl)).
Defined.

(** X22: a listed file whose name does not start with "wallets-" is never the
    file that the name chosen for it stands for. *)
Theorem other_file_not_selected (file : string) :
  PyStr.startswith file "wallets-" = false ->
  LedgerFile.get_wallets_filename (ChooseName.name_of_file file)
  <> "generate/" ++ file.
Proof.
  intros Hstart H.
  unfold LedgerFile.get_wallets_filename, LedgerFile.generate_dir in H.
  destruct (LedgerFile.nonempty (ChooseName.name_of_file file)) eqn:Hne.
  - apply (append_inv_head "generate/") in H.
    assert (Hp : String.prefix "wallets-" file = true).
    { rewrite <- H.
      apply (prefix_append "wallets-" (ChooseName.name_of_file file ++ ".txt")). }
    unfold PyStr.startswith in Hstart. congruence.
  - apply (append_inv_head "generate/") in H. subst file. discriminate Hne.
Qed.

Lemma other_file_not_selected_witness :
  LedgerFile.get_wallets_filename (ChooseName.name_of_file "wallets.txt")
  <> "generate/" ++ "wallets.txt".
Proof.
  exact (other_file_not_selected "wallets.txt" eq_refl).
Defined.

(** ** The keys that key generation appends *)

(** X23: to a ledger file that is missing, empty or ends with a line
    break, the appends of generate_privkey, each of which completes or
    cannot open the file, add as records, after the records the file had
    and in the order of their creation, exactly the clean keys whose
    append completed; a key whose append could not open the file is not
    in the ledger.  (After a last line without its line break the first
    key would not be a record of its own.) *)
Theorem generated_keys_loaded (file : LedgerFile.file_state)
    (keys : list (string * LedgerFile.write_outcome)) :
  LedgerFile.appendable file = true ->
  Forall (fun key => LedgerFile.clean (fst key) = true) keys ->
  Forall (fun key => snd key = LedgerFile.Completes
                     \/ snd key = LedgerFile.OpenFails) keys ->
  LedgerFile.load_wallets (append_keys file keys)
  = (LedgerFile.load_wallets file
     ++ map fst (filter (fun key => LedgerFile.completes (snd key)) keys))%list.
Proof.
  intros Hfile Hclean Hout. unfold append_keys.
  revert file Hfile Hout.
  induction Hclean as [|[key outcome] keys Hkey _ IH]; intros file Hfile Hout.
  - cbn. now rewrite app_nil_r.
  - inversion Hout as [|? ? Hhead Htail]; subst.
    cbn [fold_left fst snd filter] in *.
    destruct Hhead as [-> | ->].
    + destruct (appended_key_loaded file key Hfile Hkey) as [Hload Happ].
      rewrite (IH _ Happ Htail), Hload.
      cbn [LedgerFile.completes map]. now rewrite <- app_assoc.
    + cbn [LedgerFile.add_private_key fst LedgerFile.completes].
      now apply IH.
Qed.

Lemma generated_keys_loaded_witness :
  LedgerFile.load_wallets
    (append_keys (LedgerFile.Text (LedgerFile.written ["k1"]))
       [("k2", LedgerFile.Completes); ("k3", LedgerFile.OpenFails);
        ("k4", LedgerFile.Completes)])
  = ["k1"; "k2"; "k4"].
Proof.
  refine (generated_keys_loaded (LedgerFile.Text (LedgerFile.written ["k1"]))
            [("k2", LedgerFile.Completes); ("k3", LedgerFile.OpenFails);
             ("k4", LedgerFile.Completes)] eq_refl _ _).
  - repeat constructor.
  - apply Forall_cons; [now left|].
    apply Forall_cons; [now right|].
    apply Forall_cons; [now left | apply Forall_nil].
Defined.
